(** * VIF2CSV: the Profound VIF reader

    A shallow embedding of [PythonVersion.py]: the command line ([main],
    from the parsed arguments on), the helpers of the date option, the
    header lines, the two passes over a file ([VifReader.detect_kb_mode]
    and the resynchronising stream scanner [VifReader.process_records]),
    the record validator and decoder ([VifReader.process_record]) and the
    field codec and formatter they call.  The argument parser, the opening
    of files and the messages for the standard error stream are left out.

    Python integers are [Z]; a [bytes] or [bytearray] value is a
    [list byte]; a [str] is a [string], one character for each code point
    below 256; Python floats are IEEE binary64, here the kernel's
    primitive floats; an exception is a value of [Py.exn], carried by
    [Py.res] in the pure helpers and returned next to the state of the
    reader by the methods that change it.  Loops run on fuel, and the
    fuel they are given is proved to be enough. *)

From Stdlib Require Import ZArith String Ascii List Bool Lia.
From Stdlib Require Import Floats Uint63 DecimalString.
From Stdlib.Strings Require Byte.
Import ListNotations.
Local Open Scope Z_scope.

(* ================================================================== *)
(** ** The pieces of the Python runtime the program relies on *)
(* ================================================================== *)

Module Py.

(** The built-in exceptions the decoder can raise. *)
Inductive exn : Set :=
| ValueError
| IndexError
| OverflowError
| ZeroDivisionError.

(** A computation that returns or raises. *)
Inductive res (A : Type) : Type :=
| Ok (a : A)
| Raise (e : exn).

Arguments Ok {A} a.
Arguments Raise {A} e.

Definition bind {A B : Type} (m : res A) (k : A -> res B) : res B :=
  match m with
  | Ok a => k a
  | Raise e => Raise e
  end.

Definition byte : Set := Byte.byte.

(** [b] read as an integer, as indexing a [bytes] object does. *)
Definition ord (b : byte) : Z := Z.of_N (Byte.to_N b).

(** [bytes([z])] for [z] in [range(256)]; only used to write literals. *)
Definition chr (z : Z) : byte :=
  match Byte.of_N (Z.to_N z) with
  | Some b => b
  | None => Byte.x00
  end.

Definition len {A : Type} (l : list A) : Z := Z.of_nat (List.length l).

(** [buf[i]]: a negative index counts from the end, an index outside the
    buffer raises [IndexError]. *)
Definition getitem (buf : list byte) (i : Z) : res Z :=
  let j := if i <? 0 then i + len buf else i in
  if j <? 0 then Raise IndexError
  else match nth_error buf (Z.to_nat j) with
       | Some b => Ok (ord b)
       | None => Raise IndexError
       end.

(** [a << n]: a negative shift count raises [ValueError]. *)
Definition lshift (a n : Z) : res Z :=
  if n <? 0 then Raise ValueError else Ok (Z.shiftl a n).

(** [str(z)]. *)
Definition str (z : Z) : string := NilZero.string_of_int (Z.to_int z).

Fixpoint zeros (n : nat) : string :=
  match n with
  | O => EmptyString
  | S n' => String "0"%char (zeros n')
  end.

(** [s.rjust(w, "0")]. *)
Definition zfill_left (w : nat) (s : string) : string :=
  (zeros (w - String.length s) ++ s)%string.

(** [f"{z:0{w}d}"]: the sign, when there is one, counts in the width. *)
Definition format_0d (w : nat) (z : Z) : string :=
  if z <? 0
  then ("-" ++ zfill_left (w - 1) (str (- z)))%string
  else zfill_left w (str z).

(** *** Floats *)

(** Conversion of a non-negative integer to the nearest float (ties to
    even).  Below [2^63] the primitive conversion is that rounding; above,
    the top 63 bits are kept with a sticky last bit, which leaves the
    rounding to 53 bits unchanged. *)
Definition float_of_nonneg (z : Z) : float :=
  if z <? 2 ^ 63 then PrimFloat.of_uint63 (Uint63.of_Z z)
  else
    let k := Z.log2 z - 62 in
    let hi := Z.shiftr z k in
    let sticky := if Z.land z (Z.ones k) =? 0 then 0 else 1 in
    Z.ldexp (PrimFloat.of_uint63 (Uint63.of_Z (Z.lor hi sticky))) k.

(** [float(z)], the conversion every mixed [int]/[float] operation applies;
    [OverflowError] when [z] is too large for a float. *)
Definition float_of_int (z : Z) : res float :=
  let f := if z <? 0 then PrimFloat.opp (float_of_nonneg (- z))
           else float_of_nonneg z in
  if PrimFloat.is_infinity f then Raise OverflowError else Ok f.

(** [math.floor(x)]: an [int]; infinities and NaN raise. *)
Definition floor (x : float) : res Z :=
  match Prim2SF x with
  | S754_zero _ => Ok 0
  | S754_finite s m e =>
      Ok (Z.shiftl (if s then Z.neg m else Z.pos m) e)
  | S754_infinity _ => Raise OverflowError
  | S754_nan => Raise ValueError
  end.

(** [math.sqrt(z)] for an integer argument. *)
Definition sqrt_int (z : Z) : res float :=
  match float_of_int z with
  | Raise e => Raise e
  | Ok x => if z <? 0 then Raise ValueError else Ok (PrimFloat.sqrt x)
  end.

(** [x / y] on floats: a zero divisor raises. *)
Definition fdiv (x y : float) : res float :=
  if PrimFloat.eqb y 0%float then Raise ZeroDivisionError
  else Ok (PrimFloat.div x y).

(** [10.0 ** d] for a non-negative integer [d]: the float nearest to the
    power of ten, [OverflowError] past the range.  Up to [d = 22] the power
    is itself a float and this is the value Python computes; the program
    asks for 1, 2 and 4 decimals only.  Beyond 22 the C library's [pow]
    decides the last bit of the scale (at [d = 23] it is one unit in the
    last place above the nearest float), which the rounding rule proved
    below does not depend on: it is stated for whatever scale is used. *)
Definition pow10 (d : nat) : res float := float_of_int (10 ^ Z.of_nat d).

(** [n / d] rounded to the nearest integer, ties to even ([0 <= n], [0 < d]). *)
Definition div_half_even (n d : Z) : Z :=
  let q := n / d in
  let r := n mod d in
  if 2 * r <? d then q
  else if d <? 2 * r then q + 1
  else if Z.even q then q else q + 1.

(** The digits of [q / 10^d] with exactly [d] decimals ([0 <= q]). *)
Definition fixed_digits (q : Z) (d : nat) : string :=
  let s := zfill_left (S d) (str q) in
  let n := (String.length s - d)%nat in
  match d with
  | O => s
  | _ => (substring 0 n s ++ "." ++ substring n d s)%string
  end.

(** [f"{x:.{d}f}"]: the exact binary value of [x], correctly rounded (ties
    to even) to [d] decimals. *)
Definition format_f (x : float) (d : nat) : string :=
  match Prim2SF x with
  | S754_nan => "nan"%string
  | S754_infinity s => if s then "-inf"%string else "inf"%string
  | S754_zero s => ((if s then "-" else EmptyString) ++ fixed_digits 0 d)%string
  | S754_finite s m e =>
      let n := Z.pos m * 10 ^ Z.of_nat d in
      let q := if 0 <=? e then n * 2 ^ e else div_half_even n (2 ^ (- e)) in
      ((if s then "-" else EmptyString) ++ fixed_digits q d)%string
  end.

End Py.

Import Py.

Notation "'let!' x ':=' m 'in' k" := (Py.bind m (fun x => k))
  (at level 10, x name, m at level 200, k at level 200, only parsing).

#[local] Set Warnings "-inexact-float".

(* ================================================================== *)
(** ** Python strings *)
(* ================================================================== *)

Module PyStr.

(** A [str] is the sequence of its code points.  The strings modelled are
    those whose code points are below 256, one [ascii] each: this covers
    what the date option is compared with, and the three characters
    outside ASCII that [str.isdigit] accepts in this range. *)

(** [c.isdigit()] for one character: the ten decimal digits and the
    superscript digits two, three and one (178, 179 and 185). *)
Definition isdigit_char (c : ascii) : bool :=
  let n := N_of_ascii c in
  ((48 <=? n) && (n <=? 57) || (n =? 178) || (n =? 179) || (n =? 185))%N.

Fixpoint all_chars (p : ascii -> bool) (s : string) : bool :=
  match s with
  | EmptyString => true
  | String c s' => p c && all_chars p s'
  end.

(** [s.isdigit()]: every character is a digit and there is at least one. *)
Definition isdigit (s : string) : bool :=
  match s with
  | EmptyString => false
  | String _ _ => all_chars isdigit_char s
  end.

(** [s[i:j]] for [0 <= i <= j]: a slice stops at the end of [s]. *)
Definition slice (s : string) (i j : nat) : string := substring i (j - i) s.

(** [s[i:]] *)
Definition slice_from (s : string) (i : nat) : string :=
  substring i (String.length s - i) s.

(** [s[i] == c] for an index inside [s]. *)
Definition char_is (s : string) (i : nat) (c : ascii) : bool :=
  match String.get i s with
  | Some c' => Ascii.eqb c' c
  | None => false
  end.

(** The value of a string of decimal digits, most significant first;
    [None] when a character is not one of the ten decimal digits. *)
Fixpoint decimal_value (acc : Z) (s : string) : option Z :=
  match s with
  | EmptyString => Some acc
  | String c s' =>
      let n := Z.of_N (N_of_ascii c) in
      if (48 <=? n) && (n <=? 57) then decimal_value (10 * acc + (n - 48)) s'
      else None
  end.

(** [int(s)] for a string on which [s.isdigit()] holds: the number when
    all its characters are decimal digits, [ValueError] when one of them is
    a superscript digit.  Signs, blanks and underscores, which [int] also
    reads, do not occur in such a string and are not modelled. *)
Definition int_of_digits (s : string) : res Z :=
  match s with
  | EmptyString => Raise ValueError
  | String _ _ =>
      match decimal_value 0 s with
      | Some z => Ok z
      | None => Raise ValueError
      end
  end.

(** [s.rstrip(c)] for a single character [c]. *)
Fixpoint rstrip (c : ascii) (s : string) : string :=
  match s with
  | EmptyString => EmptyString
  | String a s' =>
      match rstrip c s' with
      | EmptyString => if Ascii.eqb a c then EmptyString else String a EmptyString
      | t => String a t
      end
  end.

(** [buf[i] = b] on a bytearray, for an index inside it. *)
Definition setitem (buf : list byte) (i : nat) (b : byte) : list byte :=
  firstn i buf ++ b :: skipn (S i) buf.

(** [buf[i:j] = src] on a bytearray, [0 <= i <= j <= len(buf)]. *)
Definition setslice (buf : list byte) (i j : nat) (src : list byte)
    : list byte :=
  firstn i buf ++ src ++ skipn j buf.

End PyStr.

Import PyStr.

(* ================================================================== *)
(** ** Module-level constants and byte readers *)
(* ================================================================== *)

Definition FLOAT16_DIVISOR : float := 1000000%float.
Definition INT16_DIVISOR : float := 2%float.

Definition RECORD_SIZE_EXPECTED : Z := 68.
Definition MIN_RECORD_BYTES : Z := 12.
Definition SCAN_CHUNK_SIZE : Z := 256 * 1024.
Definition RECORD_BUFFER_SIZE : Z := 70.

(** [sys.maxsize] of a 64-bit CPython. *)
Definition sys_maxsize : Z := 2 ^ 63 - 1.

Definition u16_le (buf : list byte) (off : Z) : res Z :=
  let! lo := getitem buf off in
  let! hi := getitem buf (off + 1) in
  Ok (Z.lor lo (Z.shiftl hi 8)).

Definition i16_le (buf : list byte) (off : Z) : res Z :=
  let! v := u16_le buf off in
  Ok (if Z.land v 0x8000 =? 0 then v else v - 0x10000).

(* ================================================================== *)
(** ** Field codec: the static methods of [VifReader] *)
(* ================================================================== *)

Definition _to_i16 (u : Z) : Z :=
  let u := Z.land u 0xFFFF in
  if Z.land u 0x8000 =? 0 then u else u - 0x10000.

Definition sv_from_float16 (value_i16 : Z) : res Z :=
  let result := value_i16 in
  let v2 := Z.shiftr (Z.land value_i16 0xFFFF) 11 - 1 in
  if v2 <=? 0x13 then
    let v3 := Z.land value_i16 0x7FF in
    let v3 := Z.lor v3 0x800 in
    lshift v3 v2
  else Ok result.

Definition is_special_value (v : Z) : bool := (-4 <=? v) && (v <=? -1).

Definition is_overload (v : Z) : bool := 99999999 <? v.

Definition sv_is_value_valid (value_u16 : Z) : res Z :=
  let v1 := Z.shiftr value_u16 11 - 1 in
  if 0x13 <? v1 then
    let result := _to_i16 value_u16 in
    if Z.land result 0xFFFFFFFF <? 0xFFFFFFFC then Ok 0 else Ok result
  else
    let v2 := Z.land value_u16 0x7FF in
    let v2 := Z.lor (Z.land v2 0xFF)
                    (Z.shiftl (Z.land (Z.lor (Z.shiftr v2 8) 8) 0xFFFF) 8) in
    let! result := lshift v2 v1 in
    if 3 <? Z.land (result + 4) 0xFFFFFFFF then
      let valid := result <=? 99999999 in
      let result := sys_maxsize in
      if valid then Ok 0 else Ok result
    else Ok result.

Definition get_signal_quality (signal_strength_raw : Z) : string :=
  if signal_strength_raw =? 0 then "Unknown"
  else if 23 <? signal_strength_raw then "Excellent"
  else if 15 <? signal_strength_raw then "Good"
  else if 7 <? signal_strength_raw then "Low"
  else "Bad".

Definition format_geophone (value_u16 : Z) : string :=
  let typ := Z.land value_u16 0xC000 in
  let number := Z.land value_u16 0x3FFF in
  if typ =? 0x4000 then ("TDA" ++ format_0d 5 number)%string
  else if typ =? 0x8000 then ("TDS" ++ format_0d 5 number)%string
  else if typ =? 0xC000 then "???00000"%string
  else ("unknown" ++ format_0d 5 number)%string.

Definition datetime_valid (second minute hour day month year_yy : Z) : bool :=
  if (59 <? second) || (59 <? minute) || (23 <? hour) then false
  else if 99 <? year_yy then false
  else if (month <? 1) || (12 <? month) then false
  else
    let max_day :=
      if existsb (Z.eqb month) [1; 3; 5; 7; 8; 10; 12] then 31
      else if existsb (Z.eqb month) [4; 6; 9; 11] then 30
      else if Z.land year_yy 3 =? 0 then 29 else 28 in
    (1 <=? day) && (day <=? max_day).

(** [read_type <= 9 and record_size == 68 and ((1 << read_type) & 0x45) != 0]:
    [and] evaluates its right operand only when the left one is true. *)
Definition is_valid_to_process (record_size read_type : Z) : res bool :=
  if negb (read_type <=? 9) then Ok false
  else if negb (record_size =? 68) then Ok false
  else
    let! bit := lshift 1 read_type in
    Ok (negb (Z.land bit 0x45 =? 0)).

Definition get_peak_type_cat (peak_type : Z) : string :=
  if peak_type =? 0 then "vcatnone"
  else if peak_type =? 1 then "vcat1"
  else if peak_type =? 2 then "vcat2"
  else if peak_type =? 3 then "vcat3"
  else "vcat".

Definition get_overall_status (x y z : Z) : Z :=
  if (x =? sys_maxsize) || (y =? sys_maxsize) || (z =? sys_maxsize)
  then sys_maxsize
  else if negb (x =? 0) then x
  else if negb (y =? 0) then y
  else if negb (z =? 0) then z
  else 0.

Definition status_to_string (status : Z) : string :=
  if status =? -1 then "DISCONNECTED"
  else if status =? -2 then "DATA INVALID"
  else if status =? -3 then "NO DATA"
  else if status =? -4 then "NOT RESPONDING"
  else if status =? sys_maxsize then "OVERLOAD"
  else EmptyString.

Definition get_read_type_from_delta (delta : Z) : Z :=
  if delta =? 68 then 2 else 5.

(** ** Odd-tie formatter *)

Definition tie_eps : float := 1e-7%float.

(** The rounding step of [format_fixed_odd]: [fl] is [math.floor] of the
    scaled magnitude, [frac] what is left of it; the result is the float
    the code calls [rounded], before the sign is put back. *)
Definition round_odd (fl : Z) (flf frac : float) : float :=
  if PrimFloat.ltb (0.5 + tie_eps) frac then (flf + 1)%float
  else if PrimFloat.ltb frac (0.5 - tie_eps) then flf
  else if fl mod 2 =? 0 then (flf + 1)%float else flf.

Definition format_fixed_odd (value : float) (decimals : nat) : res string :=
  let! scale := pow10 decimals in
  let scaled := (value * scale)%float in
  let sign := if PrimFloat.leb 0 scaled then 1%float else (-1)%float in
  let abs_scaled := PrimFloat.abs scaled in
  let! fl := floor abs_scaled in
  let! flf := float_of_int fl in
  let frac := (abs_scaled - flf)%float in
  let rounded := round_odd fl flf frac in
  let rounded := (rounded * sign)%float in
  let! result := fdiv rounded scale in
  Ok (format_f result decimals).

(* ================================================================== *)
(** ** The reader object and record decoding *)
(* ================================================================== *)

(** The options a [VifReader] is built with. *)
Record options : Type := {
  print_header : bool;
  print_number : bool;
  filter_today : bool;
  long_format : bool;
  date_filter : option string
}.

(** The mutable part of a [VifReader] that record processing touches,
    together with the lines written to [out] so far (one per [out.write]). *)
Record reader : Type := {
  records_processed : Z;
  records_skipped : Z;
  record_counter : Z;
  out : list string
}.

Definition new_reader : reader :=
  {| records_processed := 0; records_skipped := 0; record_counter := 0;
     out := [] |}.

(** [self.records_skipped += 1; return] *)
Definition skip_record (rd : reader) : reader :=
  {| records_processed := records_processed rd;
     records_skipped := records_skipped rd + 1;
     record_counter := record_counter rd;
     out := out rd |}.

(** [self.records_processed += 1; self.record_counter += 1] *)
Definition count_record (rd : reader) : reader :=
  {| records_processed := records_processed rd + 1;
     records_skipped := records_skipped rd;
     record_counter := record_counter rd + 1;
     out := out rd |}.

(** [out.write(line)] *)
Definition write_line (rd : reader) (line : string) : reader :=
  {| records_processed := records_processed rd;
     records_skipped := records_skipped rd;
     record_counter := record_counter rd;
     out := out rd ++ [line] |}.

Record DirData : Type := {
  dd_v : string;
  dd_kb : string;
  dd_ft : string;
  dd_u : string;
  dd_a : string;
  dd_cv : string;
  dd_cf : string;
  dd_state : string
}.

(** The exits of [process_record] that count the record as skipped, in
    source order. *)
Inductive skip_exit : Set :=
| NotValidToProcess   (* [is_valid_to_process] said no *)
| BadRecordType       (* [(record_type & 0xFD) != 0x88] *)
| BadRecordSize       (* [record_size != RECORD_SIZE_EXPECTED] *)
| BadDateTime         (* [datetime_valid] said no *)
| NotToday            (* the [filter_today] filter *)
| NotTheDay.          (* the [date_filter] filter *)

(** Where the validation part of [process_record] leaves a record. *)
Inductive verdict : Type :=
| Skipped (why : skip_exit)
| Decode (record_type record_size : Z) (date_s time_s : string).

Section Decoder.

Variable self : options.

Definition decimals_or (short : nat) : nat :=
  if long_format self then 4%nat else short.

Definition format_float16 (value_u16 : Z) : res string :=
  let! int_val := sv_from_float16 (_to_i16 value_u16) in
  if is_special_value int_val || is_overload int_val then Ok EmptyString
  else
    let! x := float_of_int int_val in
    let! result := fdiv x FLOAT16_DIVISOR in
    format_fixed_odd result (decimals_or 2).

Definition format_int16 (value_i16 : Z) : res string :=
  if is_special_value value_i16 then Ok EmptyString
  else
    let! x := float_of_int value_i16 in
    let! result := fdiv x INT16_DIVISOR in
    format_fixed_odd result (decimals_or 1).

Definition axis_status (rec : list byte) (off : Z) : res Z :=
  let! r := u16_le rec off in
  let! s := sv_is_value_valid r in
  let! s := if s =? 0
            then let! r := u16_le rec (off + 6) in sv_is_value_valid r
            else Ok s in
  let! s := if s =? 0
            then let! r := u16_le rec (off + 8) in sv_is_value_valid r
            else Ok s in
  if s =? 0
  then let! r := u16_le rec (off + 10) in sv_is_value_valid r
  else Ok s.

Definition parse_direction (rec : list byte) (off : Z) (is_extended : bool)
    (status : Z) : res DirData :=
  if negb (status =? 0) then
    Ok {| dd_v := EmptyString; dd_kb := EmptyString; dd_ft := EmptyString;
          dd_u := EmptyString; dd_a := EmptyString; dd_cv := EmptyString;
          dd_cf := EmptyString; dd_state := status_to_string status |}
  else
    let! v_raw := u16_le rec off in
    let! kbzc_raw := i16_le rec (off + 2) in
    let! ft_raw := i16_le rec (off + 4) in
    let! u_raw := u16_le rec (off + 6) in
    let! a_raw := u16_le rec (off + 8) in
    let! cv_raw := u16_le rec (off + 10) in
    let! cf_raw := i16_le rec (off + 12) in
    let! v := format_float16 v_raw in
    let! kb :=
      if is_extended then
        (* KB mode *)
        let! int_val := sv_from_float16 kbzc_raw in
        let! root := sqrt_int int_val in
        let kb_val := (root * 0.01)%float in
        let kb_val := if PrimFloat.leb kb_val 0.1 then 0%float else kb_val in
        format_fixed_odd kb_val (decimals_or 2)
      else
        (* ZC mode *)
        if kbzc_raw <=? 0 then Ok EmptyString
        else
          let! d := float_of_int kbzc_raw in
          let! zc := fdiv 1024 d in
          format_fixed_odd zc (decimals_or 2) in
    let! ft := format_int16 ft_raw in
    let! u := format_float16 u_raw in
    let! a := format_float16 a_raw in
    let! cv := format_float16 cv_raw in
    let! cf := format_int16 cf_raw in
    Ok {| dd_v := v; dd_kb := kb; dd_ft := ft; dd_u := u; dd_a := a;
          dd_cv := cv; dd_cf := cf; dd_state := EmptyString |}.

Definition dir_fields (d : DirData) : list string :=
  [dd_state d; dd_v d; dd_kb d; dd_ft d; dd_u d; dd_a d; dd_cv d; dd_cf d].

(** [v] between two double quotes, the quote written by its character
    code. *)
Definition quoted (v : string) : string :=
  String (ascii_of_nat 34) (v ++ String (ascii_of_nat 34) EmptyString).

(** The line [out.write] receives: every field quoted, the fields joined
    by commas, a newline at the end. *)
Definition csv_line (fields : list string) : string :=
  (String.concat "," (map quoted fields)
   ++ String (ascii_of_nat 10) EmptyString)%string.

(** The second half of [process_record], from the counter column to the
    CSV line: everything after the record has been counted as processed. *)
Definition decode_record (rec : list byte) (record_type record_size : Z)
    (date_s time_s : string) : res string :=
  let is_extended := record_type =? 0x8A in
  let! counter :=
    if (0x43 <? record_size) && (67 <=? len rec) then
      let! b64 := getitem rec 64 in
      let! b65 := getitem rec 65 in
      let! b66 := getitem rec 66 in
      Ok (str (b64 + Z.shiftl (b65 + Z.shiftl b66 8) 8))
    else Ok EmptyString in
  let! x_status := axis_status rec 14 in
  let! y_status := axis_status rec 28 in
  let! z_status := axis_status rec 42 in
  let overall_status := get_overall_status x_status y_status z_status in
  let! x_data := parse_direction rec 14 is_extended x_status in
  let! y_data := parse_direction rec 28 is_extended y_status in
  let! z_data := parse_direction rec 42 is_extended z_status in
  let! b56 := getitem rec 56 in
  let! f56 := float_of_int b56 in
  let temperature := (f56 * 0.5 - 27.5)%float in
  let! b57 := getitem rec 57 in
  let! f57 := float_of_int b57 in
  let voltage := (f57 * 0.01 + 2.45)%float in
  let! b58 := getitem rec 58 in
  let memory_use := Z.land b58 0x7F in
  let usb_powered := Z.shiftr b58 7 in
  let! b59 := getitem rec 59 in
  let ss_raw := Z.land b59 0x1F in
  let signal_strength :=
    if negb (ss_raw =? 0) then str (2 * ss_raw - 113) else EmptyString in
  let signal_quality := get_signal_quality ss_raw in
  let transmitted := if Z.land b59 0x20 =? 0 then 0 else 1 in
  let all_transmitted := if Z.land b59 0x40 =? 0 then 0 else 1 in
  let! b60 := getitem rec 60 in
  let peak_type := Z.land b60 3 in
  let peak_type_cat := get_peak_type_cat peak_type in
  let code := if Z.land b60 4 =? 0 then "DIN"%string else "SBR"%string in
  let! error_code := getitem rec 61 in
  let! geophone_sn := u16_le rec 62 in
  let geophone := format_geophone geophone_sn in
  let clock_changed := Z.shiftr b60 6 in
  let overall_state := status_to_string overall_status in
  let! overall_v :=
    if negb (overall_status =? 0) then Ok EmptyString
    else let! r := u16_le rec 12 in format_float16 r in
  let! temp_s := format_fixed_odd temperature (decimals_or 1) in
  let! volt_s := format_fixed_odd voltage (decimals_or 2) in
  Ok (csv_line
        ([date_s; time_s]
         ++ (if print_number self then [counter] else [])
         ++ [overall_state; overall_v]
         ++ dir_fields x_data ++ dir_fields y_data ++ dir_fields z_data
         ++ [temp_s; volt_s; str memory_use; str usb_powered;
             signal_strength; signal_quality; str transmitted;
             str all_transmitted; peak_type_cat; code; str error_code;
             geophone; str clock_changed])).

(** [_dt.date.today()] is an input of the run: [(year, month, day)]. *)
Variable today : Z * Z * Z.

(** The first half of [process_record], up to the date filters: either one
    of its six [self.records_skipped += 1; return] exits is taken, or the
    record goes on to be decoded. *)
Definition examine_record (rec : list byte) (read_type : Z) : res verdict :=
  let! record_type := getitem rec 3 in
  let! record_size := u16_le rec 4 in
  let! valid := is_valid_to_process record_size read_type in
  if negb valid then Ok (Skipped NotValidToProcess)
  (* Validate record type and size (match original tool) *)
  else if negb (Z.land record_type 0xFD =? 0x88) then Ok (Skipped BadRecordType)
  else if negb (record_size =? RECORD_SIZE_EXPECTED)
  then Ok (Skipped BadRecordSize)
  else
    (* Datetime: [second][minute][hour][day][month][year] at offsets 6..11 *)
    let! second := getitem rec 6 in
    let! minute := getitem rec 7 in
    let! hour := getitem rec 8 in
    let! day := getitem rec 9 in
    let! month := getitem rec 10 in
    let! yy := getitem rec 11 in
    let year := 2000 + yy in
    if negb (datetime_valid second minute hour day month yy)
    then Ok (Skipped BadDateTime)
    else
      let date_s := (format_0d 4 year ++ "-" ++ format_0d 2 month
                     ++ "-" ++ format_0d 2 day)%string in
      let time_s := (format_0d 2 hour ++ ":" ++ format_0d 2 minute
                     ++ ":" ++ format_0d 2 second)%string in
      (* Filters *)
      if filter_today self then
        let '(ty, tm, td) := today in
        if negb ((year =? ty) && (month =? tm) && (day =? td))
        then Ok (Skipped NotToday)
        else Ok (Decode record_type record_size date_s time_s)
      else
        match date_filter self with
        | Some wanted =>
            if negb (String.eqb date_s wanted)
            then Ok (Skipped NotTheDay)
            else Ok (Decode record_type record_size date_s time_s)
        | None => Ok (Decode record_type record_size date_s time_s)
        end.

(** [process_record(rec, read_type, out)]: the reader afterwards, and the
    exception that left the method, if one did. *)
Definition process_record (rec : list byte) (read_type : Z) (rd : reader)
    : reader * option exn :=
  match examine_record rec read_type with
  | Raise e => (rd, Some e)
  | Ok (Skipped _) => (skip_record rd, None)
  | Ok (Decode record_type record_size date_s time_s) =>
      let rd := count_record rd in
      match decode_record rec record_type record_size date_s time_s with
      | Raise e => (rd, Some e)
      | Ok line => (write_line rd line, None)
      end
  end.

End Decoder.

(* ================================================================== *)
(** ** Stream scanner: [VifReader.process_records] *)
(* ================================================================== *)

(** [f.read(n)] on a binary file whose unread bytes are [f]: the bytes
    returned and the bytes left.  A negative [n] reads to the end. *)
Definition file_read (n : Z) (f : list byte) : list byte * list byte :=
  if n <? 0 then (f, [])
  else (firstn (Z.to_nat n) f, skipn (Z.to_nat n) f).

(** The variables [ensure_bytes] shares with the scanning loop.  The
    bytearray [window] is kept as its filled prefix [window[:window_len]]
    and its allocated length [len(window)]: every read of [window] in the
    source is below [window_len] (it follows a successful [ensure_bytes]),
    so the bytes past [window_len] are never observed. *)
Record scanner : Type := {
  f_rest : list byte;          (* the file object [f]: what is left to read *)
  window : list byte;          (* [window[:window_len]] *)
  window_size : Z;             (* [len(window)] *)
  scan_idx : Z;
  window_start_pos : Z
}.

Definition window_len (s : scanner) : Z := len (window s).

Definition set_scan_idx (s : scanner) (i : Z) : scanner :=
  {| f_rest := f_rest s; window := window s; window_size := window_size s;
     scan_idx := i; window_start_pos := window_start_pos s |}.

(** The compaction at the top of the [ensure_bytes] loop body. *)
Definition compact (s : scanner) : scanner :=
  if 0 <? scan_idx s then
    {| f_rest := f_rest s;
       window := skipn (Z.to_nat (scan_idx s)) (window s);
       window_size := window_size s;
       scan_idx := 0;
       window_start_pos := window_start_pos s + scan_idx s |}
  else s.

(** [while new_size < required_index: new_size *= 2] *)
Fixpoint double_until (fuel : nat) (new_size required_index : Z) : option Z :=
  if new_size <? required_index then
    match fuel with
    | O => None
    | S fuel' => double_until fuel' (new_size * 2) required_index
    end
  else Some new_size.

(** The reallocation of a full window. *)
Definition grow (required_index : Z) (s : scanner) : option scanner :=
  if window_len s =? window_size s then
    match double_until (Z.to_nat (Z.log2_up required_index))
                       (window_size s * 2) required_index with
    | None => None
    | Some new_size =>
        Some {| f_rest := f_rest s; window := window s;
                window_size := new_size; scan_idx := scan_idx s;
                window_start_pos := window_start_pos s |}
    end
  else Some s.

(** The loop of [ensure_bytes]; [None] only when [fuel] runs out. *)
Fixpoint ensure_bytes_loop (fuel : nat) (required_index : Z) (s : scanner)
    : option (bool * scanner) :=
  if window_len s <? required_index then
    match fuel with
    | O => None
    | S fuel' =>
        match grow required_index (compact s) with
        | None => None
        | Some s =>
            let '(chunk, rest) :=
              file_read (window_size s - window_len s) (f_rest s) in
            match chunk with
            | [] =>
                Some (false,
                      {| f_rest := rest; window := window s;
                         window_size := window_size s; scan_idx := scan_idx s;
                         window_start_pos := window_start_pos s |})
            | _ :: _ =>
                ensure_bytes_loop fuel' required_index
                  {| f_rest := rest; window := window s ++ chunk;
                     window_size := window_size s; scan_idx := scan_idx s;
                     window_start_pos := window_start_pos s |}
            end
        end
    end
  else Some (true, s).

(** [ensure_bytes(required_index)]: every turn of its loop that does not
    return reads at least one byte, so one turn per unread byte, and one
    more, is enough. *)
Definition ensure_bytes (required_index : Z) (s : scanner)
    : option (bool * scanner) :=
  ensure_bytes_loop (S (List.length (f_rest s))) required_index s.

Definition is_marker (b0 b1 b2 : byte) : bool :=
  (ord b0 =? 86) && (ord b1 =? 73) && (ord b2 =? 66).

(** The marker search [while i + 2 < window_len: ...; i += 1] over the
    bytes [w = window[i:window_len]]: the index it stops at. *)
Fixpoint find_marker (w : list byte) (i : Z) : Z :=
  match w with
  | b0 :: ((b1 :: b2 :: _) as tl) =>
      if is_marker b0 b1 b2 then i else find_marker tl (i + 1)
  | _ => i
  end.

(** [window[k]] for an index below [window_len]. *)
Definition window_at (s : scanner) (k : Z) : Z :=
  ord (nth (Z.to_nat k) (window s) Byte.x00).

(** [last_record[:copy_len] = src] followed by the zero fill of
    [last_record[copy_len:]]. *)
Definition store_candidate (last_record src : list byte) (copy_len : Z)
    : list byte :=
  let lr := src ++ skipn (Z.to_nat copy_len) last_record in
  if copy_len <? len lr
  then firstn (Z.to_nat copy_len) lr
       ++ repeat Byte.x00 (Z.to_nat (len lr - copy_len))
  else lr.

(** [advance = MIN_RECORD_BYTES if record_size < MIN_RECORD_BYTES else
    record_size] *)
Definition advance_of (record_size : Z) : Z :=
  if record_size <? MIN_RECORD_BYTES then MIN_RECORD_BYTES else record_size.

(** What the loop body learns from the window before it touches a record. *)
Inductive probe : Type :=
| Exhausted (s : scanner)               (* an [ensure_bytes] failed: [break] *)
| NoMarker (s : scanner)                (* [scan_idx = i; continue] *)
| Candidate (s : scanner) (i advance : Z).

(** The loop body of [process_records] up to and including its third
    [ensure_bytes]; [None] only when an [ensure_bytes] runs out of fuel. *)
Definition probe_window (s : scanner) : option probe :=
  match ensure_bytes (scan_idx s + 3) s with
  | None => None
  | Some (false, s) => Some (Exhausted s)
  | Some (true, s) =>
      let i := find_marker (skipn (Z.to_nat (scan_idx s)) (window s))
                           (scan_idx s) in
      if window_len s <=? i + 2 then Some (NoMarker (set_scan_idx s i))
      else
        match ensure_bytes (i + MIN_RECORD_BYTES) s with
        | None => None
        | Some (false, s) => Some (Exhausted s)
        | Some (true, s) =>
            let record_size :=
              Z.lor (window_at s (i + 4)) (Z.shiftl (window_at s (i + 5)) 8) in
            let advance := advance_of record_size in
            match ensure_bytes (i + advance) s with
            | None => None
            | Some (false, s) => Some (Exhausted s)
            | Some (true, s) => Some (Candidate s i advance)
            end
        end
  end.

Section Scanner.

(** The scanner hands each candidate to [self.process_record]; the scan
    itself never looks at what that call does, so it is a parameter here:
    [emit rec read_type c] is the call on the state [c] it acts on. *)
Variable St : Type.
Variable emit : list byte -> Z -> St -> St * option exn.

(** The local variables of [process_records].  [found] is a history
    variable: the candidates in the order the loop stored them, each with
    its [record_start_pos]; the code keeps only their number. *)
Record scan_state : Type := {
  sc : scanner;
  record_count : Z;
  last_record : option (list byte);
  last_record_pos : Z;
  client : St;
  found : list (Z * list byte)
}.

Definition with_scanner (st : scan_state) (s : scanner) : scan_state :=
  {| sc := s; record_count := record_count st;
     last_record := last_record st; last_record_pos := last_record_pos st;
     client := client st; found := found st |}.

Definition with_client (st : scan_state) (c : St) : scan_state :=
  {| sc := sc st; record_count := record_count st;
     last_record := last_record st; last_record_pos := last_record_pos st;
     client := c; found := found st |}.

(** How one turn of the [while True] loop ends. *)
Inductive control : Type :=
| Continue (st : scan_state)
| Break (st : scan_state)
| Abort (st : scan_state) (e : exn).

(** The part of the loop body after the third [ensure_bytes]. *)
Definition accept_candidate (st : scan_state) (s : scanner) (i advance : Z)
    : control :=
  let record_start_pos := window_start_pos s + i in
  let record_count := record_count st + 1 in
  let '(c, raised) :=
    match last_record st with
    | Some lr =>
        if 0 <=? last_record_pos st then
          emit lr (get_read_type_from_delta
                     (record_start_pos - last_record_pos st)) (client st)
        else (client st, None)
    | None => (client st, None)
    end in
  match raised with
  | Some e => Abort (with_client (with_scanner st s) c) e
  | None =>
      let lr :=
        match last_record st with
        | Some lr => lr
        | None => repeat Byte.x00 (Z.to_nat RECORD_BUFFER_SIZE)
        end in
      let copy_len := Z.min advance (len lr) in
      let src := firstn (Z.to_nat copy_len) (skipn (Z.to_nat i) (window s)) in
      let lr := store_candidate lr src copy_len in
      Continue
        {| sc := set_scan_idx s (i + advance);
           record_count := record_count;
           last_record := Some lr;
           last_record_pos := record_start_pos;
           client := c;
           found := found st ++ [(record_start_pos, lr)] |}
  end.

(** One turn of the [while True] loop. *)
Definition scan_step (st : scan_state) : option control :=
  match probe_window (sc st) with
  | None => None
  | Some (Exhausted s) => Some (Break (with_scanner st s))
  | Some (NoMarker s) => Some (Continue (with_scanner st s))
  | Some (Candidate s i advance) => Some (accept_candidate st s i advance)
  end.

(** The [while True] loop; [None] only when [fuel] runs out. *)
Fixpoint scan_loop (fuel : nat) (st : scan_state)
    : option (scan_state * option exn) :=
  match fuel with
  | O => None
  | S fuel' =>
      match scan_step st with
      | None => None
      | Some (Continue st') => scan_loop fuel' st'
      | Some (Break st') => Some (st', None)
      | Some (Abort st' e) => Some (st', Some e)
      end
  end.

(** The flush after the loop: [if last_record is not None: ...]. *)
Definition flush (st : scan_state) : scan_state * option exn :=
  match last_record st with
  | Some lr =>
      let '(c, raised) := emit lr 2 (client st) in (with_client st c, raised)
  | None => (st, None)
  end.

Definition initial_state (window_size0 : Z) (f : list byte) (c : St)
    : scan_state :=
  {| sc := {| f_rest := f; window := []; window_size := window_size0;
              scan_idx := 0; window_start_pos := 0 |};
     record_count := 0;
     last_record := None;
     last_record_pos := -1;
     client := c;
     found := [] |}.

(** [process_records] on a window allocated with [window_size0] bytes.
    Every turn of the loop that continues moves the scan cursor forward,
    so one turn per byte of the file, and one more, is enough. *)
Definition process_records_from (window_size0 : Z) (f : list byte) (c : St)
    : option (scan_state * option exn) :=
  match scan_loop (S (List.length f)) (initial_state window_size0 f c) with
  | None => None
  | Some (st, Some e) => Some (st, Some e)
  | Some (st, None) => Some (flush st)
  end.

(** [process_records(f, out)]: [window = bytearray(SCAN_CHUNK_SIZE * 2)]. *)
Definition process_records (f : list byte) (c : St)
    : option (scan_state * option exn) :=
  process_records_from (SCAN_CHUNK_SIZE * 2) f c.

End Scanner.

Arguments sc {St} _.
Arguments record_count {St} _.
Arguments last_record {St} _.
Arguments last_record_pos {St} _.
Arguments client {St} _.
Arguments found {St} _.
Arguments Continue {St} _.
Arguments Break {St} _.
Arguments Abort {St} _ _.

(** The reader run on a file: [process_records] with [process_record] as
    the call that receives each candidate. *)
Definition run_reader (self : options) (today : Z * Z * Z) (f : list byte)
    : option (scan_state reader * option exn) :=
  process_records reader (process_record self today) f new_reader.

(** The scanner alone: the candidates it hands over, with their read
    types, in order. *)
Definition log_candidate (rec : list byte) (read_type : Z)
    (log : list (list byte * Z)) : list (list byte * Z) * option exn :=
  (log ++ [(rec, read_type)], None).

Definition scan_trace (f : list byte)
    : option (scan_state (list (list byte * Z)) * option exn) :=
  process_records _ log_candidate f [].

(* ================================================================== *)
(** ** The date option: module-level helpers *)
(* ================================================================== *)

Definition validate_date_string (s : string) : bool :=
  if String.eqb s EmptyString then false
  else if (String.length s =? 8)%nat then  (* YY-MM-DD *)
    char_is s 2 "-" && char_is s 5 "-" && isdigit (slice s 0 2)
    && isdigit (slice s 3 5) && isdigit (slice s 6 8)
  else if (String.length s =? 10)%nat then  (* YYYY-MM-DD *)
    char_is s 4 "-" && char_is s 7 "-" && isdigit (slice s 0 4)
    && isdigit (slice s 5 7) && isdigit (slice s 8 10)
  else false.

(** Convert YY-MM-DD to YYYY-MM-DD (2000+YY).  The argument has passed
    [validate_date_string], which is what [int_of_digits] relies on. *)
Definition normalize_date_string (s : string) : res string :=
  if (String.length s =? 8)%nat then
    let! yy := int_of_digits (slice s 0 2) in
    Ok (format_0d 4 (2000 + yy) ++ "-" ++ slice_from s 3)%string
  else Ok s.

(* ================================================================== *)
(** ** Header building *)
(* ================================================================== *)

(** One quoted column label followed by its comma. *)
Definition cell (v : string) : string := (quoted v ++ ",")%string.

(** [direction_header(axis)]; [is_kb_mode] is the attribute of the reader
    that [process_vif_file] sets before the headers are written. *)
Definition direction_header (is_kb_mode : bool) (axis : string) : string :=
  String.concat EmptyString
    [ cell ("state(" ++ axis ++ ")");
      cell ("v(" ++ axis ++ ")");
      (if is_kb_mode then cell ("kb(" ++ axis ++ ")")
       else cell ("f_zc(" ++ axis ++ ")"));
      cell ("f_ft(" ++ axis ++ ")");
      cell ("u(" ++ axis ++ ")");
      cell ("a(" ++ axis ++ ")");
      cell ("v_cat(" ++ axis ++ ")");
      cell ("f_cat(" ++ axis ++ ")") ]%string.

Definition direction_unit : string :=
  (cell EmptyString ++ cell "mm/s" ++ cell "Hz" ++ cell "Hz" ++ cell "mm"
   ++ cell "m/s2" ++ cell "mm/s" ++ cell "Hz")%string.

Definition header_names (self : options) (is_kb_mode : bool) : string :=
  rstrip ","
    (String.concat EmptyString
       ([ (cell "date" ++ cell "time")%string ]
        ++ (if print_number self then [cell "counter"] else [])
        ++ [ (cell "state" ++ cell "|v|")%string;
             direction_header is_kb_mode "x";
             direction_header is_kb_mode "y";
             direction_header is_kb_mode "z";
             (cell "temperature" ++ cell "battery" ++ cell "memory use"
              ++ cell "usb powered")%string;
             (cell "signal strength" ++ cell "signal quality"
              ++ cell "transmitted" ++ cell "all transmitted")%string;
             (cell "peak type" ++ cell "code" ++ cell "error code"
              ++ cell "geophone" ++ cell "clock changed")%string ])).

(** The degree sign of the temperature unit is the code point 176. *)
Definition degrees_celsius : string := String (ascii_of_nat 176) "C".

Definition header_units (self : options) : string :=
  rstrip ","
    (String.concat EmptyString
       ([ (cell "YYYY-MM-DD" ++ cell "hh:mm:ss")%string ]
        ++ (if print_number self then [cell "count"] else [])
        ++ [ (cell EmptyString ++ cell "mm/s")%string;
             direction_unit;
             direction_unit;
             direction_unit;
             (cell degrees_celsius ++ cell "V" ++ cell "%"
              ++ cell EmptyString)%string;
             (cell "dBm" ++ cell EmptyString ++ cell EmptyString
              ++ cell EmptyString)%string;
             (cell EmptyString ++ cell EmptyString ++ cell EmptyString
              ++ cell EmptyString ++ cell EmptyString)%string ])).

(* ================================================================== *)
(** ** KB mode detection: [VifReader.detect_kb_mode] *)
(* ================================================================== *)

(** [buf[k]] for an index inside the bytearray. *)
Definition bytearray_at (buf : list byte) (k : nat) : Z :=
  ord (nth k buf Byte.x00).

(** The [while True] loop of [detect_kb_mode] on the unread bytes [f] of
    the file; [None] only when [fuel] runs out.  [f.seek(n, io.SEEK_CUR)]
    with a positive [n] moves past [n] bytes, or past the end, where every
    later read returns nothing. *)
Fixpoint detect_kb_loop (fuel : nat) (f : list byte) (state : Z)
    (buf : list byte) : option bool :=
  match fuel with
  | O => None
  | S fuel' =>
      let '(b, f) := file_read 1 f in
      match b with
      | [] => Some false
      | b0 :: _ =>
          if (state =? 0) && (ord b0 =? 86) then
            detect_kb_loop fuel' f 1 (setitem buf 0 b0)
          else if (state =? 1) && (ord b0 =? 73) then
            detect_kb_loop fuel' f 2 (setitem buf 1 b0)
          else if (state =? 2) && (ord b0 =? 66) then
            let buf := setitem buf 2 b0 in
            let '(tail, f) := file_read 9 f in
            if negb (len tail =? 9) then Some false
            else
              let buf := setslice buf 3 12 tail in
              let record_type := bytearray_at buf 3 in
              if record_type =? 0x8A then Some true
              else
                let record_size :=
                  Z.lor (bytearray_at buf 4)
                        (Z.shiftl (bytearray_at buf 5) 8) in
                let remaining := record_size - 12 in
                let f := if 0 <? remaining
                         then skipn (Z.to_nat remaining) f else f in
                detect_kb_loop fuel' f 0 buf
          else detect_kb_loop fuel' f 0 buf
      end
  end.

(** [detect_kb_mode(f)]: every turn of the loop that goes on has read a
    byte, so one turn per byte of the file, and one more, is enough. *)
Definition detect_kb_mode (f : list byte) : option bool :=
  detect_kb_loop (S (List.length f)) f 0 (repeat Byte.x00 70).

(* ================================================================== *)
(** ** Public entry: [VifReader.process_vif_file] *)
(* ================================================================== *)

(** What one call of [process_vif_file] leaves behind. *)
Record file_run : Type := {
  is_kb_mode : bool;
  final : reader;
  total_records : Z;
  raised : option exn
}.

(** [process_vif_file(filename, output_file)] on the bytes [f] of the file
    [filename]: the first pass sets [is_kb_mode], the header lines are
    written when asked for, the second pass reads the file again from its
    start.  Opening and closing the two files is left out; [out] in
    [final] is everything written to the output. *)
Definition process_vif_file (self : options) (today : Z * Z * Z)
    (f : list byte) : option file_run :=
  match detect_kb_mode f with
  | None => None
  | Some kb =>
      let rd := new_reader in
      let rd :=
        if print_header self then
          write_line
            (write_line rd (header_names self kb
                            ++ String (ascii_of_nat 10) EmptyString))
            (header_units self ++ String (ascii_of_nat 10) EmptyString)
        else rd in
      match process_records reader (process_record self today) f rd with
      | None => None
      | Some (st, e) =>
          Some {| is_kb_mode := kb; final := client st;
                  total_records := record_count st; raised := e |}
      end
  end.

(* ================================================================== *)
(** ** The command line: [main] *)
(* ================================================================== *)

(** What [parser.parse_args(argv)] returns: the attributes of [args]. *)
Record cli_args : Type := {
  args_files : list string;
  args_header : bool;
  args_version : bool;
  args_n : bool;
  args_N : bool;
  args_today : bool;
  args_long : bool;
  args_day : option string
}.

(** What reaches the standard output: a text written by [print] or by
    [out.write], or the usage text of [parser.print_help()], which is the
    parser's own. *)
Inductive printed : Type :=
| Text (s : string)
| Help.

(** How [main] ends: it returns its exit status, or an exception leaves
    it. *)
Inductive ending : Type :=
| Returned (status : Z)
| Failed (e : exn).

(** The loop [for fn in args.files] of [main].  [files_on_disk fn] is the
    content of the file [fn] when [os.path.exists(fn)] holds and the file
    can be read; [stdout] is what has been written so far. *)
Fixpoint process_files (files_on_disk : string -> option (list byte))
    (today : Z * Z * Z) (option_header option_number option_today
     option_long : bool) (date_filter : option string)
    (files : list string) (first : bool) (stdout : list printed)
    : option (ending * list printed) :=
  match files with
  | [] => Some (Returned 0, stdout)
  | fn :: files' =>
      match files_on_disk fn with
      | None =>
          process_files files_on_disk today option_header option_number
            option_today option_long date_filter files' first stdout
      | Some f =>
          let rdr :=
            {| print_header := option_header && first;
               print_number := option_number;
               filter_today := option_today;
               long_format := option_long;
               date_filter := date_filter |} in
          match process_vif_file rdr today f with
          | None => None
          | Some run =>
              let stdout := stdout ++ map Text (out (final run)) in
              match raised run with
              | Some e => Some (Failed e, stdout)
              | None =>
                  process_files files_on_disk today option_header
                    option_number option_today option_long date_filter
                    files' false stdout
              end
          end
      end
  end.

(** [main(argv)] from the parsed arguments on.  The messages for the
    standard error stream are left out. *)
Definition main (files_on_disk : string -> option (list byte))
    (today : Z * Z * Z) (args : cli_args) : option (ending * list printed) :=
  if args_version args then
    Some (Returned 0,
          [Text ("(c) Copyright 2019-2025" ++ String (ascii_of_nat 10) EmptyString);
           Text ("Profound VIF2CSV 1.10" ++ String (ascii_of_nat 10) EmptyString)])
  else
    match args_files args with
    | [] => Some (Returned 1, [Help])
    | _ :: _ =>
        (* defaults like C#: *)
        let option_header := args_header args in
        let option_today := args_today args in
        let option_long := args_long args in
        (* default number ON unless -N; -n forces it on *)
        let option_number := true in
        let option_number := if args_N args then false else option_number in
        let option_number := if args_n args then true else option_number in
        let run date_filter :=
          process_files files_on_disk today option_header option_number
            option_today option_long date_filter (args_files args) true [] in
        match args_day args with
        | None => run None
        | Some day =>
            if negb (validate_date_string day) then Some (Returned 2, [Help])
            else
              match normalize_date_string day with
              | Raise e => Some (Failed e, [])
              | Ok date_filter => run (Some date_filter)
              end
        end
    end.

(* ================================================================== *)
(** ** Vocabulary of the properties and sample data *)
(* ================================================================== *)

(** Byte [k] of a buffer, as a number. *)
Definition byte_at (rec : list byte) (k : nat) : Z := ord (nth k rec Byte.x00).

(** The header fields of a candidate, read the way the format defines
    them: the type byte at offset 3, the size at offsets 4 and 5 (low byte
    first). *)
Definition type_byte (rec : list byte) : Z := byte_at rec 3.

Definition declared_size (rec : list byte) : Z :=
  byte_at rec 4 + 256 * byte_at rec 5.

(** A candidate passes the structural checks of the validator. *)
Definition structurally_accepted (rec : list byte) (read_type : Z) : Prop :=
  len rec = RECORD_BUFFER_SIZE /\
  In read_type [0; 2; 6] /\
  declared_size rec = 68 /\
  Z.land (type_byte rec) 0xFD = 0x88.

(** The calendar rule in the words of the specification. *)
Definition days_in_month (month yy : Z) : Z :=
  if month =? 2 then (if yy mod 4 =? 0 then 29 else 28)
  else if (month =? 4) || (month =? 6) || (month =? 9) || (month =? 11)
  then 30 else 31.

Definition calendar_ok (second minute hour day month yy : Z) : Prop :=
  second <= 59 /\ minute <= 59 /\ hour <= 23 /\ yy <= 99 /\
  1 <= month <= 12 /\ 1 <= day <= days_in_month month yy.

(** The six date and time bytes of a candidate satisfy the calendar rule. *)
Definition calendar_ok_rec (rec : list byte) : Prop :=
  calendar_ok (byte_at rec 6) (byte_at rec 7) (byte_at rec 8)
              (byte_at rec 9) (byte_at rec 10) (byte_at rec 11).

(** [year, month, day] as the record states them. *)
Definition record_date (rec : list byte) : Z * Z * Z :=
  (2000 + byte_at rec 11, byte_at rec 10, byte_at rec 9).

(** The geophone rendering in the words of the specification: a tag chosen
    by the top two of the sixteen bits, then the low fourteen bits as five
    decimal digits. *)
Definition digit (n : Z) : ascii := ascii_of_N (48 + Z.to_N (n mod 10)).

Definition five_digits (n : Z) : string :=
  String (digit (n / 10000)) (String (digit (n / 1000))
    (String (digit (n / 100)) (String (digit (n / 10))
      (String (digit n) EmptyString)))).

Definition geophone_spec (id : Z) : string :=
  let number := id mod 16384 in
  match id / 16384 with
  | 1 => ("TDA" ++ five_digits number)%string
  | 2 => ("TDS" ++ five_digits number)%string
  | 3 => "???00000"%string
  | _ => ("unknown" ++ five_digits number)%string
  end.

(** The emissions a one-behind scanner owes for the candidates it found,
    each candidate given with its start offset: every candidate but the
    last gets its read type from the distance to the next one, the last
    gets read type 2. *)
Fixpoint one_behind (cands : list (Z * list byte)) : list (list byte * Z) :=
  match cands with
  | [] => []
  | (pos, buf) :: rest =>
      match rest with
      | [] => [(buf, 2)]
      | (next, _) :: _ =>
          (buf, if next - pos =? 68 then 2 else 5) :: one_behind rest
      end
  end.

(** The calls of [emit] on a list of candidates, stopping at the first
    one that raises. *)
Fixpoint replay {St : Type} (emit : list byte -> Z -> St -> St * option exn)
    (calls : list (list byte * Z)) (c : St) : St * option exn :=
  match calls with
  | [] => (c, None)
  | (rec, read_type) :: rest =>
      match emit rec read_type c with
      | (c', None) => replay emit rest c'
      | (c', Some e) => (c', Some e)
      end
  end.

(** The three marker bytes occur somewhere in [l], next to each other. *)
Fixpoint has_marker (l : list byte) : bool :=
  match l with
  | b0 :: ((b1 :: b2 :: _) as tl) => is_marker b0 b1 b2 || has_marker tl
  | _ => false
  end.

(** A 68-byte record as the scanner needs it: the marker, then any type
    byte, then the size 68 in two bytes. *)
Definition framed_record (r : list byte) : Prop :=
  exists ty body,
    r = [Byte.x56; Byte.x49; Byte.x42; ty; Byte.x44; Byte.x00] ++ body /\
    length body = 62%nat.


(** The 70-byte holding buffer of a 68-byte record. *)
Definition held (r : list byte) : list byte := r ++ [Byte.x00; Byte.x00].

(** Sample data: a 12-byte header dated 2024-03-15 14:30:00. *)
Definition sample_header (ty size : Z) : list byte :=
  map chr [86; 73; 66; ty; size; 0; 0; 30; 14; 15; 3; 24].

(** One axis block whose seven fields all hold [0x0800]. *)
Definition sample_axis : list byte :=
  map chr [0; 8; 0; 8; 0; 8; 0; 8; 0; 8; 0; 8; 0; 8].

(** A record of type [0x88] that decodes without a fault. *)
Definition sample_record : list byte :=
  sample_header 0x88 68 ++ map chr [0; 8]
  ++ sample_axis ++ sample_axis ++ sample_axis
  ++ map chr [95; 120; 0x85; 0x2A; 0x45; 3; 5; 0x40; 1; 2; 3; 0].

(** A well-formed record whose payload is all zero. *)
Definition zero_payload_record : list byte :=
  sample_header 0x88 68 ++ repeat Byte.x00 56.

Definition plain_options : options :=
  {| print_header := false; print_number := true; filter_today := false;
     long_format := false; date_filter := None |}.

Definition with_filters (o : options) (only_today : bool)
    (day : option string) : options :=
  {| print_header := print_header o; print_number := print_number o;
     filter_today := only_today; long_format := long_format o;
     date_filter := day |}.

(** Checking a decidable property on every integer of a range. *)
Fixpoint all_from (p : Z -> bool) (start : Z) (n : nat) : bool :=
  match n with
  | O => true
  | S n' => p start && all_from p (start + 1) n'
  end.

Definition geophone_agrees (id : Z) : bool :=
  String.eqb (format_geophone id) (geophone_spec id).

(** The decode in the words of the specification, with the exponent
    field [e] read arithmetically. *)
Definition float16_exponent (raw : Z) : Z := (raw mod 65536) / 2048 - 1.

Definition float16_mantissa (raw : Z) : Z := raw mod 2048 + 2048.

Definition res_Z_eqb (a b : res Z) : bool :=
  match a, b with
  | Ok x, Ok y => x =? y
  | Raise ValueError, Raise ValueError => true
  | Raise IndexError, Raise IndexError => true
  | Raise OverflowError, Raise OverflowError => true
  | Raise ZeroDivisionError, Raise ZeroDivisionError => true
  | _, _ => false
  end.

Definition float16_by_cases (raw : Z) : res Z :=
  let e := float16_exponent raw in
  if e <? 0 then Raise ValueError
  else if e <=? 0x13 then Ok (float16_mantissa raw * 2 ^ e)
  else Ok raw.

Definition float16_agrees (raw : Z) : bool :=
  res_Z_eqb (sv_from_float16 raw) (float16_by_cases raw).

(** The filter stage of [process_record], on the date of the record. *)
Definition filter_stage (self : options) (today : Z * Z * Z)
    (rec : list byte) : verdict :=
  let '(year, month, day) := record_date rec in
  let date_s := (format_0d 4 year ++ "-" ++ format_0d 2 month
                 ++ "-" ++ format_0d 2 day)%string in
  let time_s := (format_0d 2 (byte_at rec 8) ++ ":"
                 ++ format_0d 2 (byte_at rec 7) ++ ":"
                 ++ format_0d 2 (byte_at rec 6))%string in
  let keep := Decode (type_byte rec) (declared_size rec) date_s time_s in
  if filter_today self then
    let '(ty, tm, td) := today in
    if (year =? ty) && (month =? tm) && (day =? td)
    then keep else Skipped NotToday
  else
    match date_filter self with
    | Some wanted =>
        if String.eqb date_s wanted then keep else Skipped NotTheDay
    | None => keep
    end.

(** [f"{year:04d}-{month:02d}-{day:02d}"] *)
Definition iso_date (date : Z * Z * Z) : string :=
  let '(year, month, day) := date in
  (format_0d 4 year ++ "-" ++ format_0d 2 month ++ "-" ++ format_0d 2 day)%string.

(** Sample data: an axis block whose second field (the KB/ZC metric) is
    [0xA800], and an extended record (type [0x8A]) that carries it. *)
Definition kb_axis : list byte :=
  map chr [0; 8; 0; 0xA8; 0; 8; 0; 8; 0; 8; 0; 8; 0; 8].

Definition kb_record : list byte :=
  sample_header 0x8A 68 ++ map chr [0; 8]
  ++ kb_axis ++ sample_axis ++ sample_axis
  ++ map chr [95; 120; 0x85; 0x2A; 0x45; 3; 5; 0x40; 1; 2; 3; 0].

Definition sample_day : Z * Z * Z := (2024, 3, 15).

(** The indices of a scanner are consistent: the cursor is inside the
    filled part of the window, which fits in the allocation. *)
Definition wf_scanner (s : scanner) : Prop :=
  0 <= scan_idx s <= window_len s /\
  window_len s <= window_size s /\
  0 < window_size s /\
  0 <= window_start_pos s.

(** The bytes the cursor has not passed yet: the unread part of the file
    and the part of the window at and after [scan_idx]. *)
Definition unscanned (s : scanner) : Z :=
  len (f_rest s) + window_len s - scan_idx s.

(** What a probe of the window guarantees: it returns, and either the
    cursor moved forward or a candidate was found that ends inside the
    window, at least twelve bytes after it starts. *)
Definition probe_ok (s : scanner) (p : probe) : Prop :=
  match p with
  | Exhausted s' => wf_scanner s'
  | NoMarker s' => wf_scanner s' /\ unscanned s' < unscanned s
  | Candidate s' i advance =>
      wf_scanner s' /\ unscanned s' = unscanned s /\
      scan_idx s' <= i /\ 0 <= i /\ 12 <= advance /\
      i + advance <= window_len s'
  end.

(** The emissions owed for all candidates but the last. *)
Fixpoint classified (cands : list (Z * list byte)) : list (list byte * Z) :=
  match cands with
  | (pos, buf) :: rest =>
      match rest with
      | (next, _) :: _ =>
          (buf, if next - pos =? 68 then 2 else 5) :: classified rest
      | [] => []
      end
  | [] => []
  end.

(** What the loop keeps true when the candidates are merely logged: the
    counter is the number of candidates found, the log holds the
    emissions owed for all of them but the last, and the last one is the
    pending record, with its offset. *)
Definition pending_ok (st : scan_state (list (list byte * Z))) : Prop :=
  match last_record st with
  | None => found st = []
  | Some lr =>
      0 <= last_record_pos st /\
      exists init, found st = init ++ [(last_record_pos st, lr)]
  end.

Definition trace_ok (st : scan_state (list (list byte * Z))) : Prop :=
  wf_scanner (sc st) /\
  record_count st = len (found st) /\
  client st = classified (found st) /\
  pending_ok st.

(** The logging run and the real run are in step: same scanner, same
    pending record, and the real client is the replay of the log. *)
Definition in_step {St : Type}
    (emit : list byte -> Z -> St -> St * option exn) (c0 : St)
    (tr : scan_state (list (list byte * Z))) (st : scan_state St) : Prop :=
  sc tr = sc st /\
  record_count tr = record_count st /\
  last_record tr = last_record st /\
  last_record_pos tr = last_record_pos st /\
  found tr = found st /\
  replay emit (client tr) c0 = (client st, None).

(** What the scanner hands to the validator is well formed: every buffer
    has 70 bytes and every read type is 2 or 5. *)
Definition well_formed_emission (call : list byte * Z) : Prop :=
  len (fst call) = RECORD_BUFFER_SIZE /\ (snd call = 2 \/ snd call = 5).

Definition emissions_ok (st : scan_state (list (list byte * Z))) : Prop :=
  wf_scanner (sc st) /\
  match last_record st with
  | Some lr => len lr = RECORD_BUFFER_SIZE
  | None => True
  end /\
  Forall well_formed_emission (client st).

(** A scanner whose window holds the whole file [f], nothing left to
    read, the cursor at [i]. *)
Definition loaded (window_size0 : Z) (f : list byte) (i : Z) : scanner :=
  {| f_rest := []; window := f; window_size := window_size0;
     scan_idx := i; window_start_pos := 0 |}.

(** *** Exact decimal arithmetic, to compare the float formatter with *)

(** [n / d] rounded to the nearest integer, ties to the odd neighbour
    ([0 <= n], [0 < d]). *)
Definition div_half_odd (n d : Z) : Z :=
  let q := n / d in
  let r := n mod d in
  if 2 * r <? d then q
  else if d <? 2 * r then q + 1
  else if Z.odd q then q else q + 1.

(** The fraction [num / den] written with [d] decimals, computed on
    integers only: the magnitude is rounded to the nearest multiple of
    [10^-d], ties to the odd one, and a negative fraction keeps its sign
    even when it rounds to zero. *)
Definition exact_fixed (num den : Z) (d : nat) : string :=
  let q := div_half_odd (Z.abs num * 10 ^ Z.of_nat d) den in
  if num <? 0 then ("-" ++ fixed_digits q d)%string else fixed_digits q d.

(** The integer nearest to the square root of [n]. *)
Definition sqrt_nearest (n : Z) : Z :=
  let s := Z.sqrt n in if n <=? s * s + s then s else s + 1.

(** The square root of [n] hundredths-of-a-unit squared, written with [d]
    decimals ([d] is 2 or 4); nothing at or below one tenth is shown. *)
Definition exact_kb (n : Z) (d : nat) : string :=
  if n <=? 100 then fixed_digits 0 d
  else fixed_digits (sqrt_nearest (n * 10 ^ (2 * (Z.of_nat d - 2)))) d.

Definition res_string_eqb (a : res string) (b : res string) : bool :=
  match a, b with
  | Ok s, Ok t => String.eqb s t
  | Raise ValueError, Raise ValueError => true
  | Raise IndexError, Raise IndexError => true
  | Raise OverflowError, Raise OverflowError => true
  | Raise ZeroDivisionError, Raise ZeroDivisionError => true
  | _, _ => false
  end.

(** Options that differ from the plain ones in the precision only. *)
Definition with_precision (long : bool) : options :=
  {| print_header := false; print_number := true; filter_today := false;
     long_format := long; date_filter := None |}.

(** What [format_int16] should print, in exact arithmetic: half units. *)
Definition int16_exact (self : options) (value_i16 : Z) : res string :=
  if is_special_value value_i16 then Ok EmptyString
  else Ok (exact_fixed value_i16 2 (decimals_or self 1)).

(** What [format_float16] should print, in exact arithmetic: millionths of
    the decoded integer. *)
Definition float16_exact (self : options) (value_u16 : Z) : res string :=
  let! int_val := sv_from_float16 (_to_i16 value_u16) in
  if is_special_value int_val || is_overload int_val then Ok EmptyString
  else Ok (exact_fixed int_val 1000000 (decimals_or self 2)).

(** The status of a 16-bit float field as a function of its decoded
    integer. *)
Definition status_of_decoded (int_val : Z) : Z :=
  if is_special_value int_val then int_val
  else if is_overload int_val then sys_maxsize
  else 0.

Definition status_agrees (value_u16 : Z) : bool :=
  res_Z_eqb (sv_is_value_valid value_u16)
            (let! n := sv_from_float16 (_to_i16 value_u16) in
             Ok (status_of_decoded n)).

Definition to_i16_agrees (u : Z) : bool :=
  _to_i16 u =? (if u <? 32768 then u else u - 65536).

(** The validity status by ranges of the raw field. *)
Definition status_by_range (value_u16 : Z) : res Z :=
  if value_u16 <? 2048 then Raise ValueError
  else if value_u16 <? 33772 then Ok 0
  else if value_u16 <? 43008 then Ok sys_maxsize
  else if value_u16 <? 65532 then Ok 0
  else Ok (value_u16 - 65536).

Definition status_range_agrees (value_u16 : Z) : bool :=
  res_Z_eqb (sv_is_value_valid value_u16) (status_by_range value_u16).

(** The float expressions of [parse_direction] and [process_record] that
    have no method of their own, each on the raw value it starts from. *)
Definition zc_float (self : options) (kbzc_raw : Z) : res string :=
  let! d := float_of_int kbzc_raw in
  let! zc := fdiv 1024 d in
  format_fixed_odd zc (decimals_or self 2).

Definition kb_float (self : options) (kbzc_raw : Z) : res string :=
  let! int_val := sv_from_float16 kbzc_raw in
  let! root := sqrt_int int_val in
  let kb_val := (root * 0.01)%float in
  let kb_val := if PrimFloat.leb kb_val 0.1 then 0%float else kb_val in
  format_fixed_odd kb_val (decimals_or self 2).

Definition temperature_float (self : options) (b56 : Z) : res string :=
  let! f56 := float_of_int b56 in
  format_fixed_odd (f56 * 0.5 - 27.5)%float (decimals_or self 1).

Definition voltage_float (self : options) (b57 : Z) : res string :=
  let! f57 := float_of_int b57 in
  format_fixed_odd (f57 * 0.01 + 2.45)%float (decimals_or self 2).

(** The same columns in exact arithmetic. *)
Definition zc_exact (self : options) (kbzc_raw : Z) : res string :=
  Ok (exact_fixed 1024 kbzc_raw (decimals_or self 2)).

Definition kb_exact (self : options) (kbzc_raw : Z) : res string :=
  let! int_val := sv_from_float16 kbzc_raw in
  if int_val <? 0 then Raise ValueError
  else Ok (exact_kb int_val (decimals_or self 2)).

Definition temperature_exact (self : options) (b56 : Z) : res string :=
  Ok (exact_fixed (b56 - 55) 2 (decimals_or self 1)).

Definition voltage_exact (self : options) (b57 : Z) : res string :=
  Ok (exact_fixed (b57 + 245) 100 (decimals_or self 2)).

(** Two columns agree on one raw value, at both precisions. *)
Definition agree_on (f g : options -> Z -> res string) (raw : Z) : bool :=
  res_string_eqb (f (with_precision false) raw) (g (with_precision false) raw)
  && res_string_eqb (f (with_precision true) raw) (g (with_precision true) raw).

(** *** The formatter on machine integers *)

(** The float formatter decodes a float into a mantissa and an exponent
    over [Z] twice for every field, which is far too slow to run on each of
    the 65536 values of a field.  The definitions below compute the same
    digits with the primitive operations of floats and of 63-bit integers;
    they answer [None] where their shortcut does not apply.  They are
    proved equal to the formatter, and it is they that are run on every
    value. *)

(** A sign and the digits after it. *)
Definition render (s : bool) (q : Z) (d : nat) : string :=
  ((if s then "-" else EmptyString) ++ fixed_digits q d)%string.

(** [n / d] rounded to the nearest integer on machine integers; a tie goes
    to the odd neighbour when [odd] is set, to the even one otherwise. *)
Definition round_div_prim (odd : bool) (n d : int) : int :=
  let q := (n / d)%uint63 in
  let r := (n mod d)%uint63 in
  if (2 * r <? d)%uint63 then q
  else if (d <? 2 * r)%uint63 then (q + 1)%uint63
  else if Bool.eqb (q mod 2 =? 1)%uint63 odd then q else (q + 1)%uint63.

(** The magnitude of a normal float below [2^53], as [m / 2^k] with
    [2^52 <= m < 2^53] and [0 <= k <= 1074]. *)
Definition mantissa_exponent (x : float) : option (int * int) :=
  if PrimFloat.is_nan x || PrimFloat.is_zero x || PrimFloat.is_infinity x
  then None
  else
    let (r, se) := PrimFloat.frshiftexp x in
    let m := PrimFloat.normfr_mantissa r in
    if ((4503599627370496 <=? m) && (m <? 9007199254740992)
        && (1080 <=? se) && (se <=? 2154))%uint63
    then Some (m, (2154 - se)%uint63)
    else None.

(** [floor] of a float that is not negative. *)
Definition floor_prim (x : float) : option int :=
  if PrimFloat.is_nan x || PrimFloat.get_sign x then None
  else if PrimFloat.is_zero x then Some 0%uint63
  else match mantissa_exponent x with
       | Some (m, k) => Some (m >> k)%uint63
       | None => None
       end.

(** For up to four decimals: [10^d] as a float, [5^d], [d] and [10^d]. *)
Definition decimal_scale (d : nat) : option (float * int * int * int) :=
  match d with
  | 0%nat => Some (1%float, 1%uint63, 0%uint63, 1%uint63)
  | 1%nat => Some (10%float, 5%uint63, 1%uint63, 10%uint63)
  | 2%nat => Some (100%float, 25%uint63, 2%uint63, 100%uint63)
  | 3%nat => Some (1000%float, 125%uint63, 3%uint63, 1000%uint63)
  | 4%nat => Some (10000%float, 625%uint63, 4%uint63, 10000%uint63)
  | _ => None
  end.

(** The sign and the digits that [format_f] prints: [m * 10^d / 2^k] is
    [m * 5^d / 2^(k - d)], which fits a machine integer. *)
Definition digits_prim (x : float) (d : nat) : option (bool * int) :=
  if PrimFloat.is_nan x then None
  else if PrimFloat.is_zero x then Some (PrimFloat.get_sign x, 0%uint63)
  else match mantissa_exponent x, decimal_scale d with
       | Some (m, k), Some (_, p5, di, _) =>
           if ((di <? k) && (k <=? di + 62))%uint63
           then Some (PrimFloat.get_sign x,
                      round_div_prim false (m * p5) (1 << (k - di)))%uint63
           else None
       | _, _ => None
       end.

Definition round_odd_prim (fl : int) (flf frac : float) : float :=
  if PrimFloat.ltb (0.5 + tie_eps) frac then (flf + 1)%float
  else if PrimFloat.ltb frac (0.5 - tie_eps) then flf
  else if (fl mod 2 =? 0)%uint63 then (flf + 1)%float else flf.

(** [format_fixed_odd], up to the printing of the digits. *)
Definition fixed_odd_prim (value : float) (decimals : nat)
    : option (bool * int) :=
  match decimal_scale decimals with
  | None => None
  | Some (scale, _, _, _) =>
      let scaled := (value * scale)%float in
      let sign := if PrimFloat.leb 0 scaled then 1%float else (-1)%float in
      let abs_scaled := PrimFloat.abs scaled in
      match floor_prim abs_scaled with
      | None => None
      | Some fl =>
          let flf := PrimFloat.of_uint63 fl in
          if PrimFloat.is_infinity flf then None
          else
            let frac := (abs_scaled - flf)%float in
            let rounded := round_odd_prim fl flf frac in
            let rounded := (rounded * sign)%float in
            digits_prim (rounded / scale)%float decimals
      end
  end.

(** [exact_fixed], up to the printing of the digits. *)
Definition exact_fixed_prim (num den : Z) (d : nat) : option (bool * int) :=
  match decimal_scale d with
  | Some (_, _, _, p10) =>
      if (Z.abs num <? 1099511627776) && (0 <? den) && (den <? 1099511627776)
      then Some (num <? 0,
                 round_div_prim true (Uint63.of_Z (Z.abs num) * p10)%uint63
                                (Uint63.of_Z den))
      else None
  | None => None
  end.

(** [float(z)] for an integer of less than 62 bits. *)
Definition float_of_int_prim (z : Z) : option float :=
  if (0 <=? z) && (z <? 4611686018427387904) then
    let f := PrimFloat.of_uint63 (Uint63.of_Z z) in
    if PrimFloat.is_infinity f then None else Some f
  else if (z <? 0) && (-4611686018427387904 <? z) then
    let f := PrimFloat.opp (PrimFloat.of_uint63 (Uint63.of_Z (- z))) in
    if PrimFloat.is_infinity f then None else Some f
  else None.

(** The formatter prints [value] with [d] decimals as exact arithmetic
    prints [num / den]. *)
Definition fixed_agrees (value : float) (d : nat) (num den : Z) : bool :=
  match fixed_odd_prim value d, exact_fixed_prim num den d with
  | Some (s, q), Some (s', q') => Bool.eqb s s' && (q =? q')%uint63
  | _, _ => false
  end.

(** The formatter prints the digits [q] of a value that is not negative. *)
Definition fixed_prints (value : float) (d : nat) (q : Z) : bool :=
  match fixed_odd_prim value d with
  | Some (s, q') => negb s && (Uint63.to_Z q' =? q)
  | None => false
  end.

(** The two precisions of the options. *)
Definition at_both (short : nat) (p : nat -> Z -> bool) (raw : Z) : bool :=
  p short raw && p 4%nat raw.

Definition int16_exact_at (d : nat) (value_i16 : Z) : bool :=
  is_special_value value_i16
  || match float_of_int_prim value_i16 with
     | Some x => fixed_agrees (x / INT16_DIVISOR)%float d value_i16 2
     | None => false
     end.

Definition float16_exact_at (d : nat) (value_u16 : Z) : bool :=
  match sv_from_float16 (_to_i16 value_u16) with
  | Raise _ => true
  | Ok int_val =>
      is_special_value int_val || is_overload int_val
      || match float_of_int_prim int_val with
         | Some x => fixed_agrees (x / FLOAT16_DIVISOR)%float d int_val 1000000
         | None => false
         end
  end.

Definition zc_exact_at (d : nat) (kbzc_raw : Z) : bool :=
  match float_of_int_prim kbzc_raw with
  | Some x =>
      negb (PrimFloat.eqb x 0)
      && fixed_agrees (1024 / x)%float d 1024 kbzc_raw
  | None => false
  end.

Definition kb_exact_at (d : nat) (kbzc_raw : Z) : bool :=
  match sv_from_float16 kbzc_raw with
  | Raise _ => true
  | Ok int_val =>
      match float_of_int_prim int_val with
      | None => false
      | Some x =>
          (int_val <? 0)
          || let kb_val := (PrimFloat.sqrt x * 0.01)%float in
             if PrimFloat.leb kb_val 0.1
             then (int_val <=? 100) && fixed_prints 0 d 0
             else negb (int_val <=? 100)
                  && fixed_prints kb_val d
                       (sqrt_nearest
                          (int_val * 10 ^ (2 * (Z.of_nat d - 2))))
      end
  end.

(** The two bytes at [off] and [off + 1] of a record, low byte first, as
    an unsigned and as a signed number. *)
Definition u16_at (rec : list byte) (off : Z) : Z :=
  byte_at rec (Z.to_nat off) + 256 * byte_at rec (S (Z.to_nat off)).

Definition i16_at (rec : list byte) (off : Z) : Z := _to_i16 (u16_at rec off).

(** [parse_direction] with every float computation replaced by exact
    arithmetic on the raw fields. *)
Definition direction_exact (self : options) (rec : list byte) (off : Z)
    (is_extended : bool) (status : Z) : res DirData :=
  if negb (status =? 0) then
    Ok {| dd_v := EmptyString; dd_kb := EmptyString; dd_ft := EmptyString;
          dd_u := EmptyString; dd_a := EmptyString; dd_cv := EmptyString;
          dd_cf := EmptyString; dd_state := status_to_string status |}
  else
    let! v := float16_exact self (u16_at rec off) in
    let! kb :=
      if is_extended then kb_exact self (i16_at rec (off + 2))
      else if i16_at rec (off + 2) <=? 0 then Ok EmptyString
      else zc_exact self (i16_at rec (off + 2)) in
    let! ft := int16_exact self (i16_at rec (off + 4)) in
    let! u := float16_exact self (u16_at rec (off + 6)) in
    let! a := float16_exact self (u16_at rec (off + 8)) in
    let! cv := float16_exact self (u16_at rec (off + 10)) in
    let! cf := int16_exact self (i16_at rec (off + 12)) in
    Ok {| dd_v := v; dd_kb := kb; dd_ft := ft; dd_u := u; dd_a := a;
          dd_cv := cv; dd_cf := cf; dd_state := EmptyString |}.

(** The thirteen sensor columns that close a row, in exact arithmetic. *)
Definition sensor_columns (self : options) (rec : list byte) : list string :=
  let b58 := byte_at rec 58 in
  let b59 := byte_at rec 59 in
  let b60 := byte_at rec 60 in
  let ss_raw := Z.land b59 0x1F in
  [ exact_fixed (byte_at rec 56 - 55) 2 (decimals_or self 1);
    exact_fixed (byte_at rec 57 + 245) 100 (decimals_or self 2);
    str (Z.land b58 0x7F);
    str (Z.shiftr b58 7);
    (if ss_raw =? 0 then EmptyString else str (2 * ss_raw - 113));
    get_signal_quality ss_raw;
    str (if Z.land b59 0x20 =? 0 then 0 else 1);
    str (if Z.land b59 0x40 =? 0 then 0 else 1);
    get_peak_type_cat (Z.land b60 3);
    (if Z.land b60 4 =? 0 then "DIN"%string else "SBR"%string);
    str (byte_at rec 61);
    format_geophone (u16_at rec 62);
    str (Z.shiftr b60 6) ].

(** The fields of the row of a 70-byte record, with every float
    computation replaced by exact arithmetic. *)
Definition row_fields_exact (self : options) (rec : list byte)
    (record_type record_size : Z) (date_s time_s : string)
    : res (list string) :=
  let is_extended := record_type =? 0x8A in
  let counter :=
    if 0x43 <? record_size
    then str (byte_at rec 64 + 256 * byte_at rec 65 + 65536 * byte_at rec 66)
    else EmptyString in
  let! x_status := axis_status rec 14 in
  let! y_status := axis_status rec 28 in
  let! z_status := axis_status rec 42 in
  let overall_status := get_overall_status x_status y_status z_status in
  let! x_data := direction_exact self rec 14 is_extended x_status in
  let! y_data := direction_exact self rec 28 is_extended y_status in
  let! z_data := direction_exact self rec 42 is_extended z_status in
  let! overall_v :=
    if negb (overall_status =? 0) then Ok EmptyString
    else float16_exact self (u16_at rec 12) in
  Ok ([date_s; time_s]
      ++ (if print_number self then [counter] else [])
      ++ [status_to_string overall_status; overall_v]
      ++ dir_fields x_data ++ dir_fields y_data ++ dir_fields z_data
      ++ sensor_columns self rec).

(** [HH:MM:SS] as the record states it. *)
Definition record_time (rec : list byte) : string :=
  (format_0d 2 (byte_at rec 8) ++ ":" ++ format_0d 2 (byte_at rec 7)
   ++ ":" ++ format_0d 2 (byte_at rec 6))%string.

(** The fields of the row of an accepted record. *)
Definition row_exact (self : options) (rec : list byte)
    : res (list string) :=
  row_fields_exact self rec (type_byte rec) (declared_size rec)
                   (iso_date (record_date rec)) (record_time rec).

(** A computation that raises nothing but [ValueError]. *)
Definition only_value_error {A : Type} (m : res A) : Prop :=
  forall e, m = Raise e -> e = ValueError.

(** The offsets of the 16-bit float fields of a record: the overall
    magnitude, then velocity, displacement, acceleration and category
    velocity of each axis; and the offsets of the KB/ZC metric. *)
Definition float_field_offsets : list Z :=
  [12; 14; 20; 22; 24; 28; 34; 36; 38; 42; 48; 50; 52].

Definition kb_field_offsets : list Z := [16; 30; 44].

(** No float field is below [0x0800], and in an extended record no KB
    metric is below [0x0800] or at or above [0xA800]. *)
Definition clean_fields (rec : list byte) : Prop :=
  (forall off, In off float_field_offsets -> 2048 <= u16_at rec off) /\
  (type_byte rec = 0x8A ->
   forall off, In off kb_field_offsets -> 2048 <= u16_at rec off < 43008).

Definition kb_decodes (value_u16 : Z) : bool :=
  match sv_from_float16 (_to_i16 value_u16) with
  | Ok n => 0 <=? n
  | Raise _ => false
  end.

(** *** Reading a line back *)

Definition dquote : ascii := ascii_of_nat 34.

Definition newline : ascii := ascii_of_nat 10.

(** A field that can be written between two double quotes as it is. *)
Definition no_quote (s : string) : bool :=
  all_chars (fun c => negb (Ascii.eqb c dquote)) s.

(** What may follow the closing quote of a field: a comma and the
    opening quote of the next field, or the newline that ends the line. *)
Inductive after_field : Type :=
| NextField (rest : string)
| EndOfLine
| Malformed.

Definition after_quote (s : string) : after_field :=
  match s with
  | String c1 (String c2 rest) =>
      if Ascii.eqb c1 "," && Ascii.eqb c2 dquote then NextField rest
      else Malformed
  | String c1 EmptyString => if Ascii.eqb c1 newline then EndOfLine else Malformed
  | EmptyString => Malformed
  end.

(** The fields of a line, read from just after the opening quote of the
    first one; a field ends at the next double quote. *)
Fixpoint fields_from (s : string) : option (list string) :=
  match s with
  | EmptyString => None
  | String c s' =>
      if Ascii.eqb c dquote then
        match s' with
        | String c1 (String c2 rest) =>
            if Ascii.eqb c1 "," && Ascii.eqb c2 dquote
            then option_map (cons EmptyString) (fields_from rest)
            else None
        | String c1 EmptyString =>
            if Ascii.eqb c1 newline then Some [EmptyString] else None
        | EmptyString => None
        end
      else
        match fields_from s' with
        | Some (f :: fs) => Some (String c f :: fs)
        | _ => None
        end
  end.

(** A reader for the lines the program writes: quoted fields separated by
    commas, a newline at the end. *)
Definition read_csv_line (s : string) : option (list string) :=
  match s with
  | String c s' => if Ascii.eqb c dquote then fields_from s' else None
  | EmptyString => None
  end.

(** The number of columns of the output. *)
Definition column_count (self : options) : nat :=
  if print_number self then 42%nat else 41%nat.

(** A line as [out.write] receives it. *)
Definition line_of (s : string) : string :=
  (s ++ String newline EmptyString)%string.

(** A reader whose output starts with [lines] and goes on as the output
    of [rd]. *)
Definition after_lines (lines : list string) (rd : reader) : reader :=
  {| records_processed := records_processed rd;
     records_skipped := records_skipped rd;
     record_counter := record_counter rd;
     out := lines ++ out rd |}.

(** The header lines [process_vif_file] writes. *)
Definition header_lines (self : options) (kb : bool) : list string :=
  if print_header self
  then [line_of (header_names self kb); line_of (header_units self)]
  else [].

(** The counters of a reader add up: every candidate handed over so far
    was counted once, as processed or as skipped, every processed one has
    its row after the [h] header lines, and one more candidate may be
    waiting to be handed over. *)
Definition balanced (h : Z) (st : scan_state reader) : Prop :=
  records_processed (client st) + records_skipped (client st)
  + (match last_record st with Some _ => 1 | None => 0 end)
  = record_count st /\
  record_counter (client st) = records_processed (client st) /\
  len (out (client st)) = h + records_processed (client st) /\
  0 <= records_skipped (client st) /\
  0 <= records_processed (client st).

(** The spelling YY-MM-DD of a date of this century. *)
Definition short_date (yy mm dd : Z) : string :=
  (format_0d 2 yy ++ "-" ++ format_0d 2 mm ++ "-" ++ format_0d 2 dd)%string.

Definition two_digits (n : Z) : string :=
  String (digit (n / 10)) (String (digit n) EmptyString).

Definition two_digits_agree (n : Z) : bool :=
  String.eqb (format_0d 2 n) (two_digits n)
  && String.eqb (format_0d 4 (2000 + n))
                (String "2" (String "0" (two_digits n))).

(** A date option whose year is written with a superscript two. *)
Definition superscript_date : string :=
  String (ascii_of_nat 178) "4-03-15".

(** *** The candidates of a stream, as one pass over its bytes *)

(** The buffer a candidate is handed over in: its first bytes, 70 at
    most, then zeros. *)
Definition holding (src : list byte) : list byte :=
  src ++ repeat Byte.x00 (70 - length src).

Definition starts_with_marker (w : list byte) : bool :=
  match w with
  | b0 :: b1 :: b2 :: _ => is_marker b0 b1 b2
  | _ => false
  end.

(** The length a record claims, read from the two bytes after its type
    byte, and not less than the 12 bytes of a header. *)
Definition claimed_length (w : list byte) : Z :=
  Z.max (ord (nth 4 w Byte.x00) + 256 * ord (nth 5 w Byte.x00)) 12.

(** The candidates of the bytes [w], which start at offset [pos] of the
    stream, [skip] of them belonging to a candidate already taken: a
    marker starts a candidate when the length it claims is there, the
    bytes of a candidate are not searched, and a marker whose claimed
    length runs past the end of the stream ends the search. *)
Fixpoint candidates_in (w : list byte) (pos : Z) (skip : nat)
    : list (Z * list byte) :=
  match w with
  | [] => []
  | b :: w' =>
      match skip with
      | S k => candidates_in w' (pos + 1) k
      | O =>
          if starts_with_marker (b :: w') then
            let advance := claimed_length (b :: w') in
            if len (b :: w') <? advance then []
            else
              (pos, holding (firstn (Z.to_nat (Z.min advance 70)) (b :: w')))
              :: candidates_in w' (pos + 1) (Z.to_nat advance - 1)
          else candidates_in w' (pos + 1) 0
      end
  end.

Definition candidates (f : list byte) : list (Z * list byte) :=
  candidates_in f 0 0.



(** What the loop keeps true on a stream [f] that fits the window: either
    nothing was read yet, or the window holds all of [f] and the
    candidates found so far, followed by those still ahead of the cursor,
    are the candidates of [f]. *)
Definition greedy_inv (window_size0 : Z) (f : list byte)
    (st : scan_state (list (list byte * Z))) : Prop :=
  match last_record st with
  | Some lr => len lr = RECORD_BUFFER_SIZE
  | None => True
  end /\
  ((sc st = sc (initial_state (list (list byte * Z)) window_size0 f [])
    /\ found st = []) \/
   exists p,
     0 <= p <= len f /\ sc st = loaded window_size0 f p /\
     found st ++ candidates_in (skipn (Z.to_nat p) f) p 0 = candidates f).

(** The contents of the files of the command line that exist, in the
    order they are named. *)
Definition present (files_on_disk : string -> option (list byte))
    (files : list string) : list (list byte) :=
  flat_map (fun fn => match files_on_disk fn with
                      | Some f => [f]
                      | None => []
                      end) files.

(** The options of the readers [main] builds, headers apart. *)
Definition reader_options (args : cli_args) (day : option string) : options :=
  {| print_header := false;
     print_number := if args_n args then true else negb (args_N args);
     filter_today := args_today args;
     long_format := args_long args;
     date_filter := day |}.

(** The rows the second pass writes for one file. *)
Definition rows_of (self : options) (today : Z * Z * Z) (f : list byte)
    : list string :=
  match run_reader self today f with
  | Some (st, _) => out (client st)
  | None => []
  end.

(** The header lines of a whole run: those of the first file that exists,
    when headers are asked for. *)
Definition run_header (self : options) (header : bool)
    (files : list (list byte)) : list string :=
  match files with
  | f :: _ =>
      if header then
        match detect_kb_mode f with
        | Some kb => [line_of (header_names self kb);
                      line_of (header_units self)]
        | None => []
        end
      else []
  | [] => []
  end.

(** The date filter [main] hands to its readers. *)
Definition filter_of_day (day : option string) (date_filter : option string)
    : Prop :=
  match day with
  | None => date_filter = None
  | Some s =>
      validate_date_string s = true /\
      exists d, normalize_date_string s = Ok d /\ date_filter = Some d
  end.

(** A field that holds no double quote. *)
Definition plain (s : string) : Prop := no_quote s = true.

(** What the first pass has read when it is in state 1 or 2. *)
Definition marker_started (state : Z) (consumed : list byte) : Prop :=
  (state = 1 -> exists c, consumed = c ++ [Byte.x56]) /\
  (state = 2 -> exists c, consumed = c ++ [Byte.x56; Byte.x49]).

(** What the second pass keeps true. *)
Definition run_inv (h : Z) (st : scan_state reader) : Prop :=
  wf_scanner (sc st) /\ balanced h st /\
  (last_record st <> None -> 0 <= last_record_pos st).

(* ================================================================== *)
(** ** Properties of the field codec *)
(* ================================================================== *)

Lemma ord_range (b : byte) : 0 <= ord b < 256.
Proof.
  unfold ord. pose proof (Byte.to_N_bounded b). lia.
Qed.

Lemma byte_at_range (rec : list byte) (k : nat) : 0 <= byte_at rec k < 256.
Proof. apply ord_range. Qed.

Lemma lor_shiftl_8 (lo hi : Z) :
  0 <= lo < 256 -> 0 <= hi -> Z.lor lo (Z.shiftl hi 8) = lo + 256 * hi.
Proof.
  intros Hlo Hhi.
  rewrite Z.shiftl_mul_pow2 by lia.
  assert (Hdisj : Z.land lo (hi * 2 ^ 8) = 0).
  { apply Z.bits_inj'. intros n Hn.
    rewrite Z.land_spec, Z.bits_0.
    destruct (Z.lt_ge_cases n 8) as [Hlt | Hge].
    - rewrite Z.mul_pow2_bits_low by lia. apply andb_false_r.
    - destruct (Z.eq_dec lo 0) as [-> | Hnz].
      + now rewrite Z.bits_0.
      + rewrite (Z.bits_above_log2 lo n); [reflexivity | lia |].
        assert (Z.log2 lo < 8) by (apply Z.log2_lt_pow2; lia). lia. }
  rewrite <- Z.lxor_lor by exact Hdisj.
  rewrite <- Z.add_nocarry_lxor by exact Hdisj. lia.
Qed.

Lemma getitem_at (rec : list byte) (k : nat) :
  (k < length rec)%nat -> getitem rec (Z.of_nat k) = Ok (byte_at rec k).
Proof.
  intros Hk. unfold getitem, byte_at.
  destruct (Z.ltb_spec (Z.of_nat k) 0) as [Hneg | _]; [lia |].
  destruct (Z.ltb_spec (Z.of_nat k) 0) as [Hneg | _]; [lia |].
  rewrite Nat2Z.id.
  now rewrite (nth_error_nth' rec Byte.x00 Hk).
Qed.

Lemma u16_le_at (rec : list byte) (k : nat) :
  (S k < length rec)%nat ->
  u16_le rec (Z.of_nat k) = Ok (byte_at rec k + 256 * byte_at rec (S k)).
Proof.
  intros Hk. unfold u16_le.
  rewrite getitem_at by lia. cbn [bind].
  replace (Z.of_nat k + 1) with (Z.of_nat (S k)) by lia.
  rewrite getitem_at by lia. cbn [bind].
  f_equal. apply lor_shiftl_8; [apply byte_at_range | apply byte_at_range].
Qed.

Lemma getitem_Z (rec : list byte) (i : Z) :
  0 <= i < len rec -> getitem rec i = Ok (byte_at rec (Z.to_nat i)).
Proof.
  intros Hi. unfold len in Hi.
  rewrite <- (Z2Nat.id i) at 1 by lia.
  apply getitem_at. lia.
Qed.

Lemma u16_le_Z (rec : list byte) (i : Z) :
  0 <= i -> i + 1 < len rec ->
  u16_le rec i
  = Ok (byte_at rec (Z.to_nat i) + 256 * byte_at rec (S (Z.to_nat i))).
Proof.
  intros H0 Hi. unfold len in Hi.
  rewrite <- (Z2Nat.id i) at 1 by lia.
  apply u16_le_at. lia.
Qed.

Lemma all_from_spec (p : Z -> bool) (n : nat) :
  forall start, all_from p start n = true ->
  forall z, start <= z < start + Z.of_nat n -> p z = true.
Proof.
  induction n as [| n IH]; intros start Hall z Hz; [lia |].
  cbn [all_from] in Hall. apply andb_true_iff in Hall as [Hhere Hrest].
  destruct (Z.eq_dec z start) as [-> | Hne]; [exact Hhere |].
  apply (IH (start + 1) Hrest). lia.
Qed.

Lemma all_in_range (p : Z -> bool) (lo hi : Z) :
  all_from p lo (Z.to_nat (hi - lo)) = true ->
  forall z, lo <= z < hi -> p z = true.
Proof.
  intros Hall z Hz. apply (all_from_spec p _ lo Hall). lia.
Qed.

(** *** Geophone identifiers *)

Lemma format_geophone_all_ids :
  all_from geophone_agrees 0 (Z.to_nat (65536 - 0)) = true.
Proof. vm_compute. reflexivity. Qed.

(** C8. Geophone decode: for every 16-bit identifier the top two bits
    choose the tag (TDA, TDS, the fixed placeholder, or "unknown") and,
    except for the placeholder, the low fourteen bits follow as a
    zero-padded five-digit number; 0x4005, 0xC000 and 0x0007 render as
    TDA00005, the eight-character placeholder and unknown00007. *)
Theorem geophone_decode :
  (forall id, 0 <= id < 65536 -> format_geophone id = geophone_spec id) /\
  format_geophone 0x4005 = "TDA00005"%string /\
  format_geophone 0xC000 = "???00000"%string /\
  String.length (format_geophone 0xC000) = 8%nat /\
  format_geophone 0x0007 = "unknown00007"%string.
Proof.
  split; [| repeat split; reflexivity].
  intros id Hid.
  apply String.eqb_eq.
  apply (all_in_range geophone_agrees 0 65536 format_geophone_all_ids).
  exact Hid.
Qed.

Lemma geophone_decode_witness :
  0 <= 0x8123 < 65536 /\ format_geophone 0x8123 = "TDS00291"%string.
Proof.
  split; [lia |].
  rewrite (proj1 geophone_decode 0x8123) by lia. reflexivity.
Defined.

(** *** The custom float decode *)

Lemma res_Z_eqb_eq (a b : res Z) : res_Z_eqb a b = true -> a = b.
Proof.
  destruct a as [x | []], b as [y | []]; cbn; try discriminate;
    try reflexivity.
  intros H. apply Z.eqb_eq in H. now subst.
Qed.

Lemma sv_from_float16_all_raws :
  all_from float16_agrees (-32768) (Z.to_nat (32768 - -32768)) = true.
Proof. vm_compute. reflexivity. Qed.

(** On every signed 16-bit input the decode is the specified one when the
    exponent field is not negative, and raises when it is. *)
Lemma sv_from_float16_by_cases (raw : Z) :
  -32768 <= raw < 32768 -> sv_from_float16 raw = float16_by_cases raw.
Proof.
  intros Hraw. apply res_Z_eqb_eq.
  apply (all_in_range float16_agrees (-32768) 32768
           sv_from_float16_all_raws).
  exact Hraw.
Qed.

(** C7 (defect). For the raw values 0..2047 the exponent field is -1, at
    most 0x13, and the code shifts left by it: Python raises [ValueError]
    on the negative shift count, so nothing is returned. *)
Theorem sv_from_float16_negative_shift (raw : Z) :
  0 <= raw < 2048 ->
  float16_exponent raw = -1 /\ sv_from_float16 raw = Raise ValueError.
Proof.
  intros Hraw.
  assert (He : float16_exponent raw = -1).
  { unfold float16_exponent.
    rewrite Z.mod_small by lia. rewrite Z.div_small by lia. reflexivity. }
  split; [exact He |].
  rewrite sv_from_float16_by_cases by lia.
  unfold float16_by_cases. now rewrite He.
Qed.

Lemma sv_from_float16_negative_shift_witness :
  0 <= 5 < 2048 /\ sv_from_float16 5 = Raise ValueError.
Proof.
  split; [lia |]. apply (sv_from_float16_negative_shift 5). lia.
Defined.

(* ================================================================== *)
(** ** Properties of the record validator *)
(* ================================================================== *)

(** For a read type that is not negative the gate is the size test
    together with membership in the set the mask [0x45] encodes. *)
Lemma is_valid_to_process_mask (record_size read_type : Z) :
  0 <= read_type ->
  is_valid_to_process record_size read_type
  = Ok ((record_size =? 68)
        && ((read_type =? 0) || (read_type =? 2) || (read_type =? 6))).
Proof.
  intros Hrt. unfold is_valid_to_process.
  destruct (Z.leb_spec read_type 9) as [Hle | Hgt]; cbn [negb].
  - assert (Hcases : read_type = 0 \/ read_type = 1 \/ read_type = 2 \/
                     read_type = 3 \/ read_type = 4 \/ read_type = 5 \/
                     read_type = 6 \/ read_type = 7 \/ read_type = 8 \/
                     read_type = 9) by lia.
    destruct (record_size =? 68); cbn [negb andb];
      repeat (destruct Hcases as [-> | Hcases]; [reflexivity |]);
      subst; reflexivity.
  - destruct (Z.eqb_spec read_type 0); [lia |].
    destruct (Z.eqb_spec read_type 2); [lia |].
    destruct (Z.eqb_spec read_type 6); [lia |].
    now rewrite andb_false_r.
Qed.

(** The bits set in the mask [0x45] are bits 0, 2 and 6. *)
Lemma mask_0x45_accepts (read_type : Z) :
  0 <= read_type ->
  In read_type [0; 2; 6]
  <-> read_type <= 9 /\ Z.land (Z.shiftl 1 read_type) 0x45 <> 0.
Proof.
  intros Hrt. cbn [In]. split.
  - intros [<- | [<- | [<- | []]]]; split; cbn; lia.
  - intros [Hle Hbit].
    assert (Hcases : read_type = 0 \/ read_type = 1 \/ read_type = 2 \/
                     read_type = 3 \/ read_type = 4 \/ read_type = 5 \/
                     read_type = 6 \/ read_type = 7 \/ read_type = 8 \/
                     read_type = 9) by lia.
    repeat (destruct Hcases as [-> | Hcases];
            [first [now auto | exfalso; apply Hbit; reflexivity] |]).
    subst. exfalso. apply Hbit. reflexivity.
Qed.

(** A negative read type on a record of size 68 makes the gate raise:
    the scanner never produces one. *)
Lemma is_valid_to_process_negative (read_type : Z) :
  read_type < 0 -> is_valid_to_process 68 read_type = Raise ValueError.
Proof.
  intros Hrt. unfold is_valid_to_process, lshift.
  destruct (Z.leb_spec read_type 9); [| lia]. cbn [negb Z.eqb Pos.eqb].
  destruct (Z.ltb_spec read_type 0); [reflexivity | lia].
Qed.

(** [examine_record] on a 70-byte buffer, stage by stage. *)
Lemma examine_record_stages (self : options) (today : Z * Z * Z)
    (rec : list byte) (read_type : Z) (valid : bool) :
  len rec = RECORD_BUFFER_SIZE ->
  is_valid_to_process (declared_size rec) read_type = Ok valid ->
  examine_record self today rec read_type
  = Ok (if negb valid then Skipped NotValidToProcess
        else if negb (Z.land (type_byte rec) 0xFD =? 0x88)
        then Skipped BadRecordType
        else if negb (declared_size rec =? RECORD_SIZE_EXPECTED)
        then Skipped BadRecordSize
        else if negb (datetime_valid (byte_at rec 6) (byte_at rec 7)
                        (byte_at rec 8) (byte_at rec 9) (byte_at rec 10)
                        (byte_at rec 11))
        then Skipped BadDateTime
        else filter_stage self today rec).
Proof.
  intros Hlen Hvalid. unfold RECORD_BUFFER_SIZE in Hlen.
  unfold examine_record.
  rewrite (getitem_Z rec 3) by lia. cbn [bind].
  rewrite (u16_le_Z rec 4) by lia. cbn [bind].
  change (Z.to_nat 3) with 3%nat. change (Z.to_nat 4) with 4%nat.
  fold (type_byte rec). fold (declared_size rec).
  rewrite Hvalid. cbn [bind].
  destruct valid; cbn [negb]; [| reflexivity].
  destruct (Z.land (type_byte rec) 253 =? 136); cbn [negb]; [| reflexivity].
  destruct (declared_size rec =? RECORD_SIZE_EXPECTED); cbn [negb];
    [| reflexivity].
  rewrite (getitem_Z rec 6) by lia. cbn [bind].
  rewrite (getitem_Z rec 7) by lia. cbn [bind].
  rewrite (getitem_Z rec 8) by lia. cbn [bind].
  rewrite (getitem_Z rec 9) by lia. cbn [bind].
  rewrite (getitem_Z rec 10) by lia. cbn [bind].
  rewrite (getitem_Z rec 11) by lia. cbn [bind].
  change (Z.to_nat 6) with 6%nat. change (Z.to_nat 7) with 7%nat.
  change (Z.to_nat 8) with 8%nat. change (Z.to_nat 9) with 9%nat.
  change (Z.to_nat 10) with 10%nat. change (Z.to_nat 11) with 11%nat.
  destruct (datetime_valid _ _ _ _ _ _); cbn [negb]; [| reflexivity].
  unfold filter_stage, record_date.
  destruct (filter_today self).
  - destruct today as [[ty tm] td].
    destruct ((2000 + byte_at rec 11 =? ty) && (byte_at rec 10 =? tm)
              && (byte_at rec 9 =? td)); reflexivity.
  - destruct (date_filter self) as [wanted |]; [| reflexivity].
    match goal with |- context [String.eqb ?a wanted] =>
      destruct (String.eqb a wanted) end; reflexivity.
Qed.

(** A verdict of [Skipped] is the skipped counter plus one, nothing
    written and no exception. *)
Lemma process_record_skipped (self : options) (today : Z * Z * Z)
    (rec : list byte) (read_type : Z) (rd : reader) (why : skip_exit) :
  examine_record self today rec read_type = Ok (Skipped why) ->
  process_record self today rec read_type rd = (skip_record rd, None).
Proof.
  intros Hex. unfold process_record. now rewrite Hex.
Qed.

(** A verdict of [Decode] counts the record as processed, whatever the
    decoding then does. *)
Lemma process_record_counted (self : options) (today : Z * Z * Z)
    (rec : list byte) (read_type : Z) (rd : reader)
    (ty sz : Z) (date_s time_s : string) :
  examine_record self today rec read_type = Ok (Decode ty sz date_s time_s) ->
  records_processed (fst (process_record self today rec read_type rd))
  = records_processed rd + 1 /\
  records_skipped (fst (process_record self today rec read_type rd))
  = records_skipped rd.
Proof.
  intros Hex. unfold process_record. rewrite Hex.
  destruct (decode_record _ _ _ _ _ _); cbn; split; reflexivity.
Qed.

(** C4. Structural rejection: a candidate whose read type is outside the
    set {0, 2, 6} the mask accepts, or whose declared size is not 68, or
    whose type byte masked with 0xFD is not 0x88, leaves [process_record]
    at one of its first three exits: the skipped counter goes up by one,
    nothing is written, nothing is decoded.  Read types are the
    non-negative classifications of the data model. *)
Theorem structural_rejection (self : options) (today : Z * Z * Z)
    (rec : list byte) (read_type : Z) (rd : reader) :
  len rec = RECORD_BUFFER_SIZE ->
  0 <= read_type ->
  ~ In read_type [0; 2; 6] \/ declared_size rec <> 68 \/
    Z.land (type_byte rec) 0xFD <> 0x88 ->
  (exists why,
      examine_record self today rec read_type = Ok (Skipped why) /\
      In why [NotValidToProcess; BadRecordType; BadRecordSize]) /\
  process_record self today rec read_type rd = (skip_record rd, None) /\
  records_skipped (skip_record rd) = records_skipped rd + 1 /\
  out (skip_record rd) = out rd /\
  (In read_type [0; 2; 6]
   <-> read_type <= 9 /\ Z.land (Z.shiftl 1 read_type) 0x45 <> 0).
Proof.
  intros Hlen Hrt Hbad.
  assert (Hex : exists why,
             examine_record self today rec read_type = Ok (Skipped why) /\
             In why [NotValidToProcess; BadRecordType; BadRecordSize]).
  { rewrite (examine_record_stages self today rec read_type _ Hlen
               (is_valid_to_process_mask _ _ Hrt)).
    destruct (Z.eqb_spec (declared_size rec) 68) as [Hsz | Hsz];
      cbn [andb negb].
    2: { exists NotValidToProcess. split; [reflexivity | now left]. }
    destruct ((read_type =? 0) || (read_type =? 2) || (read_type =? 6))
      eqn:Hmask; cbn [negb].
    2: { exists NotValidToProcess. split; [reflexivity | now left]. }
    destruct (Z.eqb_spec (Z.land (type_byte rec) 253) 136) as [Hty | Hty];
      cbn [negb].
    2: { exists BadRecordType. split; [reflexivity | right; now left]. }
    exfalso. destruct Hbad as [Hnot | [Hsize | Htype]].
    - apply Hnot. cbn [In].
      apply orb_true_iff in Hmask as [Hmask | Hmask];
        [apply orb_true_iff in Hmask as [Hmask | Hmask] |];
        apply Z.eqb_eq in Hmask; lia.
    - contradiction.
    - contradiction. }
  split; [exact Hex |].
  destruct Hex as [why [Hex _]].
  split; [exact (process_record_skipped _ _ _ _ rd _ Hex) |].
  split; [reflexivity |].
  split; [reflexivity |].
  exact (mask_0x45_accepts read_type Hrt).
Qed.

(** *** Calendar validation *)

Lemma land_3_mod_4 (yy : Z) : Z.land yy 3 = yy mod 4.
Proof. change 3 with (Z.ones 2). now rewrite Z.land_ones by lia. Qed.

(** The month table of [datetime_valid] is the specified day count. *)
Lemma max_day_table (month yy : Z) :
  1 <= month <= 12 ->
  (if existsb (Z.eqb month) [1; 3; 5; 7; 8; 10; 12] then 31
   else if existsb (Z.eqb month) [4; 6; 9; 11] then 30
   else if Z.land yy 3 =? 0 then 29 else 28)
  = days_in_month month yy.
Proof.
  intros Hm. unfold days_in_month. rewrite land_3_mod_4.
  assert (Hcases : month = 1 \/ month = 2 \/ month = 3 \/ month = 4 \/
                   month = 5 \/ month = 6 \/ month = 7 \/ month = 8 \/
                   month = 9 \/ month = 10 \/ month = 11 \/ month = 12)
    by lia.
  repeat (destruct Hcases as [-> | Hcases]; [reflexivity |]).
  subst. reflexivity.
Qed.

Lemma datetime_valid_calendar (second minute hour day month yy : Z) :
  datetime_valid second minute hour day month yy = true
  <-> calendar_ok second minute hour day month yy.
Proof.
  unfold datetime_valid, calendar_ok.
  destruct (Z.ltb_spec 59 second); cbn [orb]; [split; [discriminate | lia] |].
  destruct (Z.ltb_spec 59 minute); cbn [orb]; [split; [discriminate | lia] |].
  destruct (Z.ltb_spec 23 hour); cbn [orb]; [split; [discriminate | lia] |].
  destruct (Z.ltb_spec 99 yy); [split; [discriminate | lia] |].
  destruct (Z.ltb_spec month 1); cbn [orb]; [split; [discriminate | lia] |].
  destruct (Z.ltb_spec 12 month); [split; [discriminate | lia] |].
  rewrite max_day_table by lia.
  rewrite andb_true_iff, Z.leb_le, Z.leb_le. intuition lia.
Qed.

Lemma datetime_valid_false (second minute hour day month yy : Z) :
  datetime_valid second minute hour day month yy = false
  <-> ~ calendar_ok second minute hour day month yy.
Proof.
  rewrite <- datetime_valid_calendar.
  destruct (datetime_valid second minute hour day month yy);
    split; congruence.
Qed.

Lemma structurally_accepted_gate (rec : list byte) (read_type : Z) :
  structurally_accepted rec read_type ->
  len rec = RECORD_BUFFER_SIZE /\
  is_valid_to_process (declared_size rec) read_type = Ok true /\
  (Z.land (type_byte rec) 0xFD =? 0x88) = true /\
  (declared_size rec =? RECORD_SIZE_EXPECTED) = true.
Proof.
  intros (Hlen & Hrt & Hsz & Hty).
  split; [exact Hlen |].
  split.
  - rewrite is_valid_to_process_mask.
    + rewrite Hsz. cbn [In] in Hrt.
      destruct Hrt as [<- | [<- | [<- | []]]]; reflexivity.
    + cbn [In] in Hrt. lia.
  - split; [now apply Z.eqb_eq | now apply Z.eqb_eq].
Qed.

(** After the structural checks, the verdict is the calendar check
    followed by the filter stage. *)
Lemma examine_record_accepted (self : options) (today : Z * Z * Z)
    (rec : list byte) (read_type : Z) :
  structurally_accepted rec read_type ->
  examine_record self today rec read_type
  = Ok (if datetime_valid (byte_at rec 6) (byte_at rec 7) (byte_at rec 8)
             (byte_at rec 9) (byte_at rec 10) (byte_at rec 11)
        then filter_stage self today rec
        else Skipped BadDateTime).
Proof.
  intros Hacc.
  destruct (structurally_accepted_gate rec read_type Hacc)
    as (Hlen & Hgate & Hty & Hsz).
  rewrite (examine_record_stages self today rec read_type true Hlen Hgate).
  cbn [negb]. rewrite Hty, Hsz. cbn [negb].
  now destruct (datetime_valid _ _ _ _ _ _).
Qed.

Lemma filter_stage_not_calendar (self : options) (today : Z * Z * Z)
    (rec : list byte) :
  filter_stage self today rec <> Skipped BadDateTime.
Proof.
  unfold filter_stage. destruct (record_date rec) as [[y m] d].
  destruct (filter_today self).
  - destruct today as [[ty tm] td].
    destruct ((y =? ty) && (m =? tm) && (d =? td)); discriminate.
  - destruct (date_filter self) as [wanted |]; [| discriminate].
    match goal with |- context [String.eqb ?a wanted] =>
      destruct (String.eqb a wanted) end; discriminate.
Qed.

Lemma filter_stage_unfiltered (self : options) (today : Z * Z * Z)
    (rec : list byte) :
  filter_today self = false -> date_filter self = None ->
  exists date_s time_s,
    filter_stage self today rec
    = Decode (type_byte rec) (declared_size rec) date_s time_s.
Proof.
  intros Hft Hdf. unfold filter_stage.
  destruct (record_date rec) as [[y m] d].
  rewrite Hft, Hdf. eauto.
Qed.

(** C5. Calendar validation: a structurally accepted record gets past
    the calendar check exactly when second <= 59, minute <= 59,
    hour <= 23, year <= 99, month in 1..12 and day in 1..the day count of
    the month, February having 29 days exactly when the two-digit year is
    divisible by four (the test on its two low bits); a violation takes
    the fourth exit: skipped counter plus one, nothing written.  With no
    date filter set, getting past the check is being counted as
    processed. *)
Theorem calendar_validation (self : options) (today : Z * Z * Z)
    (rec : list byte) (read_type : Z) (rd : reader) :
  structurally_accepted rec read_type ->
  (examine_record self today rec read_type = Ok (Skipped BadDateTime)
   <-> ~ calendar_ok_rec rec) /\
  (~ calendar_ok_rec rec ->
   process_record self today rec read_type rd = (skip_record rd, None)) /\
  (filter_today self = false -> date_filter self = None ->
   (records_processed (fst (process_record self today rec read_type rd))
    = records_processed rd + 1
    <-> calendar_ok_rec rec)) /\
  (forall yy, days_in_month 2 yy = 29 <-> Z.land yy 3 = 0) /\
  (forall yy, days_in_month 2 yy = 28 <-> Z.land yy 3 <> 0).
Proof.
  intros Hacc.
  pose proof (examine_record_accepted self today rec read_type Hacc) as Hex.
  unfold calendar_ok_rec.
  destruct (datetime_valid (byte_at rec 6) (byte_at rec 7) (byte_at rec 8)
              (byte_at rec 9) (byte_at rec 10) (byte_at rec 11)) eqn:Hdt.
  - (* the calendar check passes *)
    assert (Hok : calendar_ok (byte_at rec 6) (byte_at rec 7) (byte_at rec 8)
                    (byte_at rec 9) (byte_at rec 10) (byte_at rec 11))
      by now apply datetime_valid_calendar.
    split; [| split; [| split]].
    + rewrite Hex. split; [| tauto].
      intros Heq. exfalso. injection Heq as Heq.
      exact (filter_stage_not_calendar self today rec Heq).
    + tauto.
    + intros Hft Hdf.
      destruct (filter_stage_unfiltered self today rec Hft Hdf)
        as (date_s & time_s & Hfs).
      rewrite Hfs in Hex.
      split; [tauto | intros _].
      exact (proj1 (process_record_counted _ _ _ _ rd _ _ _ _ Hex)).
    + split; intros yy; unfold days_in_month; rewrite land_3_mod_4;
        cbn [Z.eqb Pos.eqb]; destruct (Z.eqb_spec (yy mod 4) 0);
        split; intros; try lia; try congruence.
  - (* the calendar check fails *)
    assert (Hbad : ~ calendar_ok (byte_at rec 6) (byte_at rec 7)
                     (byte_at rec 8) (byte_at rec 9) (byte_at rec 10)
                     (byte_at rec 11))
      by now apply datetime_valid_false.
    split; [| split; [| split]].
    + tauto.
    + intros _. exact (process_record_skipped _ _ _ _ rd _ Hex).
    + intros _ _.
      rewrite (process_record_skipped _ _ _ _ rd _ Hex). cbn.
      split; [lia | tauto].
    + split; intros yy; unfold days_in_month; rewrite land_3_mod_4;
        cbn [Z.eqb Pos.eqb]; destruct (Z.eqb_spec (yy mod 4) 0);
        split; intros; try lia; try congruence.
Qed.

(** *** Date filters *)

Lemma date_eqb_spec (d1 d2 : Z * Z * Z) :
  (let '(y, m, d) := d1 in let '(ty, tm, td) := d2 in
   (y =? ty) && (m =? tm) && (d =? td)) = true <-> d1 = d2.
Proof.
  destruct d1 as [[y m] d], d2 as [[ty tm] td].
  rewrite !andb_true_iff, !Z.eqb_eq.
  split; [intros [[-> ->] ->]; reflexivity | intros [= -> -> ->]; auto].
Qed.

(** With [filter_today] set, no part of [process_record] reads
    [date_filter]. *)
Lemma process_record_today_only (self : options) (today : Z * Z * Z)
    (rec : list byte) (read_type : Z) (rd : reader)
    (day1 day2 : option string) :
  process_record (with_filters self true day1) today rec read_type rd
  = process_record (with_filters self true day2) today rec read_type rd.
Proof.
  destruct self as [ph pn ft lf df]. reflexivity.
Qed.

(** C10. Filter precedence: with [filter_today] set the exact-date filter
    is never consulted, whatever [date_filter] holds: an otherwise valid
    record is accepted exactly when its date is today's.  The exact-date
    filter decides only when [filter_today] is unset. *)
Theorem filter_precedence (self : options) (today : Z * Z * Z)
    (rec : list byte) (read_type : Z) (rd : reader) :
  (forall day1 day2,
      process_record (with_filters self true day1) today rec read_type rd
      = process_record (with_filters self true day2) today rec read_type rd)
  /\
  (structurally_accepted rec read_type -> calendar_ok_rec rec ->
   forall day,
     (record_date rec = today ->
      exists ty sz date_s time_s,
        examine_record (with_filters self true day) today rec read_type
        = Ok (Decode ty sz date_s time_s)) /\
     (record_date rec <> today ->
      examine_record (with_filters self true day) today rec read_type
      = Ok (Skipped NotToday)))
  /\
  (structurally_accepted rec read_type -> calendar_ok_rec rec ->
   forall wanted,
     (iso_date (record_date rec) = wanted ->
      exists ty sz date_s time_s,
        examine_record (with_filters self false (Some wanted)) today rec
                       read_type
        = Ok (Decode ty sz date_s time_s)) /\
     (iso_date (record_date rec) <> wanted ->
      examine_record (with_filters self false (Some wanted)) today rec
                     read_type
      = Ok (Skipped NotTheDay))).
Proof.
  split; [intros; apply process_record_today_only |].
  split; intros Hacc Hcal.
  - intros day.
    rewrite (examine_record_accepted _ today rec read_type Hacc).
    apply datetime_valid_calendar in Hcal. rewrite Hcal.
    unfold filter_stage. cbn [filter_today with_filters].
    pose proof (date_eqb_spec (record_date rec) today) as Hdate.
    destruct (record_date rec) as [[y m] d], today as [[ty tm] td].
    destruct ((y =? ty) && (m =? tm) && (d =? td)).
    + split; [intros _; eauto | intros Hne; exfalso; apply Hne; tauto].
    + split; [intros Heq | reflexivity].
      apply Hdate in Heq. discriminate.
  - intros wanted.
    rewrite (examine_record_accepted _ today rec read_type Hacc).
    apply datetime_valid_calendar in Hcal. rewrite Hcal.
    unfold filter_stage, iso_date.
    cbn [filter_today date_filter with_filters].
    destruct (record_date rec) as [[y m] d].
    match goal with |- context [String.eqb ?a wanted] =>
      destruct (String.eqb_spec a wanted) as [Heq | Hne] end.
    + split; [intros _; eauto | intros Hne; contradiction].
    + split; [intros Heq; contradiction | reflexivity].
Qed.

Lemma sample_record_accepted : structurally_accepted (held sample_record) 2.
Proof.
  unfold structurally_accepted. repeat split; try reflexivity.
  cbn [In]. right. now left.
Qed.

Lemma sample_record_calendar : calendar_ok_rec (held sample_record).
Proof. apply datetime_valid_calendar. reflexivity. Qed.

Lemma structural_rejection_witness :
  process_record plain_options sample_day (held sample_record) 5 new_reader
  = (skip_record new_reader, None).
Proof.
  refine (proj1 (proj2 (structural_rejection plain_options sample_day
                          (held sample_record) 5 new_reader _ _ _))).
  - reflexivity.
  - lia.
  - left. cbn [In]. lia.
Defined.

Lemma calendar_validation_witness :
  records_processed
    (fst (process_record plain_options sample_day (held sample_record) 2
            new_reader))
  = records_processed new_reader + 1
  <-> calendar_ok_rec (held sample_record).
Proof.
  refine (proj1 (proj2 (proj2 (calendar_validation plain_options sample_day
                                 (held sample_record) 2 new_reader _)))
            _ _).
  - exact sample_record_accepted.
  - reflexivity.
  - reflexivity.
Defined.

Lemma filter_precedence_witness :
  exists ty sz date_s time_s,
    examine_record (with_filters plain_options true (Some "1999-01-01"%string))
                   sample_day (held sample_record) 2
    = Ok (Decode ty sz date_s time_s).
Proof.
  refine (proj1 (proj1 (proj2 (filter_precedence plain_options sample_day
                                 (held sample_record) 2 new_reader))
                   _ _ (Some "1999-01-01"%string)) _).
  - exact sample_record_accepted.
  - exact sample_record_calendar.
  - reflexivity.
Defined.

(* ================================================================== *)
(** ** Properties of the odd-tie formatter *)
(* ================================================================== *)






(* ================================================================== *)
(** ** Inputs on which the decoder raises *)
(* ================================================================== *)

(** C2 (defect). A well-formed record (marker, type 0x88, size 68, a
    valid date) whose payload is zero makes the run end in an unhandled
    [ValueError]: the validity check of the first velocity field shifts
    by -1.  The custom float decode raises on the same raw values, and
    the KB-mode square root raises on a raw field of [0xA800], whose
    decode is negative. *)
Theorem zero_payload_raises :
  (exists st,
      run_reader plain_options sample_day zero_payload_record
      = Some (st, Some ValueError) /\
      out (client st) = []) /\
  sv_is_value_valid 0 = Raise ValueError /\
  sv_from_float16 0 = Raise ValueError /\
  sv_from_float16 (0xA800 - 0x10000) = Ok (-22528) /\
  sqrt_int (-22528) = Raise ValueError /\
  process_record plain_options sample_day (held kb_record) 2 new_reader
  = (count_record new_reader, Some ValueError).
Proof.
  split; [| repeat split; reflexivity].
  eexists. split; [vm_compute; reflexivity | reflexivity].
Qed.

(* ================================================================== *)
(** ** Termination of the stream scanner *)
(* ================================================================== *)

Lemma len_nonneg {A : Type} (l : list A) : 0 <= len l.
Proof. unfold len. lia. Qed.

Lemma len_app {A : Type} (l1 l2 : list A) : len (l1 ++ l2) = len l1 + len l2.
Proof. unfold len. rewrite length_app. lia. Qed.

Lemma len_skipn {A : Type} (n : Z) (l : list A) :
  0 <= n <= len l -> len (skipn (Z.to_nat n) l) = len l - n.
Proof. unfold len. intros Hn. rewrite length_skipn. lia. Qed.

Lemma len_firstn {A : Type} (n : Z) (l : list A) :
  0 <= n -> len (firstn (Z.to_nat n) l) = Z.min n (len l).
Proof. unfold len. intros Hn. rewrite length_firstn. lia. Qed.

Lemma compact_spec (s : scanner) :
  wf_scanner s ->
  wf_scanner (compact s) /\
  unscanned (compact s) = unscanned s /\
  f_rest (compact s) = f_rest s /\
  window_size (compact s) = window_size s /\
  0 <= scan_idx (compact s) <= scan_idx s.
Proof.
  intros (Hidx & Hlen & Hsize & Hpos).
  unfold compact, unscanned, wf_scanner, window_len in *.
  destruct (Z.ltb_spec 0 (scan_idx s)) as [Hgt | Hle]; cbn.
  - rewrite len_skipn by lia. repeat split; lia.
  - repeat split; lia.
Qed.

Lemma double_until_some (fuel : nat) :
  forall n required,
    0 < n -> required <= n * 2 ^ Z.of_nat fuel ->
    exists m, double_until fuel n required = Some m /\ n <= m.
Proof.
  induction fuel as [| fuel IH]; intros n required Hn Hreq; cbn [double_until].
  - destruct (Z.ltb_spec n required); [cbn in Hreq; lia |].
    exists n. split; [reflexivity | lia].
  - destruct (Z.ltb_spec n required) as [Hlt | Hge].
    + destruct (IH (n * 2) required) as (m & Hm & Hle); [lia | |].
      * rewrite Nat2Z.inj_succ, Z.pow_succ_r in Hreq by lia. lia.
      * exists m. split; [exact Hm | lia].
    + exists n. split; [reflexivity | lia].
Qed.

Lemma le_pow2_log2_up (a : Z) : a <= 2 ^ Z.log2_up a.
Proof.
  destruct (Z.lt_ge_cases 1 a) as [Hgt | Hle].
  - apply Z.log2_up_spec. exact Hgt.
  - pose proof (Z.log2_up_nonneg a).
    assert (0 < 2 ^ Z.log2_up a) by (apply Z.pow_pos_nonneg; lia). lia.
Qed.

Lemma grow_spec (required_index : Z) (s : scanner) :
  wf_scanner s ->
  exists s',
    grow required_index s = Some s' /\
    f_rest s' = f_rest s /\ window s' = window s /\
    scan_idx s' = scan_idx s /\
    window_start_pos s' = window_start_pos s /\
    window_len s' < window_size s'.
Proof.
  intros (Hidx & Hlen & Hsize & Hpos). unfold grow.
  destruct (Z.eqb_spec (window_len s) (window_size s)) as [Hfull | Hroom].
  - destruct (double_until_some (Z.to_nat (Z.log2_up required_index))
                (window_size s * 2) required_index) as (m & Hm & Hle).
    + lia.
    + rewrite Z2Nat.id by apply Z.log2_up_nonneg.
      pose proof (le_pow2_log2_up required_index).
      assert (0 < 2 ^ Z.log2_up required_index)
        by (apply Z.pow_pos_nonneg; [lia | apply Z.log2_up_nonneg]).
      nia.
    + rewrite Hm. eexists. split; [reflexivity |].
      unfold window_len in *. cbn. repeat split; lia.
  - exists s. repeat split. lia.
Qed.

Lemma file_read_spec (n : Z) (f : list byte) :
  0 < n ->
  let '(chunk, rest) := file_read n f in
  f = chunk ++ rest /\ len chunk <= n /\ (chunk = [] -> f = []).
Proof.
  intros Hn. unfold file_read.
  destruct (Z.ltb_spec n 0); [lia |].
  split; [now rewrite firstn_skipn |].
  split; [rewrite len_firstn by lia; lia |].
  destruct f as [| b f]; [reflexivity |].
  destruct (Z.to_nat n) eqn:Hk; [lia | discriminate].
Qed.

(** [ensure_bytes] returns, keeps the scanner consistent, moves no byte
    past the cursor, and says [True] only when the window is filled up to
    the index asked for. *)
Lemma ensure_bytes_loop_spec (fuel : nat) :
  forall required_index s,
    wf_scanner s -> (length (f_rest s) < fuel)%nat ->
    exists b s',
      ensure_bytes_loop fuel required_index s = Some (b, s') /\
      wf_scanner s' /\
      unscanned s' = unscanned s /\
      scan_idx s' <= scan_idx s /\
      (b = true -> required_index <= window_len s').
Proof.
  induction fuel as [| fuel IH]; intros required_index s Hwf Hfuel; [lia |].
  cbn [ensure_bytes_loop].
  destruct (Z.ltb_spec (window_len s) required_index) as [Hshort | Hfilled].
  2: { exists true, s. repeat split; try lia; apply Hwf. }
  destruct (compact_spec s Hwf) as (Hwfc & Hunc & Hrestc & Hsizec & Hidxc).
  destruct (grow_spec required_index (compact s) Hwfc)
    as (g & Hg & Hrestg & Hwing & Hidxg & Hposg & Hroom).
  rewrite Hg.
  assert (Hread := file_read_spec (window_size g - window_len g) (f_rest g)
                    ltac:(lia)).
  destruct (file_read (window_size g - window_len g) (f_rest g))
    as [chunk rest].
  destruct Hread as (Hsplit & Hchunk & Hempty).
  assert (Hleng : window_len g = window_len (compact s))
    by (unfold window_len; now rewrite Hwing).
  assert (Hwfg : wf_scanner g).
  { destruct Hwfc as (H1 & H2 & H3 & H4).
    unfold wf_scanner. repeat split; lia. }
  assert (Hung : unscanned g = unscanned s).
  { rewrite <- Hunc. unfold unscanned. now rewrite Hrestg, Hleng, Hidxg. }
  destruct chunk as [| b chunk].
  - eexists false, _. split; [reflexivity |].
    specialize (Hempty eq_refl). cbn [app] in Hsplit.
    unfold wf_scanner, unscanned, window_len in *. cbn.
    rewrite Hempty in Hung. rewrite <- Hsplit, Hempty.
    repeat split; try lia; try discriminate.
  - set (s1 := {| f_rest := rest; window := window g ++ b :: chunk;
                  window_size := window_size g; scan_idx := scan_idx g;
                  window_start_pos := window_start_pos g |}).
    assert (Hlen1 : window_len s1 = window_len g + len (b :: chunk)).
    { unfold window_len, s1. cbn [window]. apply len_app. }
    assert (Hrest1 : len (f_rest g) = len (b :: chunk) + len rest).
    { rewrite Hsplit. apply len_app. }
    destruct (IH required_index s1) as (b' & s' & Hloop & Hwf' & Hun' & Hidx' & Hb').
    + destruct Hwfg as (H1 & H2 & H3 & H4).
      unfold wf_scanner. rewrite Hlen1.
      pose proof (len_nonneg (b :: chunk)).
      unfold s1; cbn [scan_idx window_size window_start_pos].
      repeat split; lia.
    + unfold s1; cbn [f_rest].
      assert (length (f_rest s) = length (b :: chunk) + length rest)%nat.
      { rewrite <- Hrestc, <- Hrestg, Hsplit. apply length_app. }
      cbn [length] in *. lia.
    + exists b', s'. split; [exact Hloop |].
      split; [exact Hwf' |].
      split.
      * rewrite Hun', <- Hung. unfold unscanned. rewrite Hlen1, Hrest1.
        unfold s1; cbn [f_rest scan_idx]. lia.
      * split; [| exact Hb'].
        unfold s1 in Hidx'; cbn [scan_idx] in Hidx'. lia.
Qed.

Lemma ensure_bytes_spec (required_index : Z) (s : scanner) :
  wf_scanner s ->
  exists b s',
    ensure_bytes required_index s = Some (b, s') /\
    wf_scanner s' /\
    unscanned s' = unscanned s /\
    scan_idx s' <= scan_idx s /\
    (b = true -> required_index <= window_len s').
Proof.
  intros Hwf. apply ensure_bytes_loop_spec; [exact Hwf | lia].
Qed.

Lemma find_marker_range (w : list byte) :
  forall i, i <= find_marker w i <= i + Z.max 0 (len w - 2).
Proof.
  induction w as [| b0 w IH]; intros i; cbn [find_marker].
  - unfold len; cbn. lia.
  - destruct w as [| b1 [| b2 w']].
    + unfold len; cbn. lia.
    + unfold len; cbn. lia.
    + destruct (is_marker b0 b1 b2).
      * unfold len; cbn [length]. lia.
      * specialize (IH (i + 1)).
        unfold len in *. cbn [length] in *. lia.
Qed.

Lemma advance_of_max (record_size : Z) :
  advance_of record_size = Z.max record_size 12 /\ 12 <= advance_of record_size.
Proof.
  unfold advance_of, MIN_RECORD_BYTES.
  destruct (Z.ltb_spec record_size 12); lia.
Qed.

Lemma probe_window_spec (s : scanner) :
  wf_scanner s -> exists p, probe_window s = Some p /\ probe_ok s p.
Proof.
  intros Hwf. unfold probe_window.
  destruct (ensure_bytes_spec (scan_idx s + 3) s Hwf)
    as (b1 & s1 & He1 & Hwf1 & Hun1 & Hidx1 & Hb1).
  rewrite He1. destruct b1.
  2: { eexists. split; [reflexivity | exact Hwf1]. }
  specialize (Hb1 eq_refl).
  set (i := find_marker (skipn (Z.to_nat (scan_idx s1)) (window s1))
                        (scan_idx s1)).
  assert (Hi : scan_idx s1 <= i <= scan_idx s1
               + Z.max 0 (window_len s1 - scan_idx s1 - 2)).
  { pose proof (find_marker_range
                  (skipn (Z.to_nat (scan_idx s1)) (window s1)) (scan_idx s1))
      as Hr.
    fold i in Hr. destruct Hwf1 as (H1 & _).
    unfold window_len in *. rewrite len_skipn in Hr by lia. lia. }
  destruct (Z.leb_spec (window_len s1) (i + 2)) as [Hnone | Hfound].
  { eexists. split; [reflexivity |].
    destruct Hwf1 as (H1 & H2 & H3 & H4).
    unfold probe_ok, wf_scanner, unscanned, window_len in *. cbn.
    repeat split; lia. }
  destruct (ensure_bytes_spec (i + MIN_RECORD_BYTES) s1 Hwf1)
    as (b2 & s2 & He2 & Hwf2 & Hun2 & Hidx2 & Hb2).
  rewrite He2. destruct b2.
  2: { eexists. split; [reflexivity | exact Hwf2]. }
  set (advance := advance_of _).
  destruct (ensure_bytes_spec (i + advance) s2 Hwf2)
    as (b3 & s3 & He3 & Hwf3 & Hun3 & Hidx3 & Hb3).
  rewrite He3. destruct b3.
  2: { eexists. split; [reflexivity | exact Hwf3]. }
  eexists. split; [reflexivity |].
  specialize (Hb3 eq_refl).
  pose proof (proj2 (advance_of_max
    (Z.lor (window_at s2 (i + 4)) (Z.shiftl (window_at s2 (i + 5)) 8)))).
  fold advance in H.
  destruct Hwf1 as (H1 & _).
  unfold probe_ok. split; [exact Hwf3 |]. repeat split; lia.
Qed.

Section ScannerFacts.

Variable St : Type.
Variable emit : list byte -> Z -> St -> St * option exn.

(** A turn of the loop that continues leaves strictly fewer bytes to
    scan. *)
Lemma scan_step_spec (st : scan_state St) :
  wf_scanner (sc st) ->
  exists c,
    scan_step St emit st = Some c /\
    match c with
    | Continue st' =>
        wf_scanner (sc st') /\ unscanned (sc st') < unscanned (sc st)
    | Break st' => wf_scanner (sc st')
    | Abort st' _ => wf_scanner (sc st')
    end.
Proof.
  intros Hwf. unfold scan_step.
  destruct (probe_window_spec (sc st) Hwf) as (p & Hp & Hok).
  rewrite Hp. destruct p as [s' | s' | s' i advance]; cbn [probe_ok] in Hok.
  - eexists. split; [reflexivity | exact Hok].
  - eexists. split; [reflexivity | exact Hok].
  - destruct Hok as (Hwf' & Hun & Hidx & Hi & Hadv & Hend).
    eexists. split; [reflexivity |].
    unfold accept_candidate.
    destruct (match last_record st with
              | Some lr =>
                  if 0 <=? last_record_pos st
                  then emit lr (get_read_type_from_delta
                                  (window_start_pos s' + i - last_record_pos st))
                            (client st)
                  else (client st, None)
              | None => (client st, None)
              end) as [c raised].
    destruct raised as [e |]; cbn [sc with_client with_scanner].
    + exact Hwf'.
    + destruct Hwf' as (H1 & H2 & H3 & H4).
      unfold wf_scanner, unscanned, window_len in *. cbn.
      repeat split; lia.
Qed.

Lemma scan_loop_terminates (fuel : nat) :
  forall st,
    wf_scanner (sc st) -> unscanned (sc st) < Z.of_nat fuel ->
    exists r, scan_loop St emit fuel st = Some r.
Proof.
  induction fuel as [| fuel IH]; intros st Hwf Hfuel.
  - destruct Hwf as (H1 & _). unfold unscanned in Hfuel.
    pose proof (len_nonneg (f_rest (sc st))). lia.
  - cbn [scan_loop].
    destruct (scan_step_spec st Hwf) as (c & Hc & Hok). rewrite Hc.
    destruct c as [st' | st' | st' e].
    + destruct Hok as (Hwf' & Hless). apply IH; [exact Hwf' | lia].
    + eauto.
    + eauto.
Qed.

Lemma initial_state_wf (window_size0 : Z) (f : list byte) (c : St) :
  0 < window_size0 ->
  wf_scanner (sc (initial_state St window_size0 f c)) /\
  unscanned (sc (initial_state St window_size0 f c)) = len f.
Proof.
  intros Hsize. unfold wf_scanner, unscanned, window_len, len. cbn.
  repeat split; lia.
Qed.

Lemma process_records_from_returns (window_size0 : Z) (f : list byte) (c : St) :
  0 < window_size0 ->
  exists r, process_records_from St emit window_size0 f c = Some r.
Proof.
  intros Hsize. unfold process_records_from.
  destruct (initial_state_wf window_size0 f c Hsize) as (Hwf & Hun).
  destruct (scan_loop_terminates (S (length f)) _ Hwf) as ([st raised] & Hr).
  - rewrite Hun. unfold len. lia.
  - rewrite Hr. destruct raised; eauto.
Qed.

End ScannerFacts.

(** C9. Forward progress and termination: on every finite input the
    scanning loop ends, under any handling of the candidates.  A turn of
    the loop that continues leaves strictly fewer bytes to scan: a marker
    that is found moves the cursor past it by [max(declared_size, 12)],
    at least 12 bytes, so a declared size of zero or below the 12-byte
    header cannot stall the scanner. *)
Theorem scanner_terminates :
  (forall (St : Type) (emit : list byte -> Z -> St -> St * option exn)
          (f : list byte) (c : St),
      exists r, process_records St emit f c = Some r) /\
  (forall self today f, exists st raised,
      run_reader self today f = Some (st, raised)) /\
  (forall (St : Type) (emit : list byte -> Z -> St -> St * option exn)
          (st st' : scan_state St),
      wf_scanner (sc st) ->
      scan_step St emit st = Some (Continue st') ->
      wf_scanner (sc st') /\ unscanned (sc st') < unscanned (sc st)) /\
  (forall s s' i advance,
      wf_scanner s ->
      probe_window s = Some (Candidate s' i advance) ->
      scan_idx s' <= i /\ 12 <= advance /\ i + advance <= window_len s') /\
  (forall record_size,
      advance_of record_size = Z.max record_size 12 /\
      12 <= advance_of record_size) /\
  advance_of 0 = 12.
Proof.
  split; [| split; [| split; [| split; [| split]]]].
  - intros St emit f c. apply process_records_from_returns. reflexivity.
  - intros self today f. unfold run_reader.
    destruct (process_records_from_returns reader (process_record self today)
                (SCAN_CHUNK_SIZE * 2) f new_reader) as ([st raised] & Hr);
      [reflexivity |].
    exists st, raised. exact Hr.
  - intros St emit st st' Hwf Hstep.
    destruct (scan_step_spec St emit st Hwf) as (c & Hc & Hok).
    rewrite Hstep in Hc. injection Hc as <-. exact Hok.
  - intros s s' i advance Hwf Hprobe.
    destruct (probe_window_spec s Hwf) as (p & Hp & Hok).
    rewrite Hprobe in Hp. injection Hp as <-.
    cbn [probe_ok] in Hok. tauto.
  - exact advance_of_max.
  - reflexivity.
Qed.

(* ================================================================== *)
(** ** One-behind emission *)
(* ================================================================== *)

Lemma classified_snoc (init : list (Z * list byte)) :
  forall pos buf next buf',
    classified ((init ++ [(pos, buf)]) ++ [(next, buf')])
    = classified (init ++ [(pos, buf)])
      ++ [(buf, if next - pos =? 68 then 2 else 5)].
Proof.
  induction init as [| [p b] init IH]; intros pos buf next buf'.
  - reflexivity.
  - cbn [app classified].
    destruct init as [| [p1 b1] init']; cbn [app] in *.
    + reflexivity.
    + specialize (IH pos buf next buf'). cbn [app] in IH.
      rewrite IH. reflexivity.
Qed.

Lemma one_behind_snoc (init : list (Z * list byte)) :
  forall pos buf,
    one_behind (init ++ [(pos, buf)])
    = classified (init ++ [(pos, buf)]) ++ [(buf, 2)].
Proof.
  induction init as [| [p b] init IH]; intros pos buf.
  - reflexivity.
  - cbn [app one_behind classified].
    destruct init as [| [p1 b1] init']; cbn [app] in *.
    + reflexivity.
    + specialize (IH pos buf). cbn [app] in IH. rewrite IH. reflexivity.
Qed.

Section LoopInvariant.

Variable St : Type.
Variable emit : list byte -> Z -> St -> St * option exn.

(** Induction along the [while True] loop. *)
Lemma scan_loop_invariant (P : scan_state St -> Prop)
    (Q : scan_state St * option exn -> Prop) :
  (forall st c,
      P st -> scan_step St emit st = Some c ->
      match c with
      | Continue st' => P st'
      | Break st' => Q (st', None)
      | Abort st' e => Q (st', Some e)
      end) ->
  forall fuel st r, P st -> scan_loop St emit fuel st = Some r -> Q r.
Proof.
  intros Hstep fuel.
  induction fuel as [| fuel IH]; intros st r HP Hloop; [discriminate |].
  cbn [scan_loop] in Hloop.
  destruct (scan_step St emit st) as [c |] eqn:Hc; [| discriminate].
  specialize (Hstep st c HP Hc).
  destruct c as [st' | st' | st' e].
  - exact (IH st' r Hstep Hloop).
  - injection Hloop as <-. exact Hstep.
  - injection Hloop as <-. exact Hstep.
Qed.

(** More fuel does not change what the loop returns. *)
Lemma scan_loop_more_fuel (fuel : nat) :
  forall st r extra,
    scan_loop St emit fuel st = Some r ->
    scan_loop St emit (fuel + extra) st = Some r.
Proof.
  induction fuel as [| fuel IH]; intros st r extra Hloop; [discriminate |].
  cbn [scan_loop Nat.add] in *.
  destruct (scan_step St emit st) as [[st' | st' | st' e] |];
    try exact Hloop; try discriminate.
  now apply IH.
Qed.

End LoopInvariant.

Lemma trace_step (st : scan_state (list (list byte * Z)))
    (c : control (list (list byte * Z))) :
  trace_ok st -> scan_step _ log_candidate st = Some c ->
  match c with
  | Continue st' => trace_ok st'
  | Break st' => trace_ok st' /\ @None exn = None
  | Abort st' e => trace_ok st' /\ Some e = None
  end.
Proof.
  intros (Hwf & Hcount & Hlog & Hpend) Hstep.
  unfold scan_step in Hstep.
  destruct (probe_window_spec (sc st) Hwf) as (p & Hp & Hok).
  rewrite Hp in Hstep.
  destruct p as [s' | s' | s' i advance]; cbn [probe_ok] in Hok;
    injection Hstep as <-.
  - split; [| reflexivity]. unfold trace_ok, pending_ok in *.
    cbn. auto.
  - unfold trace_ok, pending_ok in *. cbn. tauto.
  - destruct Hok as (Hwf' & Hun & Hidx & Hi & Hadv & Hend).
    assert (Hpos : 0 <= window_start_pos s' + i)
      by (destruct Hwf' as (_ & _ & _ & H4); lia).
    assert (Hwf'' : wf_scanner (set_scan_idx s' (i + advance))).
    { destruct Hwf' as (H1 & H2 & H3 & H4).
      unfold wf_scanner, window_len in *. cbn. repeat split; lia. }
    unfold accept_candidate, pending_ok in *.
    destruct (last_record st) as [lr |].
    + destruct Hpend as (Hlast & init & Hfound).
      destruct (Z.leb_spec 0 (last_record_pos st)); [| lia].
      unfold log_candidate. unfold trace_ok, pending_ok. cbn.
      split; [exact Hwf'' |].
      split; [rewrite len_app, Hcount; reflexivity |].
      split.
      * rewrite Hfound, classified_snoc, <- Hfound, <- Hlog.
        unfold get_read_type_from_delta. reflexivity.
      * split; [exact Hpos | eauto].
    + unfold trace_ok, pending_ok. cbn.
      split; [exact Hwf'' |].
      split; [rewrite len_app, Hcount; reflexivity |].
      rewrite Hpend in *. cbn.
      split; [exact Hlog |].
      split; [exact Hpos | exists []; reflexivity].
Qed.

(** The log of the scanner is the one-behind emission of the candidates
    it found. *)
Lemma scan_trace_one_behind (f : list byte) :
  exists st,
    scan_trace f = Some (st, None) /\
    record_count st = len (found st) /\
    client st = one_behind (found st).
Proof.
  unfold scan_trace, process_records, process_records_from.
  destruct (initial_state_wf (list (list byte * Z)) (SCAN_CHUNK_SIZE * 2) f []
              eq_refl) as (Hwf & Hun).
  destruct (scan_loop_terminates _ log_candidate (S (length f)) _ Hwf)
    as ([st raised] & Hloop); [rewrite Hun; unfold len; lia |].
  rewrite Hloop.
  assert (Hinv : trace_ok st /\ raised = None).
  { refine (scan_loop_invariant _ log_candidate trace_ok
              (fun r => trace_ok (fst r) /\ snd r = None) _
              (S (length f)) _ (st, raised) _ Hloop).
    - intros st0 c Hok Hstep. pose proof (trace_step st0 c Hok Hstep) as H.
      destruct c; cbn [fst snd]; [exact H | exact H | exact H].
    - unfold trace_ok, pending_ok. cbn. auto. }
  destruct Hinv as ((_ & Hcount & Hlog & Hpend) & ->).
  unfold flush, pending_ok, log_candidate in *.
  destruct (last_record st) as [lr |].
  - destruct Hpend as (_ & init & Hfound).
    eexists. split; [reflexivity |]. cbn.
    split; [exact Hcount |].
    rewrite Hlog, Hfound. symmetry. apply one_behind_snoc.
  - exists st. split; [reflexivity |].
    split; [exact Hcount |].
    rewrite Hlog, Hpend. reflexivity.
Qed.

(* ================================================================== *)
(** ** The reader replays the scanner's emissions *)
(* ================================================================== *)

Section Replay.

Variable St : Type.
Variable emit : list byte -> Z -> St -> St * option exn.

Lemma replay_snoc (calls : list (list byte * Z)) :
  forall c0 c rec read_type,
    replay emit calls c0 = (c, None) ->
    replay emit (calls ++ [(rec, read_type)]) c0 = emit rec read_type c.
Proof.
  induction calls as [| [r t] calls IH]; intros c0 c rec read_type Hrun.
  - injection Hrun as ->. cbn.
    destruct (emit rec read_type c) as [c' [e |]]; reflexivity.
  - cbn [app replay] in *.
    destruct (emit r t c0) as [c1 [e |]]; [discriminate |].
    now apply IH.
Qed.

Lemma replay_raised_app (calls more : list (list byte * Z)) :
  forall c0 c e,
    replay emit calls c0 = (c, Some e) ->
    replay emit (calls ++ more) c0 = (c, Some e).
Proof.
  induction calls as [| [r t] calls IH]; intros c0 c e Hrun.
  - discriminate.
  - cbn [app replay] in *.
    destruct (emit r t c0) as [c1 [e1 |]]; [exact Hrun |].
    now apply IH.
Qed.

Variable c0 : St.

Lemma in_step_scan_step (tr : scan_state (list (list byte * Z)))
    (st : scan_state St) (ct : control (list (list byte * Z))) :
  in_step emit c0 tr st ->
  scan_step _ log_candidate tr = Some ct ->
  match ct with
  | Continue tr' =>
      (exists st', scan_step St emit st = Some (Continue st') /\
                   in_step emit c0 tr' st') \/
      (exists st' e, scan_step St emit st = Some (Abort st' e) /\
                     replay emit (client tr') c0 = (client st', Some e))
  | Break tr' =>
      exists st', scan_step St emit st = Some (Break st') /\ in_step emit c0 tr' st'
  | Abort _ _ => False
  end.
Proof.
  intros (Hsc & Hcount & Hlast & Hpos & Hfound & Hrun) Hstep.
  unfold scan_step in *. rewrite <- Hsc.
  destruct (probe_window (sc tr)) as [[s' | s' | s' i advance] |];
    try discriminate; injection Hstep as <-.
  - eexists. split; [reflexivity |]. unfold in_step. cbn. auto 10.
  - left. eexists. split; [reflexivity |]. unfold in_step. cbn. auto 10.
  - unfold accept_candidate. rewrite <- Hlast, <- Hpos.
    destruct (last_record tr) as [lr |].
    + destruct (0 <=? last_record_pos tr).
      * unfold log_candidate at 1.
        pose proof (replay_snoc (client tr) c0 (client st) lr
                      (get_read_type_from_delta
                         (window_start_pos s' + i - last_record_pos tr))
                      Hrun) as Hsnoc.
        destruct (emit lr _ (client st)) as [c [e |]].
        -- right. eexists _, e. split; [reflexivity | exact Hsnoc].
        -- left. eexists. split; [reflexivity |].
           unfold in_step. cbn. rewrite Hcount, Hfound. auto 10.
      * left. eexists. split; [reflexivity |].
        unfold in_step. cbn. rewrite Hcount, Hfound. auto 10.
    + left. eexists. split; [reflexivity |].
      unfold in_step. cbn. rewrite Hcount, Hfound. auto 10.
Qed.

(** The log only grows. *)
Lemma log_grows (fuel : nat) (tr : scan_state (list (list byte * Z)))
    (r : scan_state (list (list byte * Z)) * option exn) :
  scan_loop _ log_candidate fuel tr = Some r ->
  exists more, client (fst r) = client tr ++ more.
Proof.
  apply (scan_loop_invariant _ log_candidate
           (fun st => exists more, client st = client tr ++ more)
           (fun r => exists more, client (fst r) = client tr ++ more)).
  - intros st c (more & Hmore) Hstep. unfold scan_step in Hstep.
    destruct (probe_window (sc st)) as [[s' | s' | s' i advance] |];
      try discriminate; injection Hstep as <-; cbn; eauto.
    unfold accept_candidate, log_candidate.
    destruct (last_record st) as [lr |]; [| cbn; eauto].
    destruct (0 <=? last_record_pos st); cbn; [| eauto].
    rewrite Hmore, <- app_assoc. eauto.
  - exists []. now rewrite app_nil_r.
Qed.

Lemma in_step_scan_loop (fuel : nat) :
  forall tr st rt,
    in_step emit c0 tr st ->
    scan_loop _ log_candidate fuel tr = Some rt ->
    exists st' raised,
      scan_loop St emit fuel st = Some (st', raised) /\
      match raised with
      | None => in_step emit c0 (fst rt) st'
      | Some e =>
          exists calls more,
            client (fst rt) = calls ++ more /\
            replay emit calls c0 = (client st', Some e)
      end.
Proof.
  induction fuel as [| fuel IH]; intros tr st rt Hin Hloop; [discriminate |].
  cbn [scan_loop] in *.
  destruct (scan_step _ log_candidate tr) as [ct |] eqn:Hct; [| discriminate].
  pose proof (in_step_scan_step tr st ct Hin Hct) as Hstep.
  destruct ct as [tr' | tr' | tr' e]; [| | contradiction].
  - destruct Hstep as [(st' & Hst & Hin') | (st' & e & Hst & Hrun)];
      rewrite Hst.
    + exact (IH tr' st' rt Hin' Hloop).
    + exists st', (Some e). split; [reflexivity |].
      destruct (log_grows fuel tr' rt Hloop) as (more & Hmore).
      exists (client tr'), more. split; assumption.
  - destruct Hstep as (st' & Hst & Hin'). rewrite Hst.
    injection Hloop as <-.
    exists st', None. split; [reflexivity | exact Hin'].
Qed.

(** Whatever [process_record] does, the run of the scanner with it is
    the replay of the emissions the scanner alone produces. *)
Lemma process_records_from_replay (window_size0 : Z) (f : list byte) :
  forall tr,
    process_records_from _ log_candidate window_size0 f [] = Some (tr, None) ->
    exists st raised,
      process_records_from St emit window_size0 f c0 = Some (st, raised) /\
      (client st, raised) = replay emit (client tr) c0.
Proof.
  intros tr Htrace.
  unfold process_records_from in *.
  destruct (scan_loop _ log_candidate (S (length f))
              (initial_state _ window_size0 f []))
    as [[tr0 raised0] |] eqn:Hloop; [| discriminate].
  assert (Hin0 : in_step emit c0 (initial_state _ window_size0 f [])
                         (initial_state St window_size0 f c0)).
  { unfold in_step, initial_state. cbn. auto 10. }
  destruct (in_step_scan_loop _ _ _ _ Hin0 Hloop)
    as (st' & raised & Hreal & Hrel).
  rewrite Hreal. cbn [fst] in Hrel.
  assert (Hflush : exists more, client tr = client tr0 ++ more).
  { destruct raised0 as [e0 |].
    - injection Htrace as <-. exists []. now rewrite app_nil_r.
    - unfold flush, log_candidate in Htrace.
      destruct (last_record tr0); injection Htrace as <-; cbn;
        [eauto | exists []; now rewrite app_nil_r]. }
  destruct raised as [e |].
  - destruct Hrel as (calls & more & Hlog & Hrun).
    destruct Hflush as (more' & Hfl).
    exists st', (Some e). split; [reflexivity |].
    rewrite Hfl, Hlog, <- app_assoc. symmetry.
    now apply replay_raised_app.
  - destruct Hrel as (Hsc & Hcount & Hlast & Hpos & Hfound & Hrun).
    destruct raised0 as [e0 |]; [discriminate |].
    unfold flush, log_candidate in *. rewrite <- Hlast.
    destruct (last_record tr0) as [lr |]; injection Htrace as <-.
    + pose proof (replay_snoc (client tr0) c0 (client st') lr 2 Hrun) as Hs.
      cbn [client with_client]. rewrite Hs.
      destruct (emit lr 2 (client st')) as [c raised].
      eexists _, raised. split; reflexivity.
    + exists st', None. split; [reflexivity |]. now rewrite Hrun.
Qed.

End Replay.

Lemma scan_trace_unfold (f : list byte) :
  scan_trace f
  = process_records_from _ log_candidate (SCAN_CHUNK_SIZE * 2) f [].
Proof. reflexivity. Qed.

Lemma run_reader_unfold (self : options) (today : Z * Z * Z) (f : list byte) :
  run_reader self today f
  = process_records_from reader (process_record self today)
      (SCAN_CHUNK_SIZE * 2) f new_reader.
Proof. reflexivity. Qed.

(** The reader run on a file is the replay of the scanner's log. *)
Lemma run_reader_replay (self : options) (today : Z * Z * Z) (f : list byte)
    (tr : scan_state (list (list byte * Z))) :
  scan_trace f = Some (tr, None) ->
  exists st raised,
    run_reader self today f = Some (st, raised) /\
    (client st, raised)
    = replay (process_record self today) (client tr) new_reader.
Proof.
  rewrite scan_trace_unfold, run_reader_unfold.
  apply process_records_from_replay.
Qed.

(* ================================================================== *)
(** ** Resynchronisation on a stream that fits the window *)
(* ================================================================== *)

Lemma ensure_bytes_loaded (window_size0 : Z) (f : list byte) (i required : Z) :
  required <= len f ->
  ensure_bytes required (loaded window_size0 f i)
  = Some (true, loaded window_size0 f i).
Proof.
  intros Hreq. unfold ensure_bytes. cbn [f_rest loaded length].
  cbn [ensure_bytes_loop]. unfold window_len. cbn [window loaded].
  destruct (Z.ltb_spec (len f) required); [lia | reflexivity].
Qed.

Lemma ensure_bytes_loaded_end (window_size0 : Z) (f : list byte)
    (i required : Z) :
  0 < window_size0 -> len f <= window_size0 -> 0 <= i <= len f ->
  len f < required ->
  exists s', ensure_bytes required (loaded window_size0 f i) = Some (false, s').
Proof.
  intros Hsize Hfit Hi Hreq.
  assert (Hwf : wf_scanner (loaded window_size0 f i)).
  { unfold wf_scanner, window_len. cbn. repeat split; lia. }
  destruct (ensure_bytes_spec required _ Hwf)
    as (b & s' & He & Hwf' & Hun & Hidx & Hb).
  exists s'. rewrite He. destruct b; [| reflexivity].
  specialize (Hb eq_refl). exfalso.
  destruct Hwf' as (H1 & _).
  unfold unscanned, window_len in *. cbn in Hun, Hidx.
  pose proof (len_nonneg (f_rest s')). unfold len in *. cbn [length] in *.
  lia.
Qed.

Lemma ensure_bytes_first_read (St : Type) (window_size0 : Z) (f : list byte)
    (c : St) :
  0 < window_size0 -> 3 <= len f <= window_size0 ->
  ensure_bytes 3 (sc (initial_state St window_size0 f c))
  = Some (true, loaded window_size0 f 0).
Proof.
  intros Hsize Hlen. unfold ensure_bytes, initial_state.
  cbn [sc f_rest ensure_bytes_loop].
  unfold window_len at 1. cbn [window]. change (len []) with 0.
  cbn [Z.ltb Z.compare].
  unfold grow, compact. cbn [scan_idx Z.ltb Z.compare].
  unfold window_len. cbn [window window_size f_rest scan_idx window_start_pos].
  change (len (@nil byte)) with 0.
  destruct (Z.eqb_spec 0 window_size0); [lia |].
  cbn [window window_size f_rest scan_idx window_start_pos].
  unfold file_read. rewrite Z.sub_0_r.
  destruct (Z.ltb_spec window_size0 0); [lia |].
  rewrite firstn_all2 by (unfold len in Hlen; lia).
  rewrite skipn_all2 by (unfold len in Hlen; lia).
  destruct f as [| b f']; [unfold len in Hlen; cbn in Hlen; lia |].
  cbn [app].
  destruct (length (b :: f')) eqn:Hn; [discriminate |].
  cbn [ensure_bytes_loop]. unfold window_len. cbn [window].
  destruct (Z.ltb_spec (len (b :: f')) 3); [lia | reflexivity].
Qed.

Lemma find_marker_skips_noise (noise : list byte) :
  forall i tl,
    has_marker noise = false ->
    find_marker (noise ++ Byte.x56 :: Byte.x49 :: Byte.x42 :: tl) i
    = i + len noise.
Proof.
  induction noise as [| n0 noise IH]; intros i tl Hnoise.
  - cbn. lia.
  - replace (i + len (n0 :: noise)) with (i + 1 + len noise)
      by (unfold len; cbn [length]; lia).
    destruct noise as [| n1 [| n2 noise']].
    + cbn [app find_marker]. unfold is_marker at 1.
      change (ord Byte.x56 =? 73) with false.
      rewrite andb_false_r. cbn [andb].
      apply (IH (i + 1) tl). reflexivity.
    + cbn [app find_marker]. unfold is_marker at 1.
      change (ord Byte.x56 =? 66) with false.
      rewrite andb_false_r.
      apply (IH (i + 1) tl). reflexivity.
    + cbn [has_marker] in Hnoise.
      apply orb_false_iff in Hnoise as [Hhere Hrest].
      cbn [app find_marker]. rewrite Hhere.
      apply (IH (i + 1) tl). exact Hrest.
Qed.

Lemma nth_after {A : Type} (pre l : list A) (k : nat) (d : A) (n : Z) :
  n = len pre + Z.of_nat k ->
  nth (Z.to_nat n) (pre ++ l) d = nth k l d.
Proof.
  intros ->. unfold len.
  replace (Z.to_nat (Z.of_nat (length pre) + Z.of_nat k))
    with (length pre + k)%nat by lia.
  apply app_nth2_plus.
Qed.

Lemma skipn_after {A : Type} (pre l : list A) (n : Z) :
  n = len pre -> skipn (Z.to_nat n) (pre ++ l) = l.
Proof.
  intros ->. unfold len. rewrite Nat2Z.id.
  rewrite skipn_app, skipn_all, Nat.sub_diag. reflexivity.
Qed.

Lemma firstn_exact {A : Type} (l post : list A) (n : Z) :
  n = len l -> firstn (Z.to_nat n) (l ++ post) = l.
Proof.
  intros ->. unfold len. rewrite Nat2Z.id.
  rewrite firstn_app, firstn_all, Nat.sub_diag. cbn. apply app_nil_r.
Qed.

Lemma framed_record_len (r : list byte) : framed_record r -> len r = 68.
Proof.
  intros (ty & body & -> & Hbody). unfold len.
  rewrite length_app, Hbody. reflexivity.
Qed.

(** With the whole file in the window, a framed record that follows
    marker-free bytes is found where it starts and spans 68 bytes. *)
Lemma probe_window_loaded (window_size0 : Z)
    (pre noise r post : list byte) :
  has_marker noise = false -> framed_record r ->
  probe_window (loaded window_size0 (pre ++ noise ++ r ++ post) (len pre))
  = Some (Candidate
            (loaded window_size0 (pre ++ noise ++ r ++ post) (len pre))
            (len pre + len noise) 68).
Proof.
  intros Hnoise Hframed.
  pose proof (framed_record_len r Hframed) as Hr.
  destruct Hframed as (ty & body & Hshape & Hbody).
  remember (pre ++ noise ++ r ++ post) as f eqn:Hf.
  assert (Hlen : len f = len pre + len noise + 68 + len post).
  { rewrite Hf, !len_app, Hr. lia. }
  pose proof (len_nonneg pre). pose proof (len_nonneg noise).
  pose proof (len_nonneg post).
  assert (Hskip : skipn (Z.to_nat (len pre)) f
                  = noise ++ Byte.x56 :: Byte.x49 :: Byte.x42
                      :: ty :: Byte.x44 :: Byte.x00 :: body ++ post).
  { rewrite Hf, (skipn_after pre _ (len pre) eq_refl), Hshape.
    reflexivity. }
  assert (H4 : nth (Z.to_nat (len pre + len noise + 4)) f Byte.x00
               = Byte.x44).
  { rewrite Hf, app_assoc.
    rewrite (nth_after (pre ++ noise) (r ++ post) 4 Byte.x00)
      by (rewrite len_app; lia).
    rewrite Hshape. reflexivity. }
  assert (H5 : nth (Z.to_nat (len pre + len noise + 5)) f Byte.x00
               = Byte.x00).
  { rewrite Hf, app_assoc.
    rewrite (nth_after (pre ++ noise) (r ++ post) 5 Byte.x00)
      by (rewrite len_app; lia).
    rewrite Hshape. reflexivity. }
  unfold probe_window.
  cbn [scan_idx loaded].
  rewrite ensure_bytes_loaded by lia.
  cbn [scan_idx window loaded].
  rewrite Hskip, find_marker_skips_noise by exact Hnoise.
  unfold window_len. cbn [window loaded].
  destruct (Z.leb_spec (len f) (len pre + len noise + 2)); [lia |].
  unfold MIN_RECORD_BYTES.
  rewrite ensure_bytes_loaded by lia.
  unfold window_at. cbn [window loaded].
  rewrite H4, H5.
  change (advance_of (Z.lor (ord Byte.x44) (Z.shiftl (ord Byte.x00) 8)))
    with 68.
  rewrite ensure_bytes_loaded by lia.
  reflexivity.
Qed.

Lemma probe_window_first (St : Type) (window_size0 : Z) (f : list byte)
    (c : St) :
  0 < window_size0 -> 3 <= len f <= window_size0 ->
  probe_window (sc (initial_state St window_size0 f c))
  = probe_window (loaded window_size0 f 0).
Proof.
  intros Hsize Hlen. unfold probe_window.
  change (scan_idx (sc (initial_state St window_size0 f c)) + 3) with 3.
  change (scan_idx (loaded window_size0 f 0) + 3) with 3.
  rewrite (ensure_bytes_first_read St window_size0 f c Hsize Hlen).
  rewrite (ensure_bytes_loaded window_size0 f 0 3) by lia.
  reflexivity.
Qed.

Lemma store_candidate_held (last_record r : list byte) :
  len last_record = 70 -> len r = 68 ->
  store_candidate last_record r 68 = held r.
Proof.
  intros Hlr Hr. unfold store_candidate, held.
  assert (Htail : len (skipn (Z.to_nat 68) last_record) = 2)
    by (rewrite len_skipn; lia).
  rewrite len_app, Hr, Htail. cbn [Z.add Z.ltb Z.compare Pos.add].
  change (68 <? 70) with true. cbv iota.
  rewrite (firstn_exact r _ 68) by lia.
  reflexivity.
Qed.

Lemma len_held (r : list byte) : len r = 68 -> len (held r) = 70.
Proof. intros Hr. unfold held. rewrite len_app, Hr. reflexivity. Qed.

(** Logging a framed record found in a loaded window. *)
Lemma accept_candidate_logged (st : scan_state (list (list byte * Z)))
    (window_size0 : Z) (pre noise r post : list byte) :
  framed_record r ->
  match last_record st with
  | Some lr => len lr = 70 /\ 0 <= last_record_pos st
  | None => True
  end ->
  accept_candidate _ log_candidate st
    (loaded window_size0 (pre ++ noise ++ r ++ post) (len pre))
    (len pre + len noise) 68
  = Continue
      {| sc := loaded window_size0 (pre ++ noise ++ r ++ post)
                 (len pre + len noise + 68);
         record_count := record_count st + 1;
         last_record := Some (held r);
         last_record_pos := len pre + len noise;
         client :=
           match last_record st with
           | Some lr =>
               client st
               ++ [(lr, get_read_type_from_delta
                          (len pre + len noise - last_record_pos st))]
           | None => client st
           end;
         found := found st ++ [(len pre + len noise, held r)] |}.
Proof.
  intros Hframed Hlast.
  pose proof (framed_record_len r Hframed) as Hr.
  pose proof (len_nonneg pre). pose proof (len_nonneg noise).
  assert (Hsrc : firstn (Z.to_nat 68)
                   (skipn (Z.to_nat (len pre + len noise))
                      (pre ++ noise ++ r ++ post)) = r).
  { rewrite app_assoc.
    rewrite (skipn_after (pre ++ noise) (r ++ post))
      by (rewrite len_app; lia).
    apply firstn_exact. lia. }
  unfold accept_candidate. cbn [window_start_pos window loaded Z.add].
  destruct (last_record st) as [lr |].
  - destruct Hlast as (Hlr & Hpos).
    destruct (Z.leb_spec 0 (last_record_pos st)); [| lia].
    unfold log_candidate. rewrite Hlr.
    change (Z.min 68 70) with 68. rewrite Hsrc.
    rewrite (store_candidate_held lr r Hlr Hr).
    reflexivity.
  - change (len (repeat Byte.x00 (Z.to_nat RECORD_BUFFER_SIZE))) with 70.
    change (Z.min 68 70) with 68. rewrite Hsrc.
    rewrite (store_candidate_held
               (repeat Byte.x00 (Z.to_nat RECORD_BUFFER_SIZE)) r eq_refl Hr).
    reflexivity.
Qed.

(** The scanner on two framed records with marker-free bytes between
    them, the whole stream fitting the window: both records are found
    where they start, the first is handed over with the read type of
    its distance to the second, the second with read type 2. *)
Lemma trace_two_records (window_size0 : Z) (r1 noise r2 : list byte) :
  0 < window_size0 ->
  framed_record r1 -> framed_record r2 -> has_marker noise = false ->
  len (r1 ++ noise ++ r2) <= window_size0 ->
  exists tr,
    process_records_from _ log_candidate window_size0 (r1 ++ noise ++ r2) []
    = Some (tr, None) /\
    record_count tr = 2 /\
    found tr = [(0, held r1); (68 + len noise, held r2)] /\
    client tr = [(held r1, get_read_type_from_delta (68 + len noise));
                 (held r2, 2)].
Proof.
  intros Hsize Hf1 Hf2 Hnoise Hfit.
  pose proof (framed_record_len r1 Hf1) as Hr1.
  pose proof (framed_record_len r2 Hf2) as Hr2.
  pose proof (len_nonneg noise) as Hn.
  remember (r1 ++ noise ++ r2) as f eqn:Hf.
  assert (Hlen : len f = 136 + len noise)
    by (rewrite Hf, !len_app, Hr1, Hr2; lia).
  (* first turn: the first record, at offset 0 *)
  assert (Hp1 : probe_window (sc (initial_state (list (list byte * Z)) window_size0 f []))
                = Some (Candidate (loaded window_size0 f 0) 0 68)).
  { rewrite probe_window_first by lia.
    pose proof (probe_window_loaded window_size0 [] [] r1 (noise ++ r2)
                  eq_refl Hf1) as Hp.
    cbn [app] in Hp. rewrite <- Hf in Hp. exact Hp. }
  assert (Ha1 : accept_candidate _ log_candidate
                  (initial_state (list (list byte * Z)) window_size0 f [])
                  (loaded window_size0 f 0) 0 68
                = Continue
                    {| sc := loaded window_size0 f 68;
                       record_count := 1;
                       last_record := Some (held r1);
                       last_record_pos := 0;
                       client := [];
                       found := [(0, held r1)] |}).
  { pose proof (accept_candidate_logged (initial_state (list (list byte * Z)) window_size0 f [])
                  window_size0 [] [] r1 (noise ++ r2) Hf1 I) as Ha.
    cbn [app] in Ha. rewrite <- Hf in Ha. exact Ha. }
  set (st1 := {| sc := loaded window_size0 f 68; record_count := 1;
                 last_record := Some (held r1); last_record_pos := 0;
                 client := @nil (list byte * Z);
                 found := [(0, held r1)] |}) in *.
  (* second turn: the second record, after the noise *)
  assert (Hp2 : probe_window (sc st1)
                = Some (Candidate (loaded window_size0 f 68)
                          (68 + len noise) 68)).
  { pose proof (probe_window_loaded window_size0 r1 noise r2 [] Hnoise Hf2)
      as Hp.
    rewrite app_nil_r, <- Hf, Hr1 in Hp. exact Hp. }
  assert (Ha2 : accept_candidate _ log_candidate st1
                  (loaded window_size0 f 68) (68 + len noise) 68
                = Continue
                    {| sc := loaded window_size0 f (68 + len noise + 68);
                       record_count := 2;
                       last_record := Some (held r2);
                       last_record_pos := 68 + len noise;
                       client := [(held r1, get_read_type_from_delta
                                              (68 + len noise))];
                       found := [(0, held r1);
                                 (68 + len noise, held r2)] |}).
  { pose proof (accept_candidate_logged st1 window_size0 r1 noise r2 []
                  Hf2) as Ha.
    rewrite app_nil_r, <- Hf, Hr1 in Ha.
    rewrite Ha; [| cbn; split; [apply len_held; exact Hr1 | lia]].
    cbn [last_record last_record_pos client found record_count st1 app].
    rewrite Z.sub_0_r. reflexivity. }
  set (st2 := {| sc := loaded window_size0 f (68 + len noise + 68);
                 record_count := 2;
                 last_record := Some (held r2);
                 last_record_pos := 68 + len noise;
                 client := [(held r1, get_read_type_from_delta
                                        (68 + len noise))];
                 found := [(0, held r1); (68 + len noise, held r2)] |}) in *.
  (* third turn: nothing is left *)
  destruct (ensure_bytes_loaded_end window_size0 f (68 + len noise + 68)
              (68 + len noise + 68 + 3)) as (s3 & He3); try lia.
  assert (Hp3 : probe_window (sc st2) = Some (Exhausted s3)).
  { unfold probe_window. cbn [sc st2 scan_idx loaded]. now rewrite He3. }
  (* the three turns, and the flush *)
  unfold process_records_from.
  replace (S (length f)) with (3 + (length f - 2))%nat
    by (unfold len in Hlen; lia).
  rewrite (scan_loop_more_fuel _ log_candidate 3 _
             (with_scanner _ st2 s3, None)).
  - eexists. split; [reflexivity |].
    unfold flush, log_candidate. cbn. auto.
  - cbn [scan_loop]. unfold scan_step at 1. rewrite Hp1, Ha1.
    unfold scan_step at 1. rewrite Hp2, Ha2.
    unfold scan_step at 1. rewrite Hp3. reflexivity.
Qed.

(** Read type 5 is not one the mask accepts: the record is skipped. *)
Lemma process_record_read_type_5 (self : options) (today : Z * Z * Z)
    (rec : list byte) (rd : reader) :
  len rec = RECORD_BUFFER_SIZE ->
  process_record self today rec 5 rd = (skip_record rd, None).
Proof.
  intros Hlen.
  apply (process_record_skipped self today rec 5 rd NotValidToProcess).
  rewrite (examine_record_stages self today rec 5 _ Hlen
             (is_valid_to_process_mask _ 5 ltac:(lia))).
  change ((5 =? 0) || (5 =? 2) || (5 =? 6)) with false.
  now rewrite andb_false_r.
Qed.

Lemma read_type_after_noise (noise : list byte) :
  get_read_type_from_delta (68 + len noise)
  = if len noise =? 0 then 2 else 5.
Proof.
  unfold get_read_type_from_delta.
  destruct (Z.eqb_spec (len noise) 0) as [-> | Hne]; [reflexivity |].
  destruct (Z.eqb_spec (68 + len noise) 68); [lia | reflexivity].
Qed.

(** C1 (as amended). Resynchronisation: on a stream of two framed 68-byte
    records with marker-free bytes between them that fits the scan window,
    the scanner skips the noise and finds both records where they start,
    with the same 70-byte buffers as without noise.  The second record is
    handed over with read type 2, as without noise; the first is handed
    over with the read type of its distance to the second: 2 when there
    is no noise, 5 when there is some, and then the validator skips it
    and the run ends as the processing of the second record alone. *)
Theorem resync_within_window (self : options) (today : Z * Z * Z)
    (r1 noise r2 : list byte) :
  framed_record r1 -> framed_record r2 -> has_marker noise = false ->
  len (r1 ++ noise ++ r2) <= SCAN_CHUNK_SIZE * 2 ->
  exists tr,
    scan_trace (r1 ++ noise ++ r2) = Some (tr, None) /\
    found tr = [(0, held r1); (68 + len noise, held r2)] /\
    client tr = [(held r1, if len noise =? 0 then 2 else 5); (held r2, 2)] /\
    exists st raised,
      run_reader self today (r1 ++ noise ++ r2) = Some (st, raised) /\
      (client st, raised)
      = replay (process_record self today)
          [(held r1, if len noise =? 0 then 2 else 5); (held r2, 2)]
          new_reader /\
      (noise <> [] ->
       (client st, raised)
       = process_record self today (held r2) 2 (skip_record new_reader)).
Proof.
  intros Hf1 Hf2 Hnoise Hfit.
  destruct (trace_two_records (SCAN_CHUNK_SIZE * 2) r1 noise r2
              eq_refl Hf1 Hf2 Hnoise Hfit)
    as (tr & Htrace & _ & Hfound & Hlog).
  rewrite read_type_after_noise in Hlog.
  rewrite <- scan_trace_unfold in Htrace.
  exists tr. repeat (split; [assumption |]).
  destruct (run_reader_replay self today _ tr Htrace)
    as (st & raised & Hrun & Hreplay).
  rewrite Hlog in Hreplay.
  exists st, raised. repeat (split; [assumption |]).
  intros Hsome. rewrite Hreplay.
  destruct (Z.eqb_spec (len noise) 0) as [Hz | _].
  { destruct noise; [contradiction | discriminate]. }
  cbn [replay].
  rewrite process_record_read_type_5
    by (apply len_held, framed_record_len; exact Hf1).
  destruct (process_record self today (held r2) 2 (skip_record new_reader))
    as [c [e |]]; reflexivity.
Qed.

Lemma sample_record_framed : framed_record sample_record.
Proof.
  exists Byte.x88, (skipn 6 sample_record). split; reflexivity.
Qed.

Lemma resync_within_window_witness :
  exists tr,
    scan_trace (sample_record ++ [Byte.x00; Byte.x01] ++ sample_record)
    = Some (tr, None) /\
    client tr = [(held sample_record, 5); (held sample_record, 2)].
Proof.
  destruct (resync_within_window plain_options sample_day sample_record
              [Byte.x00; Byte.x01] sample_record
              sample_record_framed sample_record_framed eq_refl)
    as (tr & Htrace & _ & Hlog & _).
  - vm_compute. discriminate.
  - exists tr. split; assumption.
Defined.

(** C1 (as stated) fails: one noise byte between two copies of a record
    that decodes changes the output, since the first copy is then handed
    over with read type 5 and skipped. *)
Lemma resync_counterexample :
  framed_record sample_record /\
  has_marker [Byte.x00] = false /\
  exists st st',
    run_reader plain_options sample_day (sample_record ++ sample_record)
    = Some (st, None) /\
    run_reader plain_options sample_day
      (sample_record ++ [Byte.x00] ++ sample_record)
    = Some (st', None) /\
    length (out (client st)) = 2%nat /\
    length (out (client st')) = 1%nat /\
    records_skipped (client st') = 1.
Proof.
  split; [exact sample_record_framed |].
  split; [reflexivity |].
  eexists _, _.
  split; [vm_compute; reflexivity |].
  split; [vm_compute; reflexivity |].
  repeat split; reflexivity.
Qed.

(* ================================================================== *)
(** ** Further properties *)
(* ================================================================== *)

(** The holding buffer keeps its 70 bytes when a candidate is stored. *)
Lemma store_candidate_len (last_record w : list byte) (i advance : Z) :
  len last_record = RECORD_BUFFER_SIZE ->
  0 <= i -> 12 <= advance -> i + advance <= len w ->
  len (store_candidate last_record
         (firstn (Z.to_nat (Z.min advance (len last_record)))
                 (skipn (Z.to_nat i) w))
         (Z.min advance (len last_record)))
  = RECORD_BUFFER_SIZE.
Proof.
  unfold RECORD_BUFFER_SIZE. intros Hlr Hi Hadv Hend.
  rewrite Hlr. set (copy_len := Z.min advance 70).
  assert (Hcopy : 12 <= copy_len <= 70) by (unfold copy_len; lia).
  assert (Hsrc : len (firstn (Z.to_nat copy_len) (skipn (Z.to_nat i) w))
                 = copy_len).
  { rewrite len_firstn by lia. rewrite len_skipn by lia.
    unfold copy_len. lia. }
  unfold store_candidate.
  set (src := firstn (Z.to_nat copy_len) (skipn (Z.to_nat i) w)) in *.
  assert (Hlr' : len (src ++ skipn (Z.to_nat copy_len) last_record) = 70).
  { rewrite len_app, Hsrc, len_skipn by lia. lia. }
  rewrite Hlr'.
  destruct (Z.ltb_spec copy_len 70) as [Hlt | Hge]; [| exact Hlr'].
  rewrite len_app, len_firstn, Hlr' by lia.
  unfold len at 1. rewrite repeat_length. lia.
Qed.

Lemma emissions_step (st : scan_state (list (list byte * Z)))
    (c : control (list (list byte * Z))) :
  emissions_ok st -> scan_step _ log_candidate st = Some c ->
  match c with
  | Continue st' => emissions_ok st'
  | Break st' => emissions_ok st'
  | Abort st' e => emissions_ok st'
  end.
Proof.
  intros (Hwf & Hlast & Hlog) Hstep.
  unfold scan_step in Hstep.
  destruct (probe_window_spec (sc st) Hwf) as (p & Hp & Hok).
  rewrite Hp in Hstep.
  destruct p as [s' | s' | s' i advance]; cbn [probe_ok] in Hok;
    injection Hstep as <-.
  - unfold emissions_ok. cbn. auto.
  - unfold emissions_ok. cbn. tauto.
  - destruct Hok as (Hwf' & Hun & Hidx & Hi & Hadv & Hend).
    assert (Hwf'' : wf_scanner (set_scan_idx s' (i + advance))).
    { destruct Hwf' as (H1 & H2 & H3 & H4).
      unfold wf_scanner, window_len in *. cbn. repeat split; lia. }
    unfold accept_candidate.
    destruct (last_record st) as [lr |].
    + pose proof (store_candidate_len lr (window s') i advance Hlast Hi Hadv
                    Hend) as Hstore.
      destruct (0 <=? last_record_pos st); unfold log_candidate;
        unfold emissions_ok; cbn; (split; [exact Hwf'' |]);
        (split; [exact Hstore |]); [| exact Hlog].
      apply Forall_app. split; [exact Hlog |].
      constructor; [| constructor].
      split; [exact Hlast |]. cbn. unfold get_read_type_from_delta.
      destruct (_ =? 68); auto.
    + pose proof (store_candidate_len
                    (repeat Byte.x00 (Z.to_nat RECORD_BUFFER_SIZE))
                    (window s') i advance eq_refl Hi Hadv Hend) as Hstore.
      unfold emissions_ok. cbn. auto.
Qed.

Lemma emissions_well_formed_from (window_size0 : Z) (f : list byte)
    (tr : scan_state (list (list byte * Z))) :
  0 < window_size0 ->
  process_records_from _ log_candidate window_size0 f [] = Some (tr, None) ->
  Forall well_formed_emission (client tr).
Proof.
  intros Hsize Htrace.
  unfold process_records_from in Htrace.
  destruct (scan_loop _ log_candidate (S (length f))
              (initial_state (list (list byte * Z)) window_size0 f []))
    as [[st raised] |] eqn:Hloop; [| discriminate].
  assert (Hinv : emissions_ok st).
  { refine (scan_loop_invariant _ log_candidate emissions_ok
              (fun r => emissions_ok (fst r)) _
              (S (length f)) _ (st, raised) _ Hloop).
    - intros st0 c Hok Hstep. pose proof (emissions_step st0 c Hok Hstep) as H.
      destruct c; exact H.
    - split; [apply initial_state_wf; exact Hsize |].
      split; [exact I | constructor]. }
  destruct Hinv as (_ & Hlast & Hlog).
  destruct raised as [e |]; [injection Htrace as <-; exact Hlog |].
  unfold flush, log_candidate in Htrace.
  destruct (last_record st) as [lr |]; injection Htrace as <-; cbn;
    [| exact Hlog].
  apply Forall_app. split; [exact Hlog |].
  constructor; [| constructor]. split; [exact Hlast | now left].
Qed.

(** Every candidate handed to [process_record] is a 70-byte buffer with
    read type 2 or 5. *)
Lemma emissions_well_formed (f : list byte) :
  exists tr,
    scan_trace f = Some (tr, None) /\
    Forall well_formed_emission (client tr).
Proof.
  destruct (scan_trace_one_behind f) as (tr & Htrace & _ & _).
  exists tr. split; [exact Htrace |].
  rewrite scan_trace_unfold in Htrace.
  exact (emissions_well_formed_from (SCAN_CHUNK_SIZE * 2) f tr eq_refl Htrace).
Qed.

Lemma scanner_terminates_witness :
  exists st',
    scan_step _ log_candidate
      (initial_state (list (list byte * Z)) 1024 sample_record [])
    = Some (Continue st') /\
    unscanned (sc st') < 68.
Proof.
  assert (Hstep : exists st',
             scan_step _ log_candidate
               (initial_state (list (list byte * Z)) 1024 sample_record [])
             = Some (Continue st'))
    by (eexists; vm_compute; reflexivity).
  destruct Hstep as [st' Hstep]. exists st'. split; [exact Hstep |].
  refine (proj2 (proj1 (proj2 (proj2 scanner_terminates))
                   _ log_candidate _ st' _ Hstep)).
  unfold wf_scanner, window_len, len. cbn. lia.
Defined.

(** When the decoded integer is neither a sentinel nor an overload, the
    number rendered is that integer divided by 1,000,000. *)
Lemma format_float16_scaled (self : options) (value_u16 int_val : Z)
    (x : float) :
  sv_from_float16 (_to_i16 value_u16) = Ok int_val ->
  is_special_value int_val = false -> is_overload int_val = false ->
  float_of_int int_val = Ok x ->
  format_float16 self value_u16
  = format_fixed_odd (x / FLOAT16_DIVISOR) (decimals_or self 2).
Proof.
  intros Hdec Hspecial Hover Hx. unfold format_float16.
  rewrite Hdec. cbn [bind]. rewrite Hspecial, Hover. cbn [orb].
  rewrite Hx. cbn [bind]. unfold fdiv.
  change (PrimFloat.eqb FLOAT16_DIVISOR 0) with false. reflexivity.
Qed.

Lemma format_float16_scaled_witness :
  format_float16 plain_options 0x0800
  = format_fixed_odd (2048 / FLOAT16_DIVISOR) 2.
Proof.
  apply (format_float16_scaled plain_options 0x0800 2048 2048%float);
    reflexivity.
Defined.

(** The custom float decode on every signed 16-bit value: with the
    exponent field [e] in [0..0x13] the result is the low eleven bits with
    bit 11 set, shifted left by [e]; with [e] above [0x13] the value is
    returned unchanged; [e] is negative exactly on [0..2047]. *)
Lemma sv_from_float16_decode (raw : Z) :
  -32768 <= raw < 32768 ->
  (0 <= float16_exponent raw <= 0x13 ->
   sv_from_float16 raw
   = Ok (Z.shiftl (Z.lor (Z.land raw 0x7FF) 0x800) (float16_exponent raw)) /\
   sv_from_float16 raw
   = Ok (float16_mantissa raw * 2 ^ float16_exponent raw)) /\
  (0x13 < float16_exponent raw -> sv_from_float16 raw = Ok raw) /\
  (float16_exponent raw < 0 <-> 0 <= raw < 2048) /\
  float16_exponent raw = Z.shiftr (Z.land raw 0xFFFF) 11 - 1.
Proof.
  intros Hraw.
  assert (He : float16_exponent raw = Z.shiftr (Z.land raw 0xFFFF) 11 - 1).
  { unfold float16_exponent. change 0xFFFF with (Z.ones 16).
    rewrite Z.land_ones, Z.shiftr_div_pow2 by lia. reflexivity. }
  pose proof (sv_from_float16_by_cases raw Hraw) as Hcases.
  unfold float16_by_cases in Hcases.
  split; [| split; [| split; [| exact He]]].
  - intros Hexp.
    destruct (Z.ltb_spec (float16_exponent raw) 0); [lia |].
    destruct (Z.leb_spec (float16_exponent raw) 0x13); [| lia].
    split; [| exact Hcases].
    unfold sv_from_float16, lshift. rewrite <- He.
    destruct (Z.leb_spec (float16_exponent raw) 0x13); [| lia].
    destruct (Z.ltb_spec (float16_exponent raw) 0); [lia | reflexivity].
  - intros Hexp.
    destruct (Z.ltb_spec (float16_exponent raw) 0); [lia |].
    destruct (Z.leb_spec (float16_exponent raw) 0x13); [lia |].
    exact Hcases.
  - unfold float16_exponent.
    assert (Hmod : raw mod 65536 = if raw <? 0 then raw + 65536 else raw).
    { destruct (Z.ltb_spec raw 0).
      - symmetry. apply (Z.mod_unique raw 65536 (-1)); lia.
      - apply Z.mod_small. lia. }
    rewrite Hmod.
    destruct (Z.ltb_spec raw 0) as [Hlt | Hge].
    + assert (16 <= (raw + 65536) / 2048)
        by (apply Z.div_le_lower_bound; lia).
      lia.
    + pose proof (Z.div_small_iff raw 2048 ltac:(lia)) as Hiff.
      assert (0 <= raw / 2048) by (apply Z.div_pos; lia).
      split; intros H1.
      * assert (Hz : raw / 2048 = 0) by lia.
        apply Hiff in Hz. lia.
      * assert (Hz : raw / 2048 = 0) by (apply Hiff; lia). lia.
Qed.

Lemma sv_from_float16_decode_witness :
  sv_from_float16 (-32768) = Ok (2048 * 2 ^ 15) /\
  sv_from_float16 (-1) = Ok (-1).
Proof.
  split.
  - apply (proj1 (sv_from_float16_decode (-32768) ltac:(lia))). cbn. lia.
  - apply (proj1 (proj2 (sv_from_float16_decode (-1) ltac:(lia)))).
    reflexivity.
Defined.

(** The four status sentinels: the raw patterns [0xFFFF] down to [0xFFFC]
    are classified as -1 to -4, named accordingly, and rendered as an
    empty numeric field. *)
Lemma status_sentinels (self : options) :
  map sv_is_value_valid [0xFFFF; 0xFFFE; 0xFFFD; 0xFFFC]
  = [Ok (-1); Ok (-2); Ok (-3); Ok (-4)] /\
  map status_to_string [-1; -2; -3; -4]
  = ["DISCONNECTED"; "DATA INVALID"; "NO DATA"; "NOT RESPONDING"]%string /\
  map (format_float16 self) [0xFFFF; 0xFFFE; 0xFFFD; 0xFFFC]
  = [Ok EmptyString; Ok EmptyString; Ok EmptyString; Ok EmptyString].
Proof. repeat split; reflexivity. Qed.

(** The read-type gate: a distance of 67, 69 or 136 bytes to the next
    record gives read type 5, and a candidate with read type 5 is
    skipped. *)
Lemma read_type_gate (self : options) (today : Z * Z * Z) (rec : list byte)
    (rd : reader) :
  len rec = RECORD_BUFFER_SIZE ->
  map get_read_type_from_delta [67; 68; 69; 136] = [5; 2; 5; 5] /\
  process_record self today rec 5 rd = (skip_record rd, None).
Proof.
  intros Hlen. split; [reflexivity |].
  now apply process_record_read_type_5.
Qed.

Lemma read_type_gate_witness :
  process_record plain_options sample_day (held sample_record) 5 new_reader
  = (skip_record new_reader, None).
Proof.
  apply (read_type_gate plain_options sample_day (held sample_record)
           new_reader).
  reflexivity.
Defined.

(** The end-to-end scenario: one record of type [0x88] and size 68 dated
    2024-03-15 14:30:00 whose fields hold no fault gives one CSV line
    that starts with that date and time, and nothing is skipped. *)
Lemma end_to_end_one_record :
  examine_record plain_options sample_day (held sample_record) 2
  = Ok (Decode 0x88 68 "2024-03-15" "14:30:00") /\
  exists st line,
    run_reader plain_options sample_day sample_record = Some (st, None) /\
    out (client st) = [line] /\
    records_processed (client st) = 1 /\
    records_skipped (client st) = 0 /\
    substring 0 24 line
    = (quoted "2024-03-15" ++ "," ++ quoted "14:30:00" ++ ",")%string.
Proof.
  split; [reflexivity |].
  eexists _, _.
  split; [vm_compute; reflexivity |].
  repeat split; reflexivity.
Qed.

(** Past the window: two copies of a record separated by 524252 zero
    bytes make a stream of 524388 bytes, 100 more than the window.  The
    second copy starts inside the first window but ends after it, and the
    scanner stops without finding it: one candidate, at offset 0. *)
Lemma second_record_past_window :
  has_marker (repeat Byte.x00 (Z.to_nat 524252)) = false /\
  len (sample_record ++ repeat Byte.x00 (Z.to_nat 524252) ++ sample_record)
  = SCAN_CHUNK_SIZE * 2 + 100 /\
  option_map (fun r => (map fst (found (fst r)), client (fst r)))
    (scan_trace
       (sample_record ++ repeat Byte.x00 (Z.to_nat 524252) ++ sample_record))
  = Some ([0], [(held sample_record, 2)]).
Proof.
  split; [vm_compute; reflexivity |].
  split; vm_compute; reflexivity.
Qed.

(* ================================================================== *)
(** ** Two's complement, status ranges and exact decimals *)
(* ================================================================== *)

Lemma res_string_eqb_eq (a b : res string) :
  res_string_eqb a b = true -> a = b.
Proof.
  destruct a as [s | []], b as [t | []]; cbn; try discriminate;
    try reflexivity.
  intros H. apply String.eqb_eq in H. now subst.
Qed.

(** *** Two's complement *)

Lemma to_i16_all_u16 :
  all_from to_i16_agrees 0 (Z.to_nat (65536 - 0)) = true.
Proof. vm_compute. reflexivity. Qed.

Lemma to_i16_u16 (u : Z) :
  0 <= u < 65536 -> _to_i16 u = if u <? 32768 then u else u - 65536.
Proof.
  intros Hu. apply Z.eqb_eq.
  exact (all_in_range to_i16_agrees 0 65536 to_i16_all_u16 u Hu).
Qed.

Lemma to_i16_mod (u : Z) : _to_i16 u = _to_i16 (u mod 65536).
Proof.
  unfold _to_i16. change 0xFFFF with (Z.ones 16).
  rewrite !Z.land_ones by lia. now rewrite Z.mod_mod by lia.
Qed.

Lemma u16_le_range (buf : list byte) (off v : Z) :
  u16_le buf off = Ok v -> 0 <= v < 65536.
Proof.
  unfold u16_le, getitem. intros H.
  destruct (_ <? 0); [discriminate |].
  destruct (nth_error buf _) as [lo |]; [| discriminate]. cbn [bind] in H.
  destruct (_ <? 0); [discriminate |].
  destruct (nth_error buf _) as [hi |]; [| discriminate]. cbn [bind] in H.
  pose proof (ord_range lo). pose proof (ord_range hi).
  rewrite lor_shiftl_8 in H by lia.
  assert (v = ord lo + 256 * ord hi) by congruence. lia.
Qed.

(** X8. *)
Theorem i16_twos_complement :
  (forall u, -32768 <= _to_i16 u < 32768 /\
             _to_i16 u mod 65536 = u mod 65536) /\
  (forall buf off,
     i16_le buf off = (let! v := u16_le buf off in Ok (_to_i16 v))) /\
  (forall buf off v, i16_le buf off = Ok v ->
     -32768 <= v < 32768 /\ u16_le buf off = Ok (v mod 65536)).
Proof.
  assert (H1 : forall u, -32768 <= _to_i16 u < 32768 /\
                         _to_i16 u mod 65536 = u mod 65536).
  { intros u. rewrite to_i16_mod.
    pose proof (Z.mod_pos_bound u 65536 ltac:(lia)) as Hm.
    rewrite (to_i16_u16 _ Hm).
    destruct (Z.ltb_spec (u mod 65536) 32768).
    - split; [lia |]. now rewrite Z.mod_mod by lia.
    - split; [lia |].
      replace (u mod 65536 - 65536) with (u mod 65536 + (-1) * 65536) by lia.
      rewrite Z.mod_add by lia. now rewrite Z.mod_mod by lia. }
  assert (H2 : forall buf off,
             i16_le buf off = (let! v := u16_le buf off in Ok (_to_i16 v))).
  { intros buf off. unfold i16_le.
    destruct (u16_le buf off) as [v | e] eqn:Hv; [| reflexivity].
    cbn [bind]. f_equal.
    pose proof (u16_le_range _ _ _ Hv) as Hr.
    unfold _to_i16. change 0xFFFF with (Z.ones 16).
    rewrite Z.land_ones by lia. rewrite Z.mod_small by lia. reflexivity. }
  split; [exact H1 |]. split; [exact H2 |].
  intros buf off v Hv. rewrite H2 in Hv.
  destruct (u16_le buf off) as [u | e] eqn:Hu; [| discriminate].
  cbn [bind] in Hv. injection Hv as <-.
  destruct (H1 u) as [Hr Hm]. split; [exact Hr |].
  rewrite Hm. pose proof (u16_le_range _ _ _ Hu).
  now rewrite Z.mod_small by lia.
Qed.

(** *** Status and decoded value *)

Lemma status_all_u16 :
  all_from status_agrees 0 (Z.to_nat (65536 - 0)) = true.
Proof. vm_compute. reflexivity. Qed.

Lemma sv_is_value_valid_decoded (value_u16 : Z) :
  0 <= value_u16 < 65536 ->
  sv_is_value_valid value_u16
  = (let! n := sv_from_float16 (_to_i16 value_u16) in
     Ok (status_of_decoded n)).
Proof.
  intros Hu. apply res_Z_eqb_eq.
  exact (all_in_range status_agrees 0 65536 status_all_u16 value_u16 Hu).
Qed.

(** *** Machine integers *)

Lemma ltb_to_Z (x y : int) : (x <? y)%uint63 = (to_Z x <? to_Z y).
Proof.
  destruct (ltbP x y); symmetry; [apply Z.ltb_lt | apply Z.ltb_ge]; lia.
Qed.

Lemma leb_to_Z (x y : int) : (x <=? y)%uint63 = (to_Z x <=? to_Z y).
Proof.
  destruct (lebP x y); symmetry; [apply Z.leb_le | apply Z.leb_gt]; lia.
Qed.

Lemma eqb_to_Z (x y : int) : (x =? y)%uint63 = (to_Z x =? to_Z y).
Proof.
  destruct (eqbP x y); symmetry; [apply Z.eqb_eq | apply Z.eqb_neq];
    assumption.
Qed.

Lemma to_Z_lt_wB (x : int) : 0 <= to_Z x < 9223372036854775808.
Proof. exact (to_Z_bounded x). Qed.

Lemma to_Z_of_Z (z : Z) :
  0 <= z < 9223372036854775808 -> to_Z (of_Z z) = z.
Proof. intros H. rewrite of_Z_spec. apply Z.mod_small. exact H. Qed.

Lemma round_div_prim_spec (odd : bool) (n d : int) :
  0 < to_Z d <= 4611686018427387904 ->
  to_Z n < 9223372036854775807 ->
  to_Z (round_div_prim odd n d)
  = if odd then div_half_odd (to_Z n) (to_Z d)
    else div_half_even (to_Z n) (to_Z d).
Proof.
  intros Hd Hn. pose proof (to_Z_lt_wB n) as Bn.
  pose proof (Z.mod_pos_bound (to_Z n) (to_Z d) ltac:(lia)) as Hr.
  assert (Hq : 0 <= to_Z n / to_Z d <= to_Z n).
  { split; [apply Z.div_pos; lia |].
    apply Z.div_le_upper_bound; [lia |]. nia. }
  assert (E2 : to_Z (2 * (n mod d))%uint63 = 2 * (to_Z n mod to_Z d)).
  { rewrite mul_spec, mod_spec. change (to_Z 2) with 2.
    apply Z.mod_small. change wB with 9223372036854775808. lia. }
  assert (E1 : to_Z (n / d + 1)%uint63 = to_Z n / to_Z d + 1).
  { rewrite add_spec, div_spec. change (to_Z 1) with 1.
    apply Z.mod_small. change wB with 9223372036854775808. lia. }
  assert (Ep : ((n / d) mod 2 =? 1)%uint63 = Z.odd (to_Z n / to_Z d)).
  { rewrite eqb_to_Z, mod_spec, div_spec. change (to_Z 2) with 2.
    change (to_Z 1) with 1. rewrite Zmod_odd.
    destruct (Z.odd _); reflexivity. }
  unfold round_div_prim, div_half_odd, div_half_even. cbv zeta.
  rewrite !ltb_to_Z, E2, Ep.
  destruct (_ <? to_Z d); [destruct odd; apply div_spec |].
  destruct (to_Z d <? _); [destruct odd; exact E1 |].
  rewrite <- Z.negb_odd.
  destruct odd, (Z.odd _); cbn; first [apply div_spec | exact E1].
Qed.

Lemma div_half_even_scale (a b c : Z) :
  0 < b -> 0 < c -> div_half_even (a * c) (b * c) = div_half_even a b.
Proof.
  intros Hb Hc. unfold div_half_even. cbv zeta.
  rewrite Z.div_mul_cancel_r by lia.
  rewrite Zmult_mod_distr_r.
  replace (2 * (a mod b * c) <? b * c) with (2 * (a mod b) <? b).
  2:{ destruct (Z.ltb_spec (2 * (a mod b)) b);
      symmetry; [apply Z.ltb_lt | apply Z.ltb_ge]; nia. }
  replace (b * c <? 2 * (a mod b * c)) with (b <? 2 * (a mod b)).
  2:{ destruct (Z.ltb_spec b (2 * (a mod b)));
      symmetry; [apply Z.ltb_lt | apply Z.ltb_ge]; nia. }
  reflexivity.
Qed.

(** *** Decoding a float *)

Lemma digits2_pos_size (p : positive) : digits2_pos p = Pos.size p.
Proof. induction p; cbn; congruence. Qed.

Lemma digits2_pos_53 (p : positive) :
  4503599627370496 <= Z.pos p < 9007199254740992 ->
  digits2_pos p = 53%positive.
Proof.
  intros H. rewrite digits2_pos_size.
  pose proof (Pos.size_gt p) as Hg. pose proof (Pos.size_le p) as Hl.
  apply Pos2Z.pos_lt_pos in Hg. apply Pos2Z.pos_le_pos in Hl.
  rewrite Pos2Z.inj_pow in Hg, Hl.
  assert (Hlo : ~ Z.pos (Pos.size p) <= 52).
  { intros Hc.
    pose proof (Z.pow_le_mono_r 2 _ _ ltac:(lia) Hc) as Hp.
    change (2 ^ 52) with 4503599627370496 in Hp. lia. }
  assert (Hhi : ~ 54 <= Z.pos (Pos.size p)).
  { intros Hc.
    pose proof (Z.pow_le_mono_r 2 _ _ ltac:(lia) Hc) as Hp.
    change (2 ^ 54) with 18014398509481984 in Hp. lia. }
  lia.
Qed.

Lemma Prim2SF_zero (x : float) :
  PrimFloat.is_nan x = false -> PrimFloat.is_zero x = true ->
  Prim2SF x = S754_zero (PrimFloat.get_sign x).
Proof. intros Hn Hz. unfold Prim2SF. now rewrite Hn, Hz. Qed.

Lemma mantissa_exponent_spec (x : float) (m k : int) :
  mantissa_exponent x = Some (m, k) ->
  exists p, to_Z m = Z.pos p
    /\ 4503599627370496 <= to_Z m < 9007199254740992
    /\ 0 <= to_Z k <= 1074
    /\ Prim2SF x = S754_finite (PrimFloat.get_sign x) p (- to_Z k).
Proof.
  unfold mantissa_exponent.
  destruct (PrimFloat.is_nan x) eqn:Hn; [discriminate |].
  destruct (PrimFloat.is_zero x) eqn:Hz; [discriminate |].
  destruct (PrimFloat.is_infinity x) eqn:Hi; [discriminate |].
  cbn [orb].
  destruct (frshiftexp x) as [r se] eqn:Hf.
  rewrite !leb_to_Z, ltb_to_Z.
  change (to_Z 4503599627370496) with 4503599627370496.
  change (to_Z 9007199254740992) with 9007199254740992.
  change (to_Z 1080) with 1080. change (to_Z 2154) with 2154.
  destruct (Z.leb_spec 4503599627370496 (to_Z (normfr_mantissa r)));
    [| discriminate].
  destruct (Z.ltb_spec (to_Z (normfr_mantissa r)) 9007199254740992);
    [| discriminate].
  destruct (Z.leb_spec 1080 (to_Z se)); [| discriminate].
  destruct (Z.leb_spec (to_Z se) 2154); [| discriminate].
  cbn [andb]. intros E. injection E as <- <-.
  assert (Ek : to_Z (2154 - se)%uint63 = 2154 - to_Z se).
  { rewrite sub_spec. change (to_Z 2154) with 2154.
    apply Z.mod_small. change wB with 9223372036854775808. lia. }
  destruct (to_Z (normfr_mantissa r)) as [| p | p] eqn:Hm; try lia.
  exists p. split; [reflexivity |]. split; [lia |]. split; [lia |].
  unfold Prim2SF. rewrite Hn, Hz, Hi. unfold Z.frexp. rewrite Hf, Hm.
  unfold shr_fexp, Zdigits2. rewrite (digits2_pos_53 p) by lia.
  replace (fexp prec emax (53 + (to_Z se - shift - prec))
           - (to_Z se - shift - prec)) with 0.
  2:{ unfold fexp, SpecFloat.emin, prec, emax, shift. lia. }
  unfold shr, shr_record_of_loc. cbv beta iota. cbn [shr_m]. rewrite Ek.
  f_equal. unfold shift, prec. lia.
Qed.

Lemma floor_prim_spec (x : float) (fl : int) :
  floor_prim x = Some fl -> floor x = Ok (to_Z fl).
Proof.
  unfold floor_prim.
  destruct (PrimFloat.is_nan x) eqn:Hn; [discriminate |].
  destruct (PrimFloat.get_sign x) eqn:Hs; [discriminate |]. cbn [orb].
  destruct (PrimFloat.is_zero x) eqn:Hz.
  - intros E. injection E as <-. unfold floor.
    now rewrite (Prim2SF_zero x Hn Hz).
  - destruct (mantissa_exponent x) as [[m k] |] eqn:Hm; [| discriminate].
    intros E. injection E as <-.
    destruct (mantissa_exponent_spec x m k Hm) as (p & Hp & _ & Hk & HP).
    unfold floor. rewrite HP, Hs. f_equal.
    rewrite Z.shiftl_opp_r, Z.shiftr_div_pow2 by lia.
    now rewrite lsr_spec, Hp.
Qed.

Lemma float_of_int_to_Z (i : int) :
  PrimFloat.is_infinity (PrimFloat.of_uint63 i) = false ->
  float_of_int (to_Z i) = Ok (PrimFloat.of_uint63 i).
Proof.
  intros Hi. pose proof (to_Z_lt_wB i) as B.
  unfold float_of_int, float_of_nonneg.
  destruct (Z.ltb_spec (to_Z i) 0); [lia |].
  change (2 ^ 63) with 9223372036854775808.
  destruct (Z.ltb_spec (to_Z i) 9223372036854775808); [| lia].
  now rewrite of_to_Z, Hi.
Qed.

Lemma float_of_int_prim_spec (z : Z) (f : float) :
  float_of_int_prim z = Some f -> float_of_int z = Ok f.
Proof.
  unfold float_of_int_prim, float_of_int, float_of_nonneg.
  change (2 ^ 63) with 9223372036854775808.
  destruct (Z.leb_spec 0 z); cbn [andb].
  - destruct (Z.ltb_spec z 4611686018427387904); cbn [andb].
    + destruct (Z.ltb_spec z 0); [lia |].
      destruct (Z.ltb_spec z 9223372036854775808); [| lia].
      destruct (PrimFloat.is_infinity _); [discriminate |]. congruence.
    + destruct (Z.ltb_spec z 0); [lia |]. discriminate.
  - destruct (Z.ltb_spec z 0); [| lia]. cbn [andb].
    destruct (Z.ltb_spec (-4611686018427387904) z); [| discriminate].
    destruct (Z.ltb_spec (- z) 9223372036854775808); [| lia].
    destruct (PrimFloat.is_infinity _); [discriminate |]. congruence.
Qed.

Lemma round_odd_prim_spec (fl : int) (flf frac : float) :
  round_odd_prim fl flf frac = round_odd (to_Z fl) flf frac.
Proof.
  unfold round_odd_prim, round_odd.
  rewrite eqb_to_Z, mod_spec. reflexivity.
Qed.

(** *** The digits *)

Lemma decimal_scale_spec (d : nat) (scale : float) (p5 di p10 : int) :
  decimal_scale d = Some (scale, p5, di, p10) ->
  pow10 d = Ok scale
  /\ PrimFloat.eqb scale 0 = false
  /\ to_Z di = Z.of_nat d /\ 0 <= to_Z di <= 4
  /\ to_Z p5 * 2 ^ to_Z di = 10 ^ Z.of_nat d
  /\ 0 < to_Z p5 <= 625
  /\ to_Z p10 = 10 ^ Z.of_nat d /\ 0 < to_Z p10 <= 10000.
Proof.
  destruct d as [| [| [| [| [| d]]]]]; cbn [decimal_scale];
    try discriminate; intros E; injection E as <- <- <- <-;
    vm_compute; repeat split; congruence.
Qed.

Lemma digits_prim_spec (x : float) (d : nat) (s : bool) (q : int) :
  digits_prim x d = Some (s, q) -> format_f x d = render s (to_Z q) d.
Proof.
  unfold digits_prim.
  destruct (PrimFloat.is_nan x) eqn:Hn; [discriminate |].
  destruct (PrimFloat.is_zero x) eqn:Hz.
  - intros E. injection E as <- <-. unfold format_f.
    now rewrite (Prim2SF_zero x Hn Hz).
  - destruct (mantissa_exponent x) as [[m k] |] eqn:Hm; [| discriminate].
    destruct (decimal_scale d) as [[[[scale p5] di] p10] |] eqn:Hd;
      [| discriminate].
    destruct (mantissa_exponent_spec x m k Hm) as (p & Hp & Hmr & Hk & HP).
    destruct (decimal_scale_spec d _ _ _ _ Hd)
      as (_ & _ & Hdi & Hdir & H10 & H5 & _).
    rewrite ltb_to_Z, leb_to_Z.
    assert (E62 : to_Z (di + 62)%uint63 = to_Z di + 62).
    { rewrite add_spec. change (to_Z 62) with 62. apply Z.mod_small.
      change wB with 9223372036854775808. lia. }
    rewrite E62.
    destruct (Z.ltb_spec (to_Z di) (to_Z k)); [| discriminate].
    destruct (Z.leb_spec (to_Z k) (to_Z di + 62)); [| discriminate].
    cbn [andb]. intros E. injection E as <- <-.
    assert (Es : to_Z (k - di)%uint63 = to_Z k - to_Z di).
    { rewrite sub_spec. apply Z.mod_small.
      change wB with 9223372036854775808. lia. }
    assert (Hpow : 0 < 2 ^ (to_Z k - to_Z di) <= 4611686018427387904).
    { split; [apply Z.pow_pos_nonneg; lia |].
      change 4611686018427387904 with (2 ^ 62).
      apply Z.pow_le_mono_r; lia. }
    assert (Ed : to_Z (1 << (k - di))%uint63 = 2 ^ (to_Z k - to_Z di)).
    { rewrite lsl_spec, Es. change (to_Z 1) with 1. rewrite Z.mul_1_l.
      apply Z.mod_small. change wB with 9223372036854775808. lia. }
    assert (En : to_Z (m * p5)%uint63 = to_Z m * to_Z p5).
    { rewrite mul_spec. apply Z.mod_small.
      change wB with 9223372036854775808. nia. }
    rewrite round_div_prim_spec by (rewrite ?Ed, ?En; nia).
    rewrite Ed, En.
    unfold format_f, render. rewrite HP.
    destruct (Z.leb_spec 0 (- to_Z k)); [lia |].
    rewrite Z.opp_involutive, <- Hp, <- H10.
    replace (2 ^ to_Z k) with (2 ^ (to_Z k - to_Z di) * 2 ^ to_Z di).
    2:{ rewrite <- Z.pow_add_r by lia. f_equal. lia. }
    rewrite Z.mul_assoc, div_half_even_scale; [reflexivity | lia |].
    apply Z.pow_pos_nonneg; lia.
Qed.

Lemma fixed_odd_prim_spec (value : float) (d : nat) (s : bool) (q : int) :
  fixed_odd_prim value d = Some (s, q) ->
  format_fixed_odd value d = Ok (render s (to_Z q) d).
Proof.
  unfold fixed_odd_prim, format_fixed_odd.
  destruct (decimal_scale d) as [[[[scale p5] di] p10] |] eqn:Hd;
    [| discriminate].
  destruct (decimal_scale_spec d _ _ _ _ Hd) as (Hs & Hz & _).
  rewrite Hs. cbn [bind]. cbv zeta.
  destruct (floor_prim _) as [fl |] eqn:Hfl; [| discriminate].
  rewrite (floor_prim_spec _ _ Hfl). cbn [bind].
  destruct (PrimFloat.is_infinity (PrimFloat.of_uint63 fl)) eqn:Hi;
    [discriminate |].
  rewrite (float_of_int_to_Z fl Hi). cbn [bind].
  unfold fdiv. rewrite Hz. cbn [bind].
  rewrite round_odd_prim_spec. intros H.
  now rewrite (digits_prim_spec _ _ _ _ H).
Qed.

Lemma exact_fixed_prim_spec (num den : Z) (d : nat) (s : bool) (q : int) :
  exact_fixed_prim num den d = Some (s, q) ->
  exact_fixed num den d = render s (to_Z q) d.
Proof.
  unfold exact_fixed_prim.
  destruct (decimal_scale d) as [[[[scale p5] di] p10] |] eqn:Hd;
    [| discriminate].
  destruct (decimal_scale_spec d _ _ _ _ Hd) as (_ & _ & _ & _ & _ & _ & H10 & Hr).
  destruct (Z.ltb_spec (Z.abs num) 1099511627776); [| discriminate].
  destruct (Z.ltb_spec 0 den); [| discriminate].
  destruct (Z.ltb_spec den 1099511627776); [| discriminate].
  cbn [andb]. intros E. injection E as <- <-.
  assert (Ea : to_Z (of_Z (Z.abs num)) = Z.abs num)
    by (apply to_Z_of_Z; lia).
  assert (Eb : to_Z (of_Z den) = den) by (apply to_Z_of_Z; lia).
  assert (En : to_Z (of_Z (Z.abs num) * p10)%uint63
               = Z.abs num * 10 ^ Z.of_nat d).
  { rewrite mul_spec, Ea, <- H10. apply Z.mod_small.
    change wB with 9223372036854775808. nia. }
  rewrite round_div_prim_spec by (rewrite ?Eb, ?En, <- ?H10; nia).
  rewrite En, Eb. unfold exact_fixed, render. cbv zeta.
  destruct (num <? 0); reflexivity.
Qed.

Lemma fixed_agrees_spec (value : float) (d : nat) (num den : Z) :
  fixed_agrees value d num den = true ->
  format_fixed_odd value d = Ok (exact_fixed num den d).
Proof.
  unfold fixed_agrees.
  destruct (fixed_odd_prim value d) as [[s q] |] eqn:Hf; [| discriminate].
  destruct (exact_fixed_prim num den d) as [[s' q'] |] eqn:He;
    [| discriminate].
  intros H. apply andb_true_iff in H as [Hs Hq].
  apply Bool.eqb_prop in Hs. apply eqb_correct in Hq. subst s' q'.
  now rewrite (fixed_odd_prim_spec _ _ _ _ Hf),
    (exact_fixed_prim_spec _ _ _ _ _ He).
Qed.

Lemma fixed_prints_spec (value : float) (d : nat) (q : Z) :
  fixed_prints value d q = true ->
  format_fixed_odd value d = Ok (fixed_digits q d).
Proof.
  unfold fixed_prints.
  destruct (fixed_odd_prim value d) as [[s q'] |] eqn:Hf; [| discriminate].
  intros H. apply andb_true_iff in H as [Hs Hq].
  apply negb_true_iff in Hs. apply Z.eqb_eq in Hq. subst s q.
  now rewrite (fixed_odd_prim_spec _ _ _ _ Hf).
Qed.

Lemma status_range_all_u16 :
  all_from status_range_agrees 0 (Z.to_nat (65536 - 0)) = true.
Proof. vm_compute. reflexivity. Qed.

(** A column that reads only the precision of the options is decided by
    its two instances. *)
Lemma agree_on_spec (f g : options -> Z -> res string) (lo hi : Z) :
  (forall self raw, f self raw = f (with_precision (long_format self)) raw) ->
  (forall self raw, g self raw = g (with_precision (long_format self)) raw) ->
  all_from (agree_on f g) lo (Z.to_nat (hi - lo)) = true ->
  forall self raw, lo <= raw < hi -> f self raw = g self raw.
Proof.
  intros Hf Hg Hall self raw Hraw.
  pose proof (all_in_range _ lo hi Hall raw Hraw) as H.
  unfold agree_on in H. apply andb_true_iff in H as [Hs Hl].
  apply res_string_eqb_eq in Hs, Hl.
  rewrite Hf, Hg. destruct (long_format self); assumption.
Qed.

Lemma at_both_spec (short : nat) (p : nat -> Z -> bool) (raw : Z)
    (self : options) :
  at_both short p raw = true -> p (decimals_or self short) raw = true.
Proof.
  unfold at_both, decimals_or. intros H.
  apply andb_true_iff in H as [Hs Hl]. now destruct (long_format self).
Qed.

Lemma int16_exact_at_spec (self : options) (v : Z) :
  int16_exact_at (decimals_or self 1) v = true ->
  format_int16 self v = int16_exact self v.
Proof.
  unfold int16_exact_at, format_int16, int16_exact.
  destruct (is_special_value v); [reflexivity |]. cbn [orb].
  destruct (float_of_int_prim v) as [x |] eqn:Hx; [| discriminate].
  rewrite (float_of_int_prim_spec _ _ Hx). cbn [bind]. unfold fdiv.
  change (PrimFloat.eqb INT16_DIVISOR 0) with false. cbn [bind].
  apply fixed_agrees_spec.
Qed.

Lemma float16_exact_at_spec (self : options) (raw : Z) :
  float16_exact_at (decimals_or self 2) raw = true ->
  format_float16 self raw = float16_exact self raw.
Proof.
  unfold float16_exact_at, format_float16, float16_exact.
  destruct (sv_from_float16 (_to_i16 raw)) as [n | e]; [| reflexivity].
  cbn [bind].
  destruct (is_special_value n || is_overload n); [reflexivity |].
  cbn [orb].
  destruct (float_of_int_prim n) as [x |] eqn:Hx; [| discriminate].
  rewrite (float_of_int_prim_spec _ _ Hx). cbn [bind]. unfold fdiv.
  change (PrimFloat.eqb FLOAT16_DIVISOR 0) with false. cbn [bind].
  apply fixed_agrees_spec.
Qed.

Lemma zc_exact_at_spec (self : options) (raw : Z) :
  zc_exact_at (decimals_or self 2) raw = true ->
  zc_float self raw = zc_exact self raw.
Proof.
  unfold zc_exact_at, zc_float, zc_exact.
  destruct (float_of_int_prim raw) as [x |] eqn:Hx; [| discriminate].
  rewrite (float_of_int_prim_spec _ _ Hx). cbn [bind]. unfold fdiv.
  destruct (PrimFloat.eqb x 0); [discriminate |]. cbn [negb andb bind].
  apply fixed_agrees_spec.
Qed.

Lemma kb_exact_at_spec (self : options) (raw : Z) :
  kb_exact_at (decimals_or self 2) raw = true ->
  kb_float self raw = kb_exact self raw.
Proof.
  unfold kb_exact_at, kb_float, kb_exact.
  destruct (sv_from_float16 raw) as [n | e]; [| reflexivity]. cbn [bind].
  destruct (float_of_int_prim n) as [x |] eqn:Hx; [| discriminate].
  unfold sqrt_int. rewrite (float_of_int_prim_spec _ _ Hx).
  destruct (n <? 0); [reflexivity |]. cbn [orb bind]. cbv zeta.
  unfold exact_kb.
  destruct (PrimFloat.leb _ _); intros H; apply andb_true_iff in H as [Hn H].
  - rewrite Hn. now apply fixed_prints_spec.
  - apply negb_true_iff in Hn. rewrite Hn. now apply fixed_prints_spec.
Qed.

Lemma format_int16_all :
  all_from (at_both 1 int16_exact_at) (-32768)
           (Z.to_nat (32768 - -32768)) = true.
Proof. vm_compute. reflexivity. Qed.

Lemma format_float16_all :
  all_from (at_both 2 float16_exact_at) 0 (Z.to_nat (65536 - 0)) = true.
Proof. vm_compute. reflexivity. Qed.

Lemma zc_all :
  all_from (at_both 2 zc_exact_at) 1 (Z.to_nat (32768 - 1)) = true.
Proof. vm_compute. reflexivity. Qed.

Lemma kb_all :
  all_from (at_both 2 kb_exact_at) (-32768)
           (Z.to_nat (32768 - -32768)) = true.
Proof. vm_compute. reflexivity. Qed.

Lemma temperature_all :
  all_from (agree_on temperature_float temperature_exact) 0
           (Z.to_nat (256 - 0)) = true.
Proof. vm_compute. reflexivity. Qed.

Lemma voltage_all :
  all_from (agree_on voltage_float voltage_exact) 0
           (Z.to_nat (256 - 0)) = true.
Proof. vm_compute. reflexivity. Qed.

Lemma format_int16_is_exact (self : options) (v : Z) :
  -32768 <= v < 32768 -> format_int16 self v = int16_exact self v.
Proof.
  intros Hv. apply int16_exact_at_spec, at_both_spec.
  exact (all_in_range _ (-32768) 32768 format_int16_all v Hv).
Qed.

Lemma format_float16_is_exact (self : options) (raw : Z) :
  0 <= raw < 65536 -> format_float16 self raw = float16_exact self raw.
Proof.
  intros Hv. apply float16_exact_at_spec, at_both_spec.
  exact (all_in_range _ 0 65536 format_float16_all raw Hv).
Qed.

Lemma zc_is_exact (self : options) (raw : Z) :
  1 <= raw < 32768 -> zc_float self raw = zc_exact self raw.
Proof.
  intros Hv. apply zc_exact_at_spec, at_both_spec.
  exact (all_in_range _ 1 32768 zc_all raw Hv).
Qed.

Lemma kb_is_exact (self : options) (raw : Z) :
  -32768 <= raw < 32768 -> kb_float self raw = kb_exact self raw.
Proof.
  intros Hv. apply kb_exact_at_spec, at_both_spec.
  exact (all_in_range _ (-32768) 32768 kb_all raw Hv).
Qed.

Lemma temperature_is_exact (self : options) (b : Z) :
  0 <= b < 256 -> temperature_float self b = temperature_exact self b.
Proof.
  apply (agree_on_spec temperature_float temperature_exact 0 256);
    [reflexivity | reflexivity | exact temperature_all].
Qed.

Lemma voltage_is_exact (self : options) (b : Z) :
  0 <= b < 256 -> voltage_float self b = voltage_exact self b.
Proof.
  apply (agree_on_spec voltage_float voltage_exact 0 256);
    [reflexivity | reflexivity | exact voltage_all].
Qed.

(* ================================================================== *)
(** ** The decoder agrees with exact arithmetic *)
(* ================================================================== *)

Lemma u16_le_u16_at (rec : list byte) (off : Z) :
  0 <= off -> off + 1 < len rec -> u16_le rec off = Ok (u16_at rec off).
Proof. intros. now apply u16_le_Z. Qed.

Lemma u16_at_range (rec : list byte) (off : Z) : 0 <= u16_at rec off < 65536.
Proof.
  unfold u16_at.
  pose proof (byte_at_range rec (Z.to_nat off)).
  pose proof (byte_at_range rec (S (Z.to_nat off))). lia.
Qed.

Lemma i16_le_eq (buf : list byte) (off : Z) :
  i16_le buf off = (let! v := u16_le buf off in Ok (_to_i16 v)).
Proof.
  unfold i16_le.
  destruct (u16_le buf off) as [v | e] eqn:Hv; [| reflexivity].
  cbn [bind]. f_equal.
  pose proof (u16_le_range _ _ _ Hv) as Hr.
  unfold _to_i16. change 0xFFFF with (Z.ones 16).
  rewrite Z.land_ones by lia. rewrite Z.mod_small by lia. reflexivity.
Qed.

Lemma i16_le_i16_at (rec : list byte) (off : Z) :
  0 <= off -> off + 1 < len rec -> i16_le rec off = Ok (i16_at rec off).
Proof.
  intros H0 H1. rewrite i16_le_eq, u16_le_u16_at by lia. reflexivity.
Qed.

Lemma to_i16_range (u : Z) : -32768 <= _to_i16 u < 32768.
Proof.
  rewrite to_i16_mod.
  pose proof (Z.mod_pos_bound u 65536 ltac:(lia)) as Hm.
  rewrite (to_i16_u16 _ Hm).
  destruct (Z.ltb_spec (u mod 65536) 32768); lia.
Qed.

Lemma i16_at_range (rec : list byte) (off : Z) :
  -32768 <= i16_at rec off < 32768.
Proof. apply to_i16_range. Qed.

(** [parse_direction] with its two inline float expressions named. *)
Lemma parse_direction_unfold (self : options) (rec : list byte) (off : Z)
    (is_extended : bool) (status : Z) :
  parse_direction self rec off is_extended status
  = if negb (status =? 0) then
      Ok {| dd_v := EmptyString; dd_kb := EmptyString; dd_ft := EmptyString;
            dd_u := EmptyString; dd_a := EmptyString; dd_cv := EmptyString;
            dd_cf := EmptyString; dd_state := status_to_string status |}
    else
      let! v_raw := u16_le rec off in
      let! kbzc_raw := i16_le rec (off + 2) in
      let! ft_raw := i16_le rec (off + 4) in
      let! u_raw := u16_le rec (off + 6) in
      let! a_raw := u16_le rec (off + 8) in
      let! cv_raw := u16_le rec (off + 10) in
      let! cf_raw := i16_le rec (off + 12) in
      let! v := format_float16 self v_raw in
      let! kb :=
        if is_extended then kb_float self kbzc_raw
        else if kbzc_raw <=? 0 then Ok EmptyString
        else zc_float self kbzc_raw in
      let! ft := format_int16 self ft_raw in
      let! u := format_float16 self u_raw in
      let! a := format_float16 self a_raw in
      let! cv := format_float16 self cv_raw in
      let! cf := format_int16 self cf_raw in
      Ok {| dd_v := v; dd_kb := kb; dd_ft := ft; dd_u := u; dd_a := a;
            dd_cv := cv; dd_cf := cf; dd_state := EmptyString |}.
Proof. reflexivity. Qed.

Lemma parse_direction_is_exact (self : options) (rec : list byte) (off : Z)
    (is_extended : bool) (status : Z) :
  0 <= off -> off + 13 < len rec ->
  parse_direction self rec off is_extended status
  = direction_exact self rec off is_extended status.
Proof.
  intros H0 Hlen. rewrite parse_direction_unfold. unfold direction_exact.
  destruct (negb (status =? 0)); [reflexivity |].
  rewrite (u16_le_u16_at rec off) by lia. cbn [bind].
  rewrite (i16_le_i16_at rec (off + 2)) by lia. cbn [bind].
  rewrite (i16_le_i16_at rec (off + 4)) by lia. cbn [bind].
  rewrite (u16_le_u16_at rec (off + 6)) by lia. cbn [bind].
  rewrite (u16_le_u16_at rec (off + 8)) by lia. cbn [bind].
  rewrite (u16_le_u16_at rec (off + 10)) by lia. cbn [bind].
  rewrite (i16_le_i16_at rec (off + 12)) by lia. cbn [bind].
  rewrite !format_float16_is_exact by apply u16_at_range.
  rewrite !format_int16_is_exact by apply i16_at_range.
  rewrite kb_is_exact by apply i16_at_range.
  destruct is_extended; [reflexivity |].
  destruct (Z.leb_spec (i16_at rec (off + 2)) 0) as [Hle | Hgt];
    [reflexivity |].
  rewrite zc_is_exact; [reflexivity |].
  pose proof (i16_at_range rec (off + 2)). lia.
Qed.

Lemma temperature_steps (self : options) (b : Z) :
  0 <= b < 256 ->
  exists f, float_of_int b = Ok f /\
    format_fixed_odd (f * 0.5 - 27.5)%float (decimals_or self 1)
    = Ok (exact_fixed (b - 55) 2 (decimals_or self 1)).
Proof.
  intros Hb. pose proof (temperature_is_exact self b Hb) as H.
  unfold temperature_float, temperature_exact in H.
  destruct (float_of_int b) as [f | e]; [| discriminate].
  exists f. split; [reflexivity | exact H].
Qed.

Lemma voltage_steps (self : options) (b : Z) :
  0 <= b < 256 ->
  exists f, float_of_int b = Ok f /\
    format_fixed_odd (f * 0.01 + 2.45)%float (decimals_or self 2)
    = Ok (exact_fixed (b + 245) 100 (decimals_or self 2)).
Proof.
  intros Hb. pose proof (voltage_is_exact self b Hb) as H.
  unfold voltage_float, voltage_exact in H.
  destruct (float_of_int b) as [f | e]; [| discriminate].
  exists f. split; [reflexivity | exact H].
Qed.

Lemma counter_24_bits (b64 b65 b66 : Z) :
  0 <= b65 -> 0 <= b66 ->
  b64 + Z.shiftl (b65 + Z.shiftl b66 8) 8 = b64 + 256 * b65 + 65536 * b66.
Proof.
  intros H65 H66. rewrite !Z.shiftl_mul_pow2 by lia. lia.
Qed.

Lemma decode_record_is_exact (self : options) (rec : list byte)
    (record_type record_size : Z) (date_s time_s : string) :
  len rec = RECORD_BUFFER_SIZE ->
  decode_record self rec record_type record_size date_s time_s
  = (let! fields := row_fields_exact self rec record_type record_size
                                     date_s time_s in
     Ok (csv_line fields)).
Proof.
  unfold RECORD_BUFFER_SIZE. intros Hlen.
  unfold decode_record, row_fields_exact.
  rewrite Hlen. change (67 <=? 70) with true. rewrite andb_true_r.
  rewrite (getitem_Z rec 64), (getitem_Z rec 65), (getitem_Z rec 66) by lia.
  rewrite (getitem_Z rec 56), (getitem_Z rec 57), (getitem_Z rec 58) by lia.
  rewrite (getitem_Z rec 59), (getitem_Z rec 60), (getitem_Z rec 61) by lia.
  rewrite (u16_le_u16_at rec 62), (u16_le_u16_at rec 12) by lia.
  change (Z.to_nat 64) with 64%nat. change (Z.to_nat 65) with 65%nat.
  change (Z.to_nat 66) with 66%nat. change (Z.to_nat 56) with 56%nat.
  change (Z.to_nat 57) with 57%nat. change (Z.to_nat 58) with 58%nat.
  change (Z.to_nat 59) with 59%nat. change (Z.to_nat 60) with 60%nat.
  change (Z.to_nat 61) with 61%nat.
  destruct (temperature_steps self (byte_at rec 56) (byte_at_range _ _))
    as (f56 & Hf56 & Htemp).
  destruct (voltage_steps self (byte_at rec 57) (byte_at_range _ _))
    as (f57 & Hf57 & Hvolt).
  pose proof (byte_at_range rec 65). pose proof (byte_at_range rec 66).
  cbn [bind].
  rewrite Hf56, Hf57.
  rewrite counter_24_bits by lia.
  cbn [bind] in *.
  destruct (67 <? record_size); cbn [bind];
    (destruct (axis_status rec 14) as [xs | e]; [| reflexivity]; cbn [bind];
     destruct (axis_status rec 28) as [ys | e]; [| reflexivity]; cbn [bind];
     destruct (axis_status rec 42) as [zs | e]; [| reflexivity]; cbn [bind];
     rewrite !parse_direction_is_exact by lia;
     destruct (direction_exact self rec 14 _ xs) as [xd | e];
       [| reflexivity]; cbn [bind];
     destruct (direction_exact self rec 28 _ ys) as [yd | e];
       [| reflexivity]; cbn [bind];
     destruct (direction_exact self rec 42 _ zs) as [zd | e];
       [| reflexivity]; cbn [bind];
     rewrite format_float16_is_exact by apply u16_at_range;
     match goal with
     | |- context [if ?c then Ok EmptyString else float16_exact ?s ?r] =>
         destruct (if c then Ok EmptyString else float16_exact s r)
           as [ov | e]; [| reflexivity]
     end; cbn [bind];
     rewrite Htemp, Hvolt; cbn [bind]; unfold sensor_columns;
     destruct (Z.land (byte_at rec 59) 31 =? 0); reflexivity).
Qed.

Lemma only_ok {A : Type} (a : A) : only_value_error (Ok a).
Proof. intros e H. discriminate. Qed.

Lemma only_bind {A B : Type} (m : res A) (k : A -> res B) :
  only_value_error m -> (forall a, only_value_error (k a)) ->
  only_value_error (bind m k).
Proof.
  intros Hm Hk e H. destruct m as [a | e']; cbn [bind] in H.
  - exact (Hk a e H).
  - apply Hm. congruence.
Qed.

Lemma only_if {A : Type} (c : bool) (m1 m2 : res A) :
  only_value_error m1 -> only_value_error m2 ->
  only_value_error (if c then m1 else m2).
Proof. destruct c; auto. Qed.

Lemma only_lshift (a n : Z) : only_value_error (lshift a n).
Proof.
  unfold lshift. intros e H. destruct (n <? 0); congruence.
Qed.

Lemma only_sv_from_float16 (v : Z) : only_value_error (sv_from_float16 v).
Proof.
  unfold sv_from_float16. apply only_if; [apply only_lshift | apply only_ok].
Qed.

Lemma only_sv_is_value_valid (v : Z) : only_value_error (sv_is_value_valid v).
Proof.
  unfold sv_is_value_valid. apply only_if.
  - apply only_if; apply only_ok.
  - apply only_bind; [apply only_lshift |]. intros r.
    apply only_if; [apply only_if |]; apply only_ok.
Qed.

Lemma only_float16_exact (self : options) (raw : Z) :
  only_value_error (float16_exact self raw).
Proof.
  unfold float16_exact. apply only_bind; [apply only_sv_from_float16 |].
  intros n. apply only_if; apply only_ok.
Qed.

Lemma only_kb_exact (self : options) (raw : Z) :
  only_value_error (kb_exact self raw).
Proof.
  unfold kb_exact. apply only_bind; [apply only_sv_from_float16 |].
  intros n. apply only_if; [| apply only_ok]. intros e H. congruence.
Qed.

Lemma only_int16_exact (self : options) (v : Z) :
  only_value_error (int16_exact self v).
Proof. unfold int16_exact. apply only_if; apply only_ok. Qed.

Lemma only_direction_exact (self : options) (rec : list byte) (off : Z)
    (is_extended : bool) (status : Z) :
  only_value_error (direction_exact self rec off is_extended status).
Proof.
  unfold direction_exact. apply only_if; [apply only_ok |].
  apply only_bind; [apply only_float16_exact | intros v].
  apply only_bind.
  { apply only_if; [apply only_kb_exact |].
    apply only_if; [apply only_ok | unfold zc_exact; apply only_ok]. }
  intros kb.
  apply only_bind; [apply only_int16_exact | intros ft].
  apply only_bind; [apply only_float16_exact | intros u].
  apply only_bind; [apply only_float16_exact | intros a].
  apply only_bind; [apply only_float16_exact | intros cv].
  apply only_bind; [apply only_int16_exact | intros cf].
  apply only_ok.
Qed.

(** [axis_status] on a buffer that holds the four fields it reads. *)
Lemma axis_status_fields (rec : list byte) (off : Z) :
  0 <= off -> off + 11 < len rec ->
  axis_status rec off
  = (let! s := sv_is_value_valid (u16_at rec off) in
     let! s := if s =? 0 then sv_is_value_valid (u16_at rec (off + 6))
               else Ok s in
     let! s := if s =? 0 then sv_is_value_valid (u16_at rec (off + 8))
               else Ok s in
     if s =? 0 then sv_is_value_valid (u16_at rec (off + 10)) else Ok s).
Proof.
  intros H0 Hlen. unfold axis_status.
  rewrite (u16_le_u16_at rec off), (u16_le_u16_at rec (off + 6)),
    (u16_le_u16_at rec (off + 8)), (u16_le_u16_at rec (off + 10)) by lia.
  reflexivity.
Qed.

Lemma only_axis_status (rec : list byte) (off : Z) :
  0 <= off -> off + 11 < len rec -> only_value_error (axis_status rec off).
Proof.
  intros H0 Hlen. rewrite axis_status_fields by lia.
  apply only_bind; [apply only_sv_is_value_valid | intros s1].
  apply only_bind;
    [apply only_if; [apply only_sv_is_value_valid | apply only_ok] |
     intros s2].
  apply only_bind;
    [apply only_if; [apply only_sv_is_value_valid | apply only_ok] |
     intros s3].
  apply only_if; [apply only_sv_is_value_valid | apply only_ok].
Qed.

Lemma only_row_fields_exact (self : options) (rec : list byte)
    (record_type record_size : Z) (date_s time_s : string) :
  len rec = RECORD_BUFFER_SIZE ->
  only_value_error
    (row_fields_exact self rec record_type record_size date_s time_s).
Proof.
  unfold RECORD_BUFFER_SIZE. intros Hlen. unfold row_fields_exact.
  apply only_bind; [apply only_axis_status; lia | intros xs].
  apply only_bind; [apply only_axis_status; lia | intros ys].
  apply only_bind; [apply only_axis_status; lia | intros zs].
  apply only_bind; [apply only_direction_exact | intros xd].
  apply only_bind; [apply only_direction_exact | intros yd].
  apply only_bind; [apply only_direction_exact | intros zd].
  apply only_bind;
    [apply only_if; [apply only_ok | apply only_float16_exact] | intros ov].
  apply only_ok.
Qed.

Lemma filter_stage_cases (self : options) (today : Z * Z * Z)
    (rec : list byte) :
  filter_stage self today rec = Skipped NotToday \/
  filter_stage self today rec = Skipped NotTheDay \/
  filter_stage self today rec
  = Decode (type_byte rec) (declared_size rec)
      (iso_date (record_date rec)) (record_time rec).
Proof.
  unfold filter_stage, record_date, iso_date, record_time.
  destruct (filter_today self).
  - destruct today as [[ty tm] td]. destruct (_ && _); auto.
  - destruct (date_filter self) as [wanted |]; [| auto].
    destruct (String.eqb _ wanted); auto.
Qed.

(** Where [examine_record] on a 70-byte buffer can end. *)
Lemma examine_record_cases (self : options) (today : Z * Z * Z)
    (rec : list byte) (read_type : Z) :
  len rec = RECORD_BUFFER_SIZE ->
  (read_type < 0 /\ declared_size rec = 68 /\
   examine_record self today rec read_type = Raise ValueError) \/
  (exists why, examine_record self today rec read_type = Ok (Skipped why)) \/
  (0 <= read_type /\ declared_size rec = 68 /\
   Z.land (type_byte rec) 0xFD = 0x88 /\
   examine_record self today rec read_type
   = Ok (Decode (type_byte rec) (declared_size rec)
           (iso_date (record_date rec)) (record_time rec))).
Proof.
  intros Hlen.
  destruct (is_valid_to_process (declared_size rec) read_type)
    as [valid | e] eqn:Hvalid.
  - pose proof (examine_record_stages self today rec read_type valid Hlen
                  Hvalid) as Hex.
    assert (Hrt : valid = true -> 0 <= read_type /\ declared_size rec = 68).
    { intros ->. unfold is_valid_to_process, lshift in Hvalid.
      destruct (read_type <=? 9); cbn [negb] in Hvalid; [| discriminate].
      destruct (Z.eqb_spec (declared_size rec) 68) as [Hsz | Hsz];
        cbn [negb] in Hvalid; [| discriminate].
      destruct (Z.ltb_spec read_type 0); [discriminate |]. lia. }
    destruct valid; cbn [negb] in Hex; [| right; left; eauto].
    destruct (Hrt eq_refl) as [Hrt0 Hsz].
    destruct (Z.eqb_spec (Z.land (type_byte rec) 0xFD) 0x88) as [Hty | Hty];
      cbn [negb] in Hex; [| right; left; eauto].
    destruct (declared_size rec =? RECORD_SIZE_EXPECTED); cbn [negb] in Hex;
      [| right; left; eauto].
    destruct (datetime_valid _ _ _ _ _ _); cbn [negb] in Hex;
      [| right; left; eauto].
    destruct (filter_stage_cases self today rec) as [Hf | [Hf | Hf]];
      rewrite Hf in Hex; [right; left; eauto | right; left; eauto |].
    right; right. auto.
  - left.
    unfold is_valid_to_process, lshift in Hvalid.
    destruct (read_type <=? 9); cbn [negb] in Hvalid; [| discriminate].
    destruct (Z.eqb_spec (declared_size rec) 68) as [Hsz | Hsz];
      cbn [negb] in Hvalid; [| discriminate].
    destruct (Z.ltb_spec read_type 0) as [Hneg | Hpos];
      cbn [bind] in Hvalid; [| discriminate].
    assert (e = ValueError) by congruence. subst e.
    split; [exact Hneg |]. split; [exact Hsz |].
    unfold RECORD_BUFFER_SIZE in Hlen. unfold examine_record.
    rewrite (getitem_Z rec 3) by lia. cbn [bind].
    rewrite (u16_le_Z rec 4) by lia. cbn [bind].
    change (Z.to_nat 4) with 4%nat. fold (declared_size rec).
    rewrite Hsz. unfold is_valid_to_process, lshift.
    destruct (Z.leb_spec read_type 9); [| lia]. cbn [negb Z.eqb Pos.eqb].
    destruct (Z.ltb_spec read_type 0); [reflexivity | lia].
Qed.

Lemma status_by_range_eq (value_u16 : Z) :
  0 <= value_u16 < 65536 ->
  sv_is_value_valid value_u16 = status_by_range value_u16.
Proof.
  intros Hu. apply res_Z_eqb_eq.
  exact (all_in_range status_range_agrees 0 65536 status_range_all_u16
           value_u16 Hu).
Qed.

Lemma kb_decodes_all :
  all_from kb_decodes 2048 (Z.to_nat (43008 - 2048)) = true.
Proof. vm_compute. reflexivity. Qed.

Lemma sv_is_value_valid_ok (value_u16 : Z) :
  2048 <= value_u16 < 65536 -> exists s, sv_is_value_valid value_u16 = Ok s.
Proof.
  intros Hu. rewrite status_by_range_eq by lia. unfold status_by_range.
  destruct (Z.ltb_spec value_u16 2048); [lia |].
  repeat match goal with |- context [if ?c then _ else _] => destruct c end;
    eauto.
Qed.

Lemma sv_from_float16_ok (value_u16 : Z) :
  2048 <= value_u16 < 65536 ->
  exists n, sv_from_float16 (_to_i16 value_u16) = Ok n.
Proof.
  intros Hu. destruct (sv_is_value_valid_ok value_u16 Hu) as [s Hs].
  rewrite sv_is_value_valid_decoded in Hs by lia.
  destruct (sv_from_float16 (_to_i16 value_u16)) as [n | e];
    [eauto | discriminate].
Qed.

Lemma float16_exact_ok (self : options) (value_u16 : Z) :
  2048 <= value_u16 < 65536 -> exists s, float16_exact self value_u16 = Ok s.
Proof.
  intros Hu. destruct (sv_from_float16_ok value_u16 Hu) as [n Hn].
  unfold float16_exact. rewrite Hn. cbn [bind].
  destruct (_ || _); eauto.
Qed.

Lemma kb_exact_ok (self : options) (value_u16 : Z) :
  2048 <= value_u16 < 43008 ->
  exists s, kb_exact self (_to_i16 value_u16) = Ok s.
Proof.
  intros Hu.
  pose proof (all_in_range kb_decodes 2048 43008 kb_decodes_all value_u16 Hu)
    as H.
  unfold kb_decodes in H. unfold kb_exact.
  destruct (sv_from_float16 (_to_i16 value_u16)) as [n | e];
    [| discriminate].
  cbn [bind]. destruct (Z.ltb_spec n 0); [lia | eauto].
Qed.

Lemma axis_status_ok (rec : list byte) (off : Z) :
  0 <= off -> off + 11 < len rec ->
  2048 <= u16_at rec off -> 2048 <= u16_at rec (off + 6) ->
  2048 <= u16_at rec (off + 8) -> 2048 <= u16_at rec (off + 10) ->
  exists s, axis_status rec off = Ok s.
Proof.
  intros H0 Hlen H1 H2 H3 H4. rewrite axis_status_fields by lia.
  pose proof (u16_at_range rec off).
  pose proof (u16_at_range rec (off + 6)).
  pose proof (u16_at_range rec (off + 8)).
  pose proof (u16_at_range rec (off + 10)).
  destruct (sv_is_value_valid_ok (u16_at rec off) ltac:(lia)) as [s1 E1].
  destruct (sv_is_value_valid_ok (u16_at rec (off + 6)) ltac:(lia))
    as [s2 E2].
  destruct (sv_is_value_valid_ok (u16_at rec (off + 8)) ltac:(lia))
    as [s3 E3].
  destruct (sv_is_value_valid_ok (u16_at rec (off + 10)) ltac:(lia))
    as [s4 E4].
  rewrite E1, E2, E3, E4. cbn [bind].
  destruct (s1 =? 0); cbn [bind];
    repeat match goal with
           | |- context [if ?c then _ else _] => destruct c; cbn [bind]
           end; eauto.
Qed.

Lemma direction_exact_ok (self : options) (rec : list byte) (off : Z)
    (is_extended : bool) (status : Z) :
  2048 <= u16_at rec off -> 2048 <= u16_at rec (off + 6) ->
  2048 <= u16_at rec (off + 8) -> 2048 <= u16_at rec (off + 10) ->
  (is_extended = true -> 2048 <= u16_at rec (off + 2) < 43008) ->
  exists d, direction_exact self rec off is_extended status = Ok d.
Proof.
  intros H1 H2 H3 H4 Hkb. unfold direction_exact.
  destruct (negb (status =? 0)); [eauto |].
  pose proof (u16_at_range rec off).
  pose proof (u16_at_range rec (off + 6)).
  pose proof (u16_at_range rec (off + 8)).
  pose proof (u16_at_range rec (off + 10)).
  destruct (float16_exact_ok self (u16_at rec off) ltac:(lia)) as [v E1].
  destruct (float16_exact_ok self (u16_at rec (off + 6)) ltac:(lia))
    as [u E2].
  destruct (float16_exact_ok self (u16_at rec (off + 8)) ltac:(lia))
    as [a E3].
  destruct (float16_exact_ok self (u16_at rec (off + 10)) ltac:(lia))
    as [cv E4].
  rewrite E1, E2, E3, E4.
  cbn [bind].
  assert (Hk : exists kb,
             (if is_extended then kb_exact self (i16_at rec (off + 2))
              else if i16_at rec (off + 2) <=? 0 then Ok EmptyString
                   else zc_exact self (i16_at rec (off + 2))) = Ok kb).
  { destruct is_extended.
    - apply kb_exact_ok. auto.
    - destruct (_ <=? 0); unfold zc_exact; eauto. }
  destruct Hk as [kb ->]. cbn [bind].
  unfold int16_exact.
  destruct (is_special_value (i16_at rec (off + 4)));
    destruct (is_special_value (i16_at rec (off + 12))); cbn [bind]; eauto.
Qed.

Lemma row_exact_clean (self : options) (rec : list byte) :
  len rec = RECORD_BUFFER_SIZE -> clean_fields rec ->
  exists fields, row_exact self rec = Ok fields.
Proof.
  unfold RECORD_BUFFER_SIZE. intros Hlen [Hf Hkb].
  assert (F : forall off, In off float_field_offsets ->
                          2048 <= u16_at rec off) by exact Hf.
  unfold float_field_offsets in F.
  assert (K : forall off, In off kb_field_offsets ->
              (type_byte rec =? 0x8A) = true ->
              2048 <= u16_at rec off < 43008).
  { intros off Hin Hty. apply Hkb; [| exact Hin]. now apply Z.eqb_eq. }
  unfold kb_field_offsets in K.
  assert (F12 := F 12 ltac:(cbn; tauto)).
  assert (F14 := F 14 ltac:(cbn; tauto)).
  assert (F20 := F 20 ltac:(cbn; tauto)).
  assert (F22 := F 22 ltac:(cbn; tauto)).
  assert (F24 := F 24 ltac:(cbn; tauto)).
  assert (F28 := F 28 ltac:(cbn; tauto)).
  assert (F34 := F 34 ltac:(cbn; tauto)).
  assert (F36 := F 36 ltac:(cbn; tauto)).
  assert (F38 := F 38 ltac:(cbn; tauto)).
  assert (F42 := F 42 ltac:(cbn; tauto)).
  assert (F48 := F 48 ltac:(cbn; tauto)).
  assert (F50 := F 50 ltac:(cbn; tauto)).
  assert (F52 := F 52 ltac:(cbn; tauto)).
  unfold row_exact, row_fields_exact.
  destruct (axis_status_ok rec 14 ltac:(lia) ltac:(lia) F14 F20 F22 F24)
    as [xs ->].
  destruct (axis_status_ok rec 28 ltac:(lia) ltac:(lia) F28 F34 F36 F38)
    as [ys ->].
  destruct (axis_status_ok rec 42 ltac:(lia) ltac:(lia) F42 F48 F50 F52)
    as [zs ->].
  cbn [bind].
  destruct (direction_exact_ok self rec 14 (type_byte rec =? 0x8A) xs
              F14 F20 F22 F24 (K 16 ltac:(cbn; tauto))) as [xd ->].
  destruct (direction_exact_ok self rec 28 (type_byte rec =? 0x8A) ys
              F28 F34 F36 F38 (K 30 ltac:(cbn; tauto))) as [yd ->].
  destruct (direction_exact_ok self rec 42 (type_byte rec =? 0x8A) zs
              F42 F48 F50 F52 (K 44 ltac:(cbn; tauto))) as [zd ->].
  cbn [bind].
  destruct (negb (get_overall_status xs ys zs =? 0)); cbn [bind]; [eauto |].
  pose proof (u16_at_range rec 12).
  destruct (float16_exact_ok self (u16_at rec 12) ltac:(lia)) as [ov ->].
  cbn [bind]. eauto.
Qed.

(** the three outcomes of [process_record] on a 70-byte buffer. *)
Theorem process_record_outcomes (self : options) (today : Z * Z * Z)
    (rec : list byte) (read_type : Z) (rd : reader) :
  len rec = RECORD_BUFFER_SIZE ->
  (read_type < 0 /\ declared_size rec = 68 /\
   process_record self today rec read_type rd = (rd, Some ValueError)) \/
  process_record self today rec read_type rd = (skip_record rd, None) \/
  (0 <= read_type /\ declared_size rec = 68 /\
   Z.land (type_byte rec) 0xFD = 0x88 /\
   process_record self today rec read_type rd
   = match row_exact self rec with
     | Ok fields => (write_line (count_record rd) (csv_line fields), None)
     | Raise _ => (count_record rd, Some ValueError)
     end).
Proof.
  intros Hlen.
  destruct (examine_record_cases self today rec read_type Hlen)
    as [(Hrt & Hsz & Hex) | [[why Hex] | (Hrt & Hsz & Hty & Hex)]].
  - left. unfold process_record. rewrite Hex. auto.
  - right; left. unfold process_record. now rewrite Hex.
  - right; right. split; [exact Hrt |]. split; [exact Hsz |].
    split; [exact Hty |].
    unfold process_record. rewrite Hex.
    rewrite decode_record_is_exact by exact Hlen.
    fold (row_exact self rec).
    pose proof (only_row_fields_exact self rec (type_byte rec)
                  (declared_size rec) (iso_date (record_date rec))
                  (record_time rec) Hlen) as Honly.
    fold (row_exact self rec) in Honly.
    destruct (row_exact self rec) as [fields | e]; cbn [bind];
      [reflexivity |].
    now rewrite (Honly e eq_refl).
Qed.

Lemma process_record_outcomes_witness :
  (2 < 0 /\ declared_size (held sample_record) = 68 /\
   process_record plain_options sample_day (held sample_record) 2 new_reader
   = (new_reader, Some ValueError)) \/
  process_record plain_options sample_day (held sample_record) 2 new_reader
  = (skip_record new_reader, None) \/
  (0 <= 2 /\ declared_size (held sample_record) = 68 /\
   Z.land (type_byte (held sample_record)) 0xFD = 0x88 /\
   process_record plain_options sample_day (held sample_record) 2 new_reader
   = match row_exact plain_options (held sample_record) with
     | Ok fields =>
         (write_line (count_record new_reader) (csv_line fields), None)
     | Raise _ => (count_record new_reader, Some ValueError)
     end).
Proof.
  apply (process_record_outcomes plain_options sample_day
           (held sample_record) 2 new_reader).
  reflexivity.
Defined.

(* ================================================================== *)
(** ** The lines of the output can be read back *)
(* ================================================================== *)

Lemma Ok_inj {A : Type} (a b : A) : Ok a = Ok b -> a = b.
Proof. congruence. Qed.

Lemma all_chars_append (p : ascii -> bool) (a b : string) :
  all_chars p (a ++ b) = all_chars p a && all_chars p b.
Proof.
  induction a as [| c a IH]; cbn; [reflexivity |].
  rewrite IH. now rewrite andb_assoc.
Qed.

Lemma no_quote_append (a b : string) :
  no_quote (a ++ b) = no_quote a && no_quote b.
Proof. apply all_chars_append. Qed.

Lemma no_quote_substring (s : string) :
  no_quote s = true -> forall n m, no_quote (substring n m s) = true.
Proof.
  induction s as [| c s IH]; intros Hs n m.
  - destruct n, m; reflexivity.
  - cbn in Hs. apply andb_true_iff in Hs as [Hc Hs].
    destruct n as [| n].
    + destruct m as [| m]; [reflexivity |].
      cbn. unfold no_quote in IH. rewrite Hc. cbn. apply (IH Hs 0%nat m).
    + cbn. apply (IH Hs).
Qed.

Lemma no_quote_zeros (n : nat) : no_quote (zeros n) = true.
Proof. induction n as [| n IH]; [reflexivity | exact IH]. Qed.

Lemma no_quote_uint (d : Decimal.uint) :
  no_quote (NilZero.string_of_uint d) = true.
Proof.
  assert (H : forall d, no_quote (NilEmpty.string_of_uint d) = true).
  { induction d0; cbn; auto. }
  destruct d; cbn; auto; apply H.
Qed.

Lemma no_quote_str (z : Z) : no_quote (str z) = true.
Proof.
  unfold str, NilZero.string_of_int.
  destruct (Z.to_int z); [| cbn]; apply no_quote_uint.
Qed.

Lemma no_quote_zfill_left (w : nat) (s : string) :
  no_quote s = true -> no_quote (zfill_left w s) = true.
Proof.
  intros Hs. unfold zfill_left. rewrite no_quote_append, no_quote_zeros.
  exact Hs.
Qed.

Lemma no_quote_format_0d (w : nat) (z : Z) : no_quote (format_0d w z) = true.
Proof.
  unfold format_0d. destruct (z <? 0).
  - rewrite no_quote_append. cbn [no_quote all_chars andb].
    change (no_quote "-") with true. cbn [andb].
    apply no_quote_zfill_left, no_quote_str.
  - apply no_quote_zfill_left, no_quote_str.
Qed.

Lemma no_quote_fixed_digits (q : Z) (d : nat) :
  no_quote (fixed_digits q d) = true.
Proof.
  unfold fixed_digits.
  assert (H : no_quote (zfill_left (S d) (str q)) = true)
    by apply no_quote_zfill_left, no_quote_str.
  destruct d as [| d]; [exact H |].
  rewrite !no_quote_append.
  rewrite !no_quote_substring by exact H. reflexivity.
Qed.

Lemma no_quote_exact_fixed (num den : Z) (d : nat) :
  no_quote (exact_fixed num den d) = true.
Proof.
  unfold exact_fixed. destruct (num <? 0).
  - rewrite no_quote_append, no_quote_fixed_digits. reflexivity.
  - apply no_quote_fixed_digits.
Qed.

Lemma no_quote_exact_kb (n : Z) (d : nat) : no_quote (exact_kb n d) = true.
Proof.
  unfold exact_kb. destruct (n <=? 100); apply no_quote_fixed_digits.
Qed.

Lemma no_quote_status_to_string (status : Z) :
  no_quote (status_to_string status) = true.
Proof.
  unfold status_to_string.
  repeat match goal with
         | |- context [if ?c then _ else _] => destruct c
         end; reflexivity.
Qed.

Lemma no_quote_format_geophone (id : Z) : no_quote (format_geophone id) = true.
Proof.
  unfold format_geophone.
  repeat match goal with
         | |- context [if ?c then _ else _] => destruct c
         end; try reflexivity;
    rewrite no_quote_append, no_quote_format_0d; reflexivity.
Qed.

Lemma no_quote_signal_quality (ss : Z) :
  no_quote (get_signal_quality ss) = true.
Proof.
  unfold get_signal_quality.
  repeat match goal with
         | |- context [if ?c then _ else _] => destruct c
         end; reflexivity.
Qed.

Lemma no_quote_peak_type_cat (p : Z) : no_quote (get_peak_type_cat p) = true.
Proof.
  unfold get_peak_type_cat.
  repeat match goal with
         | |- context [if ?c then _ else _] => destruct c
         end; reflexivity.
Qed.

Lemma no_quote_iso_date (date : Z * Z * Z) : no_quote (iso_date date) = true.
Proof.
  destruct date as [[y m] d]. unfold iso_date.
  rewrite !no_quote_append, !no_quote_format_0d. reflexivity.
Qed.

Lemma no_quote_record_time (rec : list byte) :
  no_quote (record_time rec) = true.
Proof.
  unfold record_time.
  rewrite !no_quote_append, !no_quote_format_0d. reflexivity.
Qed.

Lemma plain_float16_exact (self : options) (raw : Z) (s : string) :
  float16_exact self raw = Ok s -> plain s.
Proof.
  unfold float16_exact. destruct (sv_from_float16 _) as [n | e];
    [| discriminate]. cbn [bind].
  destruct (_ || _); intros H; injection H as <-;
    [reflexivity | apply no_quote_exact_fixed].
Qed.

Lemma plain_int16_exact (self : options) (v : Z) (s : string) :
  int16_exact self v = Ok s -> plain s.
Proof.
  unfold int16_exact.
  destruct (is_special_value v); intros H; injection H as <-;
    [reflexivity | apply no_quote_exact_fixed].
Qed.

Lemma plain_kb_exact (self : options) (v : Z) (s : string) :
  kb_exact self v = Ok s -> plain s.
Proof.
  unfold kb_exact. destruct (sv_from_float16 _) as [n | e];
    [| discriminate]. cbn [bind].
  destruct (n <? 0); [discriminate |]. intros H; injection H as <-.
  apply no_quote_exact_kb.
Qed.

Lemma plain_direction_exact (self : options) (rec : list byte) (off : Z)
    (is_extended : bool) (status : Z) (d : DirData) :
  direction_exact self rec off is_extended status = Ok d ->
  Forall plain (dir_fields d) /\ length (dir_fields d) = 8%nat.
Proof.
  unfold direction_exact. intros H. split; [| reflexivity].
  destruct (negb (status =? 0)).
  - injection H as <-. unfold dir_fields. cbn.
    repeat constructor. apply no_quote_status_to_string.
  - destruct (float16_exact self (u16_at rec off)) as [v | e] eqn:Hv;
      [| discriminate]. cbn [bind] in H.
    match type of H with
    | bind ?m _ = _ => destruct m as [kb | e] eqn:Hkb; [| discriminate]
    end. cbn [bind] in H.
    destruct (int16_exact self (i16_at rec (off + 4))) as [ft | e] eqn:Hft;
      [| discriminate]. cbn [bind] in H.
    destruct (float16_exact self (u16_at rec (off + 6))) as [u | e] eqn:Hu;
      [| discriminate]. cbn [bind] in H.
    destruct (float16_exact self (u16_at rec (off + 8))) as [a | e] eqn:Ha;
      [| discriminate]. cbn [bind] in H.
    destruct (float16_exact self (u16_at rec (off + 10))) as [cv | e] eqn:Hcv;
      [| discriminate]. cbn [bind] in H.
    destruct (int16_exact self (i16_at rec (off + 12))) as [cf | e] eqn:Hcf;
      [| discriminate]. cbn [bind] in H.
    injection H as <-. unfold dir_fields. cbn.
    assert (Hk : plain kb).
    { destruct is_extended; [eapply plain_kb_exact; eassumption |].
      destruct (_ <=? 0).
      - injection Hkb as <-. reflexivity.
      - unfold zc_exact in Hkb. injection Hkb as <-.
        apply no_quote_exact_fixed. }
    repeat constructor; try assumption;
      first [ eapply plain_float16_exact; eassumption
            | eapply plain_int16_exact; eassumption ].
Qed.

Lemma plain_sensor_columns (self : options) (rec : list byte) :
  Forall plain (sensor_columns self rec) /\
  length (sensor_columns self rec) = 13%nat.
Proof.
  split; [| reflexivity]. unfold sensor_columns.
  repeat constructor; unfold plain;
    try apply no_quote_exact_fixed; try apply no_quote_str;
    try apply no_quote_signal_quality; try apply no_quote_peak_type_cat;
    try apply no_quote_format_geophone.
  - destruct (_ =? 0); [reflexivity | apply no_quote_str].
  - destruct (_ =? 0); reflexivity.
Qed.

Lemma plain_row_fields_exact (self : options) (rec : list byte)
    (record_type record_size : Z) (date_s time_s : string)
    (fields : list string) :
  plain date_s -> plain time_s ->
  row_fields_exact self rec record_type record_size date_s time_s
  = Ok fields ->
  Forall plain fields /\ length fields = column_count self.
Proof.
  intros Hd Ht. unfold row_fields_exact. intros H.
  destruct (axis_status rec 14) as [xs | e]; [| discriminate].
  destruct (axis_status rec 28) as [ys | e]; [| discriminate].
  destruct (axis_status rec 42) as [zs | e]; [| discriminate].
  cbn [bind] in H.
  destruct (direction_exact self rec 14 _ xs) as [xd | e] eqn:Hx;
    [| discriminate].
  destruct (direction_exact self rec 28 _ ys) as [yd | e] eqn:Hy;
    [| discriminate].
  destruct (direction_exact self rec 42 _ zs) as [zd | e] eqn:Hz;
    [| discriminate].
  cbn [bind] in H.
  match type of H with
  | bind ?m _ = _ => destruct m as [ov | e] eqn:Hov; [| discriminate]
  end. cbn [bind] in H. apply Ok_inj in H. subst fields.
  apply plain_direction_exact in Hx as [Hx Lx].
  apply plain_direction_exact in Hy as [Hy Ly].
  apply plain_direction_exact in Hz as [Hz Lz].
  destruct (plain_sensor_columns self rec) as [Hs Ls].
  assert (Ho : plain ov).
  { destruct (negb _).
    - injection Hov as <-. reflexivity.
    - eapply plain_float16_exact; eassumption. }
  split.
  - apply Forall_app. split; [repeat constructor; assumption |].
    apply Forall_app. split.
    { destruct (print_number self); [| constructor].
      constructor; [| constructor].
      destruct (_ <? record_size); [apply no_quote_str | reflexivity]. }
    apply Forall_app. split.
    { constructor; [apply no_quote_status_to_string |].
      constructor; [exact Ho | constructor]. }
    apply Forall_app. split; [exact Hx |].
    apply Forall_app. split; [exact Hy |].
    apply Forall_app. split; [exact Hz | exact Hs].
  - rewrite !length_app, Lx, Ly, Lz, Ls. unfold column_count.
    destruct (print_number self); cbn [length]; lia.
Qed.

Lemma string_app_assoc (a b c : string) : ((a ++ b) ++ c = a ++ (b ++ c))%string.
Proof. induction a as [| x a IH]; cbn; [reflexivity | now rewrite IH]. Qed.

(** Reading a field that holds no quote, up to its closing quote. *)
Lemma fields_from_field (f rest : string) :
  plain f ->
  fields_from (f ++ String dquote rest)
  = match after_quote rest with
    | NextField more => option_map (cons f) (fields_from more)
    | EndOfLine => Some [f]
    | Malformed => None
    end.
Proof.
  unfold plain, no_quote. induction f as [| c f IH]; intros Hf.
  - cbn [append fields_from]. change (Ascii.eqb dquote dquote) with true.
    cbv iota. unfold after_quote.
    destruct rest as [| c1 [| c2 more]]; try reflexivity.
    + destruct (Ascii.eqb c1 newline); reflexivity.
    + destruct (Ascii.eqb c1 "," && Ascii.eqb c2 dquote); reflexivity.
  - cbn [all_chars] in Hf. apply andb_true_iff in Hf as [Hc Hf].
    apply negb_true_iff in Hc.
    cbn [append fields_from]. rewrite Hc.
    rewrite (IH Hf).
    destruct (after_quote rest) as [more | |]; try reflexivity.
    destruct (fields_from more); reflexivity.
Qed.

Lemma read_quoted_fields (f : string) (fs : list string) :
  plain f -> Forall plain fs ->
  read_csv_line (String.concat "," (map quoted (f :: fs))
                 ++ String newline EmptyString)
  = Some (f :: fs).
Proof.
  revert f. induction fs as [| g fs IH]; intros f Hf Hfs.
  - cbn [map String.concat]. unfold quoted, read_csv_line.
    cbn [append]. change (Ascii.eqb (ascii_of_nat 34) dquote) with true.
    cbv iota. rewrite string_app_assoc. cbn [append].
    change (ascii_of_nat 34) with dquote.
    rewrite fields_from_field by exact Hf. reflexivity.
  - inversion Hfs as [| g' fs' Hg Hfs' E]; subst.
    specialize (IH g Hg Hfs').
    change (String.concat "," (map quoted (f :: g :: fs)))
      with (quoted f ++ "," ++ String.concat "," (map quoted (g :: fs)))%string.
    unfold quoted at 1. unfold read_csv_line.
    cbn [append]. change (Ascii.eqb (ascii_of_nat 34) dquote) with true.
    cbv iota. rewrite !string_app_assoc. cbn [append].
    change (ascii_of_nat 34) with dquote.
    rewrite fields_from_field by exact Hf.
    unfold read_csv_line in IH.
    destruct (String.concat "," (map quoted (g :: fs))) as [| c s] eqn:Hs.
    + cbn in Hs. destruct fs; discriminate.
    + assert (Hc : c = dquote).
      { unfold quoted in Hs.
        destruct fs; cbn in Hs; injection Hs as Hc _; rewrite <- Hc;
          reflexivity. }
      subst c. cbn [append] in *.
      change (Ascii.eqb dquote dquote) with true in IH. cbv iota in IH.
      unfold after_quote. change (Ascii.eqb "," ",") with true.
      change (Ascii.eqb dquote dquote) with true. cbn [andb].
      now rewrite IH.
Qed.

Lemma read_csv_line_round_trip (fields : list string) :
  fields <> [] -> Forall plain fields ->
  read_csv_line (csv_line fields) = Some fields.
Proof.
  intros Hne Hall. destruct fields as [| f fs]; [congruence |].
  inversion Hall; subst. unfold csv_line.
  change (ascii_of_nat 10) with newline.
  now apply read_quoted_fields.
Qed.

Lemma header_names_columns (self : options) (kb : bool) :
  exists names,
    read_csv_line (line_of (header_names self kb)) = Some names /\
    length names = column_count self.
Proof.
  unfold header_names, column_count.
  destruct (print_number self), kb; eexists;
    (split; [vm_compute; reflexivity | reflexivity]).
Qed.

Lemma header_units_columns (self : options) :
  exists units,
    read_csv_line (line_of (header_units self)) = Some units /\
    length units = column_count self.
Proof.
  unfold header_units, column_count.
  destruct (print_number self); eexists;
    (split; [vm_compute; reflexivity | reflexivity]).
Qed.

(* ================================================================== *)
(** ** The first pass: [detect_kb_mode] *)
(* ================================================================== *)

Lemma ord_eq (b : byte) (z : Z) (b' : byte) :
  ord b' = z -> ord b = z -> b = b'.
Proof.
  unfold ord. intros H' H.
  assert (E : Byte.to_N b = Byte.to_N b') by lia.
  pose proof (Byte.of_to_N b) as H1. pose proof (Byte.of_to_N b') as H2.
  rewrite E in H1. congruence.
Qed.

Lemma file_read_cons (n : Z) (b : byte) (f : list byte) :
  0 < n -> file_read n (b :: f)
           = (b :: firstn (Z.to_nat (n - 1)) f, skipn (Z.to_nat (n - 1)) f).
Proof.
  intros Hn. unfold file_read. destruct (Z.ltb_spec n 0); [lia |].
  replace (Z.to_nat n) with (S (Z.to_nat (n - 1))) by lia. reflexivity.
Qed.

Lemma file_read_parts (n : Z) (f : list byte) (chunk rest : list byte) :
  file_read n f = (chunk, rest) -> f = chunk ++ rest.
Proof.
  unfold file_read. destruct (n <? 0); intros H; injection H as <- <-.
  - now rewrite app_nil_r.
  - symmetry. apply firstn_skipn.
Qed.

Lemma detect_kb_loop_nil (fuel : nat) (state : Z) (buf : list byte) :
  detect_kb_loop (S fuel) [] state buf = Some false.
Proof. reflexivity. Qed.

(** One turn of the loop of [detect_kb_mode] on a file that is not at its
    end. *)
Lemma detect_kb_loop_cons (fuel : nat) (b0 : byte) (f : list byte)
    (state : Z) (buf : list byte) :
  detect_kb_loop (S fuel) (b0 :: f) state buf
  = if (state =? 0) && (ord b0 =? 86) then
      detect_kb_loop fuel f 1 (setitem buf 0 b0)
    else if (state =? 1) && (ord b0 =? 73) then
      detect_kb_loop fuel f 2 (setitem buf 1 b0)
    else if (state =? 2) && (ord b0 =? 66) then
      let buf := setitem buf 2 b0 in
      let '(tail, f) := file_read 9 f in
      if negb (len tail =? 9) then Some false
      else
        let buf := setslice buf 3 12 tail in
        let record_type := bytearray_at buf 3 in
        if record_type =? 0x8A then Some true
        else
          let record_size :=
            Z.lor (bytearray_at buf 4) (Z.shiftl (bytearray_at buf 5) 8) in
          let remaining := record_size - 12 in
          let f := if 0 <? remaining
                   then skipn (Z.to_nat remaining) f else f in
          detect_kb_loop fuel f 0 buf
    else detect_kb_loop fuel f 0 buf.
Proof. reflexivity. Qed.

Lemma detect_kb_loop_terminates (fuel : nat) :
  forall f state buf,
    (length f < fuel)%nat ->
    exists b, detect_kb_loop fuel f state buf = Some b.
Proof.
  induction fuel as [| fuel IH]; intros f state buf Hfuel; [lia |].
  destruct f as [| b0 f]; [rewrite detect_kb_loop_nil; eauto |].
  rewrite detect_kb_loop_cons.
  cbn [length] in Hfuel.
  destruct ((state =? 0) && (ord b0 =? 86)); [apply IH; lia |].
  destruct ((state =? 1) && (ord b0 =? 73)); [apply IH; lia |].
  destruct ((state =? 2) && (ord b0 =? 66)); [| apply IH; lia].
  destruct (file_read 9 f) as [tail rest] eqn:Hread.
  pose proof (file_read_parts _ _ _ _ Hread) as Hparts.
  assert (Hrest : (length rest <= length f)%nat).
  { rewrite Hparts, length_app. lia. }
  cbv beta iota zeta.
  destruct (negb (len tail =? 9)); [eauto |].
  destruct (_ =? 0x8A); [eauto |].
  apply IH.
  destruct (0 <? _); [rewrite length_skipn |]; lia.
Qed.

Lemma firstn_prefix {A : Type} (c l : list A) :
  firstn (length (c ++ l) - length l) (c ++ l) ++ l = c ++ l.
Proof.
  rewrite length_app.
  replace (length c + length l - length l)%nat with (length c) by lia.
  rewrite firstn_app, firstn_all, Nat.sub_diag. cbn [firstn].
  now rewrite app_nil_r.
Qed.

Lemma detect_kb_loop_sound (orig : list byte) (fuel : nat) :
  forall f state buf consumed,
    consumed ++ f = orig ->
    length buf = 70%nat ->
    marker_started state consumed ->
    detect_kb_loop fuel f state buf = Some true ->
    exists pre post,
      orig = pre ++ [Byte.x56; Byte.x49; Byte.x42; Byte.x8a] ++ post /\
      (8 <= length post)%nat.
Proof.
  induction fuel as [| fuel IH]; intros f state buf consumed Horig Hbuf Hst H;
    [discriminate |].
  destruct f as [| b0 f]; [rewrite detect_kb_loop_nil in H; discriminate |].
  rewrite detect_kb_loop_cons in H.
  assert (Hnext : (consumed ++ [b0]) ++ f = orig)
    by (rewrite <- app_assoc; exact Horig).
  destruct (Z.eqb_spec state 0) as [S0 | S0]; cbn [andb] in H.
  { destruct (Z.eqb_spec (ord b0) 86) as [Hb | Hb].
    - apply (IH f 1 (setitem buf 0 b0) (consumed ++ [b0]) Hnext).
      + unfold setitem. rewrite length_app, length_firstn. cbn [length].
        rewrite length_skipn. lia.
      + split; [| lia]. intros _. exists consumed.
        now rewrite (ord_eq b0 86 Byte.x56 eq_refl Hb).
      + exact H.
    - destruct (Z.eqb_spec state 1); [lia |].
      destruct (Z.eqb_spec state 2); [lia |]. cbn [andb] in H.
      apply (IH f 0 buf (consumed ++ [b0]) Hnext Hbuf); [| exact H].
      split; lia. }
  destruct (Z.eqb_spec state 1) as [S1 | S1]; cbn [andb] in H.
  { destruct (Z.eqb_spec (ord b0) 73) as [Hb | Hb].
    - apply (IH f 2 (setitem buf 1 b0) (consumed ++ [b0]) Hnext).
      + unfold setitem. rewrite length_app, length_firstn. cbn [length].
        rewrite length_skipn. lia.
      + split; [lia |]. intros _.
        destruct (proj1 Hst S1) as [c ->]. exists c.
        rewrite (ord_eq b0 73 Byte.x49 eq_refl Hb).
        now rewrite <- app_assoc.
      + exact H.
    - destruct (Z.eqb_spec state 2); [lia |]. cbn [andb] in H.
      apply (IH f 0 buf (consumed ++ [b0]) Hnext Hbuf); [| exact H].
      split; lia. }
  destruct (Z.eqb_spec state 2) as [S2 | S2]; cbn [andb] in H.
  2: { apply (IH f 0 buf (consumed ++ [b0]) Hnext Hbuf); [| exact H].
       split; lia. }
  destruct (Z.eqb_spec (ord b0) 66) as [Hb | Hb].
  2: { apply (IH f 0 buf (consumed ++ [b0]) Hnext Hbuf); [| exact H].
       split; lia. }
  destruct (file_read 9 f) as [tail rest] eqn:Hread.
  pose proof (file_read_parts _ _ _ _ Hread) as Hparts.
  cbv beta iota zeta in H.
  destruct (Z.eqb_spec (len tail) 9) as [Htail | Htail]; cbn [negb] in H;
    [| discriminate].
  set (buf2 := setitem buf 2 b0) in *.
  assert (Hbuf2 : length buf2 = 70%nat).
  { unfold buf2, setitem. rewrite length_app, length_firstn. cbn [length].
    rewrite length_skipn. lia. }
  assert (Hbuf3 : length (setslice buf2 3 12 tail) = 70%nat).
  { unfold setslice. rewrite !length_app, length_firstn, length_skipn.
    unfold len in Htail. lia. }
  assert (Hty : bytearray_at (setslice buf2 3 12 tail) 3
                = ord (nth 0 tail Byte.x00)).
  { unfold bytearray_at, setslice. f_equal.
    rewrite app_nth2; rewrite length_firstn; [| lia].
    replace (3 - Nat.min 3 (length buf2))%nat with 0%nat by lia.
    apply app_nth1. unfold len in Htail. lia. }
  rewrite Hty in H.
  destruct (Z.eqb_spec (ord (nth 0 tail Byte.x00)) 0x8A) as [H8a | H8a].
  - destruct (proj2 Hst S2) as [c Hc].
    destruct tail as [| t0 tail']; [discriminate |].
    cbn [nth] in H8a.
    exists c, (tail' ++ rest). split.
    + rewrite <- Horig, Hc, Hparts.
      rewrite (ord_eq b0 66 Byte.x42 eq_refl Hb).
      rewrite (ord_eq t0 0x8A Byte.x8a eq_refl H8a).
      rewrite <- !app_assoc. reflexivity.
    + rewrite length_app. unfold len in Htail. cbn [length] in Htail. lia.
  - match type of H with
    | detect_kb_loop _ ?f' _ ?b' = _ =>
        apply (IH f' 0 b' (firstn (length orig - length f') orig))
    end.
    + match goal with
      | |- firstn _ orig ++ ?f' = orig =>
          assert (Hsuffix : exists c, orig = c ++ f')
      end.
      { destruct (0 <? _).
        - exists ((consumed ++ [b0]) ++ tail
                  ++ firstn (Z.to_nat
                      (Z.lor (bytearray_at (setslice buf2 3 12 tail) 4)
                         (Z.shiftl (bytearray_at (setslice buf2 3 12 tail) 5)
                            8) - 12)) rest).
          rewrite <- Hnext, Hparts, <- !app_assoc.
          now rewrite firstn_skipn.
        - exists ((consumed ++ [b0]) ++ tail).
          rewrite <- Hnext, Hparts, <- !app_assoc. reflexivity. }
      destruct Hsuffix as [c Hc]. rewrite Hc. apply firstn_prefix.
    + exact Hbuf3.
    + split; lia.
    + exact H.
Qed.

Lemma length_setitem (buf : list byte) (i : nat) (b : byte) :
  (i < length buf)%nat -> length (setitem buf i b) = length buf.
Proof.
  intros Hi. unfold setitem. rewrite length_app, length_firstn. cbn [length].
  rewrite length_skipn. lia.
Qed.

Lemma length_setslice (buf : list byte) (i j : nat) (src : list byte) :
  (i <= j <= length buf)%nat -> length src = (j - i)%nat ->
  length (setslice buf i j src) = length buf.
Proof.
  intros Hij Hsrc. unfold setslice.
  rewrite !length_app, length_firstn, length_skipn. lia.
Qed.

(** The bytes of the header that [detect_kb_mode] reads back from its
    buffer are the bytes it has just stored there. *)
Lemma bytearray_at_tail (buf tail : list byte) (k : nat) :
  (3 <= length buf)%nat -> (k < length tail)%nat ->
  bytearray_at (setslice buf 3 12 tail) (3 + k) = ord (nth k tail Byte.x00).
Proof.
  intros Hbuf Hk. unfold bytearray_at, setslice. f_equal.
  rewrite app_nth2; rewrite length_firstn; [| lia].
  replace (3 + k - Nat.min 3 (length buf))%nat with k by lia.
  now apply app_nth1.
Qed.

(** The turn of the loop that reads the third marker byte, in state 2:
    nine more bytes are read; a type byte [0x8A] ends the pass, any other
    one skips what is left of the record. *)
Lemma detect_kb_loop_header (fuel : nat) (t0 t1 t2 : byte)
    (t3 rest buf : list byte) :
  length buf = 70%nat -> length t3 = 6%nat ->
  exists buf',
    length buf' = 70%nat /\
    detect_kb_loop (S fuel) (Byte.x42 :: t0 :: t1 :: t2 :: t3 ++ rest) 2 buf
    = if ord t0 =? 0x8A then Some true
      else detect_kb_loop fuel
             (if 0 <? Z.lor (ord t1) (Z.shiftl (ord t2) 8) - 12
              then skipn (Z.to_nat (Z.lor (ord t1) (Z.shiftl (ord t2) 8) - 12))
                         rest
              else rest) 0 buf'.
Proof.
  intros Hbuf Ht3.
  exists (setslice (setitem buf 2 Byte.x42) 3 12 (t0 :: t1 :: t2 :: t3)).
  assert (Hbuf2 : length (setitem buf 2 Byte.x42) = 70%nat)
    by (rewrite length_setitem; lia).
  split; [rewrite length_setslice; cbn [length]; lia |].
  rewrite detect_kb_loop_cons.
  change ((2 =? 0) && (ord Byte.x42 =? 86)) with false.
  change ((2 =? 1) && (ord Byte.x42 =? 73)) with false.
  change ((2 =? 2) && (ord Byte.x42 =? 66)) with true.
  cbv iota.
  assert (Hread : file_read 9 (t0 :: t1 :: t2 :: t3 ++ rest)
                  = (t0 :: t1 :: t2 :: t3, rest)).
  { unfold file_read. change (9 <? 0) with false. cbv iota.
    change (Z.to_nat 9) with 9%nat.
    change (t0 :: t1 :: t2 :: t3 ++ rest)
      with ((t0 :: t1 :: t2 :: t3) ++ rest).
    assert (HL : length (t0 :: t1 :: t2 :: t3) = 9%nat)
      by (cbn [length]; lia).
    rewrite firstn_app, skipn_app, HL. change (9 - 9)%nat with 0%nat.
    rewrite firstn_all2 by lia. rewrite skipn_all2 by lia.
    rewrite firstn_O, skipn_O.
    now rewrite app_nil_r. }
  cbv zeta. rewrite Hread. cbv beta iota.
  assert (Hlen : len (t0 :: t1 :: t2 :: t3) = 9)
    by (unfold len; cbn [length]; lia).
  rewrite Hlen. change (negb (9 =? 9)) with false. cbv iota.
  rewrite (bytearray_at_tail _ _ 0), (bytearray_at_tail _ _ 1),
    (bytearray_at_tail _ _ 2) by (cbn [length]; lia).
  cbn [nth]. reflexivity.
Qed.

(** A byte that is not the first marker byte leaves or keeps the pass in
    state 0, whatever state it was in, unless it continues the marker. *)
Lemma detect_kb_loop_no_marker (fuel : nat) :
  forall f buf,
    Forall (fun b => ord b <> 86) f -> (length f < fuel)%nat ->
    detect_kb_loop fuel f 0 buf = Some false.
Proof.
  induction fuel as [| fuel IH]; intros f buf Hf Hfuel; [lia |].
  destruct f as [| b0 f]; [apply detect_kb_loop_nil |].
  inversion Hf as [| b0' f' Hb Hrest]; subst.
  rewrite detect_kb_loop_cons.
  destruct (Z.eqb_spec (ord b0) 86); [contradiction |].
  cbn [Z.eqb andb]. apply IH; [exact Hrest | cbn [length] in Hfuel; lia].
Qed.

(** [detect_kb_mode] returns, and it reports KB mode only for a file
    that holds the marker followed by the type byte [0x8A] and eight more
    bytes. *)
Theorem detect_kb_mode_sound (f : list byte) :
  exists b,
    detect_kb_mode f = Some b /\
    (b = true ->
     exists pre post,
       f = pre ++ [Byte.x56; Byte.x49; Byte.x42; Byte.x8a] ++ post /\
       (8 <= length post)%nat).
Proof.
  unfold detect_kb_mode.
  destruct (detect_kb_loop_terminates (S (length f)) f 0
              (repeat Byte.x00 70) ltac:(lia)) as [b Hb].
  exists b. split; [exact Hb |]. intros ->.
  apply (detect_kb_loop_sound f (S (length f)) f 0 (repeat Byte.x00 70) []);
    [reflexivity | reflexivity | split; lia | exact Hb].
Qed.

Lemma detect_kb_loop_framed (fuel : nat) (r rest buf : list byte) :
  framed_record r -> length buf = 70%nat ->
  exists buf',
    length buf' = 70%nat /\
    detect_kb_loop (S (S (S fuel))) (r ++ rest) 0 buf
    = if type_byte r =? 0x8A then Some true
      else detect_kb_loop fuel rest 0 buf'.
Proof.
  intros (ty & body & -> & Hbody) Hbuf.
  rewrite <- (firstn_skipn 6 body).
  set (t3 := firstn 6 body). set (b56 := skipn 6 body).
  assert (Ht3 : length t3 = 6%nat) by (unfold t3; rewrite length_firstn; lia).
  assert (Hb56 : length b56 = 56%nat)
    by (unfold b56; rewrite length_skipn; lia).
  assert (Hbuf1 : length (setitem buf 0 Byte.x56) = 70%nat)
    by (rewrite length_setitem; lia).
  assert (Hbuf2 : length (setitem (setitem buf 0 Byte.x56) 1 Byte.x49)
                  = 70%nat) by (rewrite length_setitem; lia).
  destruct (detect_kb_loop_header fuel ty Byte.x44 Byte.x00 t3 (b56 ++ rest)
              _ Hbuf2 Ht3) as (buf' & Hbuf' & Hstep).
  exists buf'. split; [exact Hbuf' |].
  cbn [app]. rewrite detect_kb_loop_cons.
  change ((0 =? 0) && (ord Byte.x56 =? 86)) with true. cbv iota.
  rewrite detect_kb_loop_cons.
  change ((1 =? 0) && (ord Byte.x49 =? 86)) with false.
  change ((1 =? 1) && (ord Byte.x49 =? 73)) with true. cbv iota.
  rewrite <- app_assoc. etransitivity; [exact Hstep |].
  change (type_byte (Byte.x56 :: Byte.x49 :: Byte.x42 :: ty :: Byte.x44
                       :: Byte.x00 :: (t3 ++ b56))) with (ord ty).
  destruct (ord ty =? 0x8A); [reflexivity |].
  change (Z.lor (ord Byte.x44) (Z.shiftl (ord Byte.x00) 8) - 12) with 56.
  change (0 <? 56) with true. cbv iota.
  rewrite skipn_app, skipn_all2 by (rewrite Hb56; cbn; lia).
  rewrite Hb56. change (Z.to_nat 56 - 56)%nat with 0%nat.
  reflexivity.
Qed.

Lemma detect_kb_loop_records (rs : list (list byte)) :
  Forall framed_record rs ->
  forall fuel buf,
    length buf = 70%nat -> (3 * length rs < fuel)%nat ->
    detect_kb_loop fuel (concat rs) 0 buf
    = Some (existsb (fun r => type_byte r =? 0x8A) rs).
Proof.
  induction 1 as [| r rs Hr Hrs IH]; intros fuel buf Hbuf Hfuel.
  - destruct fuel; [cbn in Hfuel; lia |]. reflexivity.
  - cbn [length] in Hfuel.
    destruct fuel as [| [| [| fuel]]]; try lia.
    cbn [concat existsb].
    destruct (detect_kb_loop_framed fuel r (concat rs) buf Hr Hbuf)
      as (buf' & Hbuf' & ->).
    destruct (type_byte r =? 0x8A); [reflexivity |].
    cbn [orb]. apply IH; [exact Hbuf' | lia].
Qed.

(** On a file made of 68-byte records and nothing else,
    [detect_kb_mode] reports KB mode exactly when one of the records has
    the type byte [0x8A]. *)
Theorem detect_kb_mode_records (rs : list (list byte)) :
  Forall framed_record rs ->
  detect_kb_mode (concat rs)
  = Some (existsb (fun r => type_byte r =? 0x8A) rs).
Proof.
  intros Hrs. unfold detect_kb_mode.
  apply detect_kb_loop_records; [exact Hrs | reflexivity |].
  assert (Hlen : forall l : list (list byte),
             Forall framed_record l ->
             length (concat l) = (68 * length l)%nat).
  { induction 1 as [| r l Hr Hl IHl]; [reflexivity |].
    cbn [concat length]. rewrite length_app, IHl.
    pose proof (framed_record_len r Hr) as H68. unfold len in H68. lia. }
  rewrite (Hlen rs Hrs). lia.
Qed.

Lemma kb_record_framed : framed_record kb_record.
Proof.
  eexists _, _. split; [reflexivity | reflexivity].
Qed.

Lemma detect_kb_mode_records_witness :
  detect_kb_mode (concat [sample_record; kb_record])
  = Some (existsb (fun r => type_byte r =? 0x8A) [sample_record; kb_record]).
Proof.
  apply (detect_kb_mode_records [sample_record; kb_record]).
  repeat constructor; [exact sample_record_framed | exact kb_record_framed].
Defined.

Lemma detect_kb_loop_extended (fuel : nat) (tail buf : list byte) :
  (8 <= length tail)%nat -> length buf = 70%nat ->
  detect_kb_loop (S fuel) (Byte.x42 :: Byte.x8a :: tail) 2 buf = Some true.
Proof.
  intros Hlen Hbuf.
  destruct tail as [| t1 [| t2 tail']]; try (cbn [length] in Hlen; lia).
  assert (Ht3 : length (firstn 6 tail') = 6%nat)
    by (rewrite length_firstn; cbn [length] in Hlen; lia).
  destruct (detect_kb_loop_header fuel Byte.x8a t1 t2 (firstn 6 tail')
              (skipn 6 tail') buf Hbuf Ht3) as (buf' & _ & Hstep).
  rewrite firstn_skipn in Hstep. exact Hstep.
Qed.

(* ================================================================== *)
(** ** One file: [process_vif_file] *)
(* ================================================================== *)

(** What one call of [process_record] does to the reader, whatever the
    buffer: nothing and an exception, one more skipped record, or one
    more processed record, with its row unless the decoding raises. *)
Lemma process_record_effect (self : options) (today : Z * Z * Z)
    (rec : list byte) (read_type : Z) (rd : reader) :
  (exists e, process_record self today rec read_type rd = (rd, Some e)) \/
  process_record self today rec read_type rd = (skip_record rd, None) \/
  (exists e, process_record self today rec read_type rd
             = (count_record rd, Some e)) \/
  (exists line, process_record self today rec read_type rd
                = (write_line (count_record rd) line, None)).
Proof.
  unfold process_record.
  destruct (examine_record self today rec read_type) as [[why | ty sz d t] | e].
  - right; left. reflexivity.
  - destruct (decode_record self rec ty sz d t) as [line | e].
    + right; right; right. eauto.
    + right; right; left. eauto.
  - left. eauto.
Qed.

Lemma process_record_after_lines (self : options) (today : Z * Z * Z)
    (lines : list string) (rec : list byte) (read_type : Z) (rd : reader) :
  process_record self today rec read_type (after_lines lines rd)
  = (after_lines lines (fst (process_record self today rec read_type rd)),
     snd (process_record self today rec read_type rd)).
Proof.
  unfold process_record.
  destruct (examine_record self today rec read_type) as [[why | ty sz d t] | e];
    try reflexivity.
  destruct (decode_record self rec ty sz d t) as [line | e]; cbn [fst snd];
    try reflexivity.
  unfold write_line, count_record, after_lines. cbn.
  now rewrite app_assoc.
Qed.

Lemma replay_after_lines (self : options) (today : Z * Z * Z)
    (lines : list string) (calls : list (list byte * Z)) :
  forall rd,
    replay (process_record self today) calls (after_lines lines rd)
    = (after_lines lines
         (fst (replay (process_record self today) calls rd)),
       snd (replay (process_record self today) calls rd)).
Proof.
  induction calls as [| [rec rt] calls IH]; intros rd; [reflexivity |].
  cbn [replay]. rewrite process_record_after_lines.
  destruct (process_record self today rec rt rd) as [rd' [e |]];
    cbn [fst snd]; [reflexivity | apply IH].
Qed.

Lemma balanced_step (self : options) (today : Z * Z * Z) (h : Z)
    (st : scan_state reader) (c : control reader) :
  run_inv h st ->
  scan_step reader (process_record self today) st = Some c ->
  match c with
  | Continue st' => run_inv h st'
  | Break st' => run_inv h st'
  | Abort _ _ => True
  end.
Proof.
  intros (Hwf & (Hbal & Hctr & Hout & Hsk & Hpr) & Hpos) Hstep.
  unfold scan_step in Hstep.
  destruct (probe_window_spec (sc st) Hwf) as (p & Hp & Hok).
  rewrite Hp in Hstep.
  destruct p as [s' | s' | s' i advance]; cbn [probe_ok] in Hok;
    injection Hstep as <-.
  - split; [exact Hok |]. unfold balanced. cbn. auto 10.
  - split; [apply Hok |]. unfold balanced. cbn. auto 10.
  - destruct Hok as (Hwf' & Hun & Hidx & Hi & Hadv & Hend).
    assert (Hwf'' : wf_scanner (set_scan_idx s' (i + advance))).
    { destruct Hwf' as (H1 & H2 & H3 & H4).
      unfold wf_scanner, window_len in *. cbn. repeat split; lia. }
    assert (Hstart : 0 <= window_start_pos s' + i)
      by (destruct Hwf' as (H1 & H2 & H3 & H4); lia).
    unfold accept_candidate.
    destruct (last_record st) as [lr |].
    + destruct (Z.leb_spec 0 (last_record_pos st)) as [_ | Hneg];
        [| specialize (Hpos ltac:(discriminate)); lia].
      destruct (process_record_effect self today lr
                  (get_read_type_from_delta
                     (window_start_pos s' + i - last_record_pos st))
                  (client st))
        as [[e ->] | [-> | [[e ->] | [line ->]]]]; try exact I.
      * split; [exact Hwf'' |]. unfold balanced. cbn.
        split; [repeat split; lia | intros _; exact Hstart].
      * split; [exact Hwf'' |]. unfold balanced. cbn.
        unfold len in *. rewrite length_app. cbn [length].
        split; [repeat split; lia | intros _; exact Hstart].
    + split; [exact Hwf'' |]. unfold balanced. cbn.
      split; [repeat split; lia | intros _; exact Hstart].
Qed.

(** The counters after a run of [process_records] that ends without an
    exception, from a reader that has written [h] lines and counted
    nothing. *)
Lemma process_records_balanced (self : options) (today : Z * Z * Z)
    (window_size0 : Z) (f : list byte) (rd0 : reader)
    (st : scan_state reader) :
  0 < window_size0 ->
  records_processed rd0 = 0 -> records_skipped rd0 = 0 ->
  record_counter rd0 = 0 ->
  process_records_from reader (process_record self today) window_size0 f rd0
  = Some (st, None) ->
  records_processed (client st) + records_skipped (client st)
  = record_count st /\
  record_counter (client st) = records_processed (client st) /\
  len (out (client st)) = len (out rd0) + records_processed (client st) /\
  0 <= records_skipped (client st) /\
  0 <= records_processed (client st).
Proof.
  intros Hsize Hp0 Hs0 Hc0 Hrun.
  unfold process_records_from in Hrun.
  destruct (scan_loop reader (process_record self today) (S (length f))
              (initial_state reader window_size0 f rd0))
    as [[st1 raised1] |] eqn:Hloop; [| discriminate].
  destruct raised1 as [e |]; [discriminate |].
  assert (Hinv : run_inv (len (out rd0)) st1).
  { refine (scan_loop_invariant reader (process_record self today)
              (run_inv (len (out rd0)))
              (fun r => snd r = None -> run_inv (len (out rd0)) (fst r))
              _ (S (length f)) _ (st1, None) _ Hloop eq_refl).
    - intros st0 c Hinv Hstep.
      pose proof (balanced_step self today _ st0 c Hinv Hstep) as H.
      destruct c; cbn [fst snd]; [exact H | intros _; exact H |
                                  discriminate].
    - split; [apply initial_state_wf; exact Hsize |].
      unfold balanced, initial_state. cbn.
      split; [repeat split; lia | congruence]. }
  destruct Hinv as (_ & (Hbal & Hctr & Hout & Hsk & Hpr) & _).
  unfold flush in Hrun.
  destruct (last_record st1) as [lr |].
  - destruct (process_record_effect self today lr 2 (client st1))
      as [[e He] | [He | [[e He] | [line He]]]]; rewrite He in Hrun;
      try discriminate; injection Hrun as <-; cbn.
    + repeat split; lia.
    + unfold len in *. rewrite length_app. cbn [length]. repeat split; lia.
  - injection Hrun as <-. repeat split; lia.
Qed.

Lemma headers_written (self : options) (kb : bool) :
  (if print_header self then
     write_line
       (write_line new_reader
          (header_names self kb ++ String (ascii_of_nat 10) EmptyString))
       (header_units self ++ String (ascii_of_nat 10) EmptyString)
   else new_reader)
  = after_lines (header_lines self kb) new_reader.
Proof.
  unfold header_lines. destruct (print_header self); reflexivity.
Qed.

Lemma process_vif_file_unfold (self : options) (today : Z * Z * Z)
    (f : list byte) :
  process_vif_file self today f
  = match detect_kb_mode f with
    | None => None
    | Some kb =>
        match process_records_from reader (process_record self today)
                (SCAN_CHUNK_SIZE * 2) f
                (after_lines (header_lines self kb) new_reader) with
        | None => None
        | Some (st, e) =>
            Some {| is_kb_mode := kb; final := client st;
                    total_records := record_count st; raised := e |}
        end
    end.
Proof.
  unfold process_vif_file. destruct (detect_kb_mode f) as [kb |];
    [| reflexivity].
  cbv zeta. rewrite headers_written. reflexivity.
Qed.

(** [process_vif_file], as the header lines followed by the second pass. *)
Lemma process_vif_file_spec (self : options) (today : Z * Z * Z)
    (f : list byte) :
  exists r st,
    process_vif_file self today f = Some r /\
    detect_kb_mode f = Some (is_kb_mode r) /\
    run_reader self today f = Some (st, raised r) /\
    final r = after_lines (header_lines self (is_kb_mode r)) (client st).
Proof.
  rewrite process_vif_file_unfold, run_reader_unfold.
  destruct (detect_kb_loop_terminates (S (length f)) f 0
              (repeat Byte.x00 70) ltac:(lia)) as [kb Hkb].
  fold (detect_kb_mode f) in Hkb. rewrite Hkb.
  destruct (scan_trace_one_behind f) as (tr & Htrace & _ & _).
  rewrite scan_trace_unfold in Htrace.
  destruct (process_records_from_replay reader (process_record self today)
              (after_lines (header_lines self kb) new_reader)
              (SCAN_CHUNK_SIZE * 2) f tr Htrace) as (st1 & e1 & Hrun1 & Hrep1).
  destruct (process_records_from_replay reader (process_record self today)
              new_reader (SCAN_CHUNK_SIZE * 2) f tr Htrace)
    as (st2 & e2 & Hrun2 & Hrep2).
  rewrite Hrun1, Hrun2.
  rewrite replay_after_lines in Hrep1. rewrite <- Hrep2 in Hrep1.
  cbn [fst snd] in Hrep1.
  assert (Hc : client st1
               = after_lines (header_lines self kb) (client st2))
    by congruence.
  assert (He : e1 = e2) by congruence.
  eexists _, st2. cbn [is_kb_mode final raised].
  split; [reflexivity |]. split; [reflexivity |].
  split; [now rewrite He | exact Hc].
Qed.

(** [process_vif_file] returns; its first pass is [detect_kb_mode];
    the header lines, when asked for, come first, and what follows them,
    the counters and the exception, if any, are those of the second pass
    run on its own. *)
Theorem process_vif_file_layout (self : options) (today : Z * Z * Z)
    (f : list byte) :
  exists r st,
    process_vif_file self today f = Some r /\
    detect_kb_mode f = Some (is_kb_mode r) /\
    run_reader self today f = Some (st, raised r) /\
    final r = after_lines (header_lines self (is_kb_mode r)) (client st).
Proof. apply process_vif_file_spec. Qed.

(** After a run of [process_vif_file] that ends without an
    exception every candidate of the scanner was counted once, as
    processed or as skipped; the record counter is the number of
    processed records, and the output holds one row for each of them
    after the header lines. *)
Theorem counters_balance (self : options) (today : Z * Z * Z)
    (f : list byte) (r : file_run) :
  process_vif_file self today f = Some r -> raised r = None ->
  records_processed (final r) + records_skipped (final r) = total_records r /\
  record_counter (final r) = records_processed (final r) /\
  len (out (final r))
  = len (header_lines self (is_kb_mode r)) + records_processed (final r) /\
  0 <= records_skipped (final r) /\ 0 <= records_processed (final r).
Proof.
  rewrite process_vif_file_unfold.
  destruct (detect_kb_mode f) as [kb |]; [| discriminate].
  destruct (process_records_from reader (process_record self today)
              (SCAN_CHUNK_SIZE * 2) f
              (after_lines (header_lines self kb) new_reader))
    as [[st e] |] eqn:Hrun; [| discriminate].
  intros Hr Hnone. injection Hr as <-. cbn [raised] in Hnone. subst e.
  cbn [final total_records is_kb_mode].
  pose proof (process_records_balanced self today (SCAN_CHUNK_SIZE * 2) f
                (after_lines (header_lines self kb) new_reader) st
                eq_refl eq_refl eq_refl eq_refl Hrun)
    as (H1 & H2 & H3 & H4 & H5).
  cbn [out after_lines new_reader] in H3. rewrite app_nil_r in H3.
  repeat split; assumption.
Qed.

Lemma counters_balance_witness :
  exists r,
    process_vif_file plain_options sample_day sample_record = Some r /\
    records_processed (final r) + records_skipped (final r)
    = total_records r /\
    record_counter (final r) = records_processed (final r) /\
    len (out (final r))
    = len (header_lines plain_options (is_kb_mode r))
      + records_processed (final r) /\
    0 <= records_skipped (final r) /\ 0 <= records_processed (final r).
Proof.
  assert (H : exists r,
             process_vif_file plain_options sample_day sample_record = Some r
             /\ raised r = None).
  { eexists. split; [vm_compute; reflexivity | reflexivity]. }
  destruct H as (r & Hr & Hnone). exists r. split; [exact Hr |].
  exact (counters_balance plain_options sample_day sample_record r Hr Hnone).
Defined.

(* ================================================================== *)
(** ** The date option *)
(* ================================================================== *)

Lemma two_digits_all :
  all_from two_digits_agree 0 (Z.to_nat (100 - 0)) = true.
Proof. vm_compute. reflexivity. Qed.

Lemma format_0d_2 (n : Z) : 0 <= n < 100 -> format_0d 2 n = two_digits n.
Proof.
  intros Hn. pose proof (all_in_range _ 0 100 two_digits_all n Hn) as H.
  unfold two_digits_agree in H. apply andb_true_iff in H as [H _].
  now apply String.eqb_eq.
Qed.

Lemma format_0d_4 (n : Z) :
  0 <= n < 100 ->
  format_0d 4 (2000 + n) = String "2" (String "0" (two_digits n)).
Proof.
  intros Hn. pose proof (all_in_range _ 0 100 two_digits_all n Hn) as H.
  unfold two_digits_agree in H. apply andb_true_iff in H as [_ H].
  now apply String.eqb_eq.
Qed.

(** A character that [decimal_value] reads is the digit of its value. *)
Lemma digit_of_char (c : ascii) :
  let n := Z.of_N (N_of_ascii c) in
  (48 <=? n) && (n <=? 57) = true -> c = digit (n - 48).
Proof.
  intros n Hn. apply andb_true_iff in Hn as [H1 H2].
  apply Z.leb_le in H1, H2. unfold digit.
  rewrite Z.mod_small by lia.
  replace (48 + Z.to_N (n - 48))%N with (N_of_ascii c) by (unfold n in *; lia).
  now rewrite ascii_N_embedding.
Qed.

Lemma isdigit_char_digit (n : Z) : isdigit_char (digit n) = true.
Proof.
  unfold digit.
  pose proof (Z.mod_pos_bound n 10 ltac:(lia)) as Hm.
  assert (H : n mod 10 = 0 \/ n mod 10 = 1 \/ n mod 10 = 2 \/ n mod 10 = 3 \/
              n mod 10 = 4 \/ n mod 10 = 5 \/ n mod 10 = 6 \/ n mod 10 = 7 \/
              n mod 10 = 8 \/ n mod 10 = 9) by lia.
  repeat (destruct H as [-> | H]; [reflexivity |]). now rewrite H.
Qed.

Lemma decimal_value_two_digits (n : Z) :
  0 <= n < 100 -> decimal_value 0 (two_digits n) = Some n.
Proof.
  intros Hn.
  assert (H : forall k, 0 <= k < 10 ->
                        Z.of_N (N_of_ascii (digit k)) = 48 + k).
  { intros k Hk. unfold digit. rewrite Z.mod_small by lia.
    rewrite N_ascii_embedding by lia. lia. }
  assert (Hq : 0 <= n / 10 < 10).
  { split; [apply Z.div_pos; lia | apply Z.div_lt_upper_bound; lia]. }
  pose proof (Z.mod_pos_bound n 10 ltac:(lia)) as Hr.
  assert (Hd : digit n = digit (n mod 10))
    by (unfold digit; now rewrite Z.mod_mod by lia).
  unfold two_digits. rewrite Hd. cbn [decimal_value].
  rewrite (H (n / 10) Hq), (H (n mod 10) Hr).
  destruct (Z.leb_spec 48 (48 + n / 10)); [| lia].
  destruct (Z.leb_spec (48 + n / 10) 57); [| lia].
  destruct (Z.leb_spec 48 (48 + n mod 10)); [| lia].
  destruct (Z.leb_spec (48 + n mod 10) 57); [| lia].
  cbn [andb]. f_equal.
  pose proof (Z.div_mod n 10 ltac:(lia)). lia.
Qed.

(** The strings of eight characters. *)
Lemma length_8 (s : string) :
  String.length s = 8%nat ->
  exists c0 c1 c2 c3 c4 c5 c6 c7,
    s = String c0 (String c1 (String c2 (String c3 (String c4 (String c5
          (String c6 (String c7 EmptyString))))))).
Proof.
  intros H.
  repeat (destruct s as [| ? s]; [discriminate |]; cbn [String.length] in H;
          apply Nat.succ_inj in H).
  destruct s; [| discriminate]. repeat eexists.
Qed.

(** A date option that passes [validate_date_string] has ten or eight
    characters.  With ten it is kept as it is.  With eight, and a year of
    two decimal digits, it becomes the same text after the century 20;
    with a superscript digit in the year, which [isdigit] accepts,
    [int] raises [ValueError]. *)
Theorem validated_date_normalizes (s : string) :
  validate_date_string s = true ->
  (String.length s = 10%nat /\ normalize_date_string s = Ok s) \/
  (String.length s = 8%nat /\
   ((exists yy, decimal_value 0 (slice s 0 2) = Some yy /\ 0 <= yy < 100 /\
                normalize_date_string s = Ok ("20" ++ s)%string) \/
    (decimal_value 0 (slice s 0 2) = None /\
     normalize_date_string s = Raise ValueError))).
Proof.
  unfold validate_date_string. intros Hv.
  destruct (String.eqb s EmptyString); [discriminate |].
  destruct (Nat.eqb_spec (String.length s) 8) as [H8 | H8].
  - right. split; [exact H8 |].
    destruct (length_8 s H8) as (c0 & c1 & c2 & c3 & c4 & c5 & c6 & c7 & ->).
    unfold char_is, slice in Hv. cbn [String.get substring Nat.sub] in Hv.
    apply andb_true_iff in Hv as [Hv _]. apply andb_true_iff in Hv as [Hv _].
    apply andb_true_iff in Hv as [Hv _]. apply andb_true_iff in Hv as [Hv _].
    apply Ascii.eqb_eq in Hv. subst c2.
    unfold normalize_date_string, slice, slice_from, int_of_digits.
    cbn [String.length Nat.eqb substring Nat.sub decimal_value].
    destruct ((48 <=? Z.of_N (N_of_ascii c0))
              && (Z.of_N (N_of_ascii c0) <=? 57)) eqn:E0; [| right; auto].
    destruct ((48 <=? Z.of_N (N_of_ascii c1))
              && (Z.of_N (N_of_ascii c1) <=? 57)) eqn:E1; [| right; auto].
    left. eexists. split; [reflexivity |].
    pose proof (digit_of_char c0 E0) as D0.
    pose proof (digit_of_char c1 E1) as D1. cbv zeta in D0, D1.
    apply andb_true_iff in E0 as [A0 B0]. apply andb_true_iff in E1 as [A1 B1].
    apply Z.leb_le in A0, B0, A1, B1.
    set (n0 := Z.of_N (N_of_ascii c0)) in *.
    set (n1 := Z.of_N (N_of_ascii c1)) in *.
    split; [lia |]. cbn [bind].
    rewrite format_0d_4 by lia. unfold two_digits.
    replace ((10 * (10 * 0 + (n0 - 48)) + (n1 - 48)) / 10) with (n0 - 48)
      by (apply (Z.div_unique _ 10 _ (n1 - 48)); lia).
    assert (Hd : digit (10 * (10 * 0 + (n0 - 48)) + (n1 - 48))
                 = digit (n1 - 48)).
    { unfold digit.
      replace ((10 * (10 * 0 + (n0 - 48)) + (n1 - 48)) mod 10)
        with ((n1 - 48) mod 10); [reflexivity |].
      rewrite (Z.mod_small (n1 - 48)) by lia.
      apply (Z.mod_unique _ 10 (n0 - 48)); lia. }
    rewrite Hd, <- D0, <- D1. reflexivity.
  - destruct (Nat.eqb_spec (String.length s) 10) as [H10 | H10];
      [| discriminate].
    left. split; [exact H10 |].
    unfold normalize_date_string. rewrite H10. reflexivity.
Qed.

Lemma validated_date_normalizes_witness :
  normalize_date_string "24-03-15" = Ok "2024-03-15"%string /\
  normalize_date_string superscript_date = Raise ValueError.
Proof.
  split.
  - destruct (validated_date_normalizes "24-03-15" eq_refl)
      as [[H _] | [_ [(yy & _ & _ & H) | [H _]]]];
      [discriminate H | exact H | discriminate H].
  - destruct (validated_date_normalizes superscript_date eq_refl)
      as [[H _] | [_ [(yy & H & _) | [_ H]]]];
      [discriminate H | discriminate H | exact H].
Defined.

Lemma digit_inj (a b : Z) :
  0 <= a < 10 -> 0 <= b < 10 -> digit a = digit b -> a = b.
Proof.
  intros Ha Hb H. unfold digit in H.
  rewrite !Z.mod_small in H by lia.
  apply (f_equal N_of_ascii) in H.
  rewrite !N_ascii_embedding in H by lia. lia.
Qed.

Lemma two_digits_inj (a b : Z) :
  0 <= a < 100 -> 0 <= b < 100 -> two_digits a = two_digits b -> a = b.
Proof.
  intros Ha Hb H. unfold two_digits in H. injection H as H1 H0.
  assert (Hqa : 0 <= a / 10 < 10)
    by (split; [apply Z.div_pos; lia | apply Z.div_lt_upper_bound; lia]).
  assert (Hqb : 0 <= b / 10 < 10)
    by (split; [apply Z.div_pos; lia | apply Z.div_lt_upper_bound; lia]).
  apply digit_inj in H1; [| lia | lia].
  assert (Hd : forall n, digit n = digit (n mod 10))
    by (intros n; unfold digit; now rewrite Z.mod_mod by lia).
  rewrite (Hd a), (Hd b) in H0.
  apply digit_inj in H0; try (apply Z.mod_pos_bound; lia).
  pose proof (Z.div_mod a 10 ltac:(lia)).
  pose proof (Z.div_mod b 10 ltac:(lia)). lia.
Qed.

Lemma iso_date_digits (yy mm dd : Z) :
  0 <= yy < 100 -> 0 <= mm < 100 -> 0 <= dd < 100 ->
  iso_date (2000 + yy, mm, dd)
  = (String "2" (String "0" (two_digits yy)) ++ "-" ++ two_digits mm
     ++ "-" ++ two_digits dd)%string.
Proof.
  intros Hy Hm Hd. unfold iso_date.
  now rewrite format_0d_4, !format_0d_2 by lia.
Qed.

Lemma iso_date_inj (y1 m1 d1 y2 m2 d2 : Z) :
  0 <= y1 < 100 -> 0 <= m1 < 100 -> 0 <= d1 < 100 ->
  0 <= y2 < 100 -> 0 <= m2 < 100 -> 0 <= d2 < 100 ->
  iso_date (2000 + y1, m1, d1) = iso_date (2000 + y2, m2, d2) ->
  y1 = y2 /\ m1 = m2 /\ d1 = d2.
Proof.
  intros Hy1 Hm1 Hd1 Hy2 Hm2 Hd2 H.
  rewrite !iso_date_digits in H by lia.
  unfold two_digits in H. cbn [append] in H.
  injection H as Ya Yb Ma Mb Da Db.
  repeat split; apply two_digits_inj; try lia; unfold two_digits; congruence.
Qed.

Lemma short_date_normalizes (yy mm dd : Z) :
  0 <= yy < 100 -> 0 <= mm < 100 -> 0 <= dd < 100 ->
  validate_date_string (short_date yy mm dd) = true /\
  normalize_date_string (short_date yy mm dd)
  = Ok (iso_date (2000 + yy, mm, dd)).
Proof.
  intros Hy Hm Hd.
  pose proof (decimal_value_two_digits yy Hy) as Hval.
  rewrite iso_date_digits by lia.
  unfold short_date. rewrite !format_0d_2 by lia.
  unfold two_digits in *. cbn [append]. split.
  - unfold validate_date_string.
    cbn [String.eqb String.length Nat.eqb].
    unfold char_is, slice.
    cbn [String.get substring Nat.sub isdigit all_chars].
    rewrite !isdigit_char_digit. reflexivity.
  - unfold normalize_date_string, slice, slice_from, int_of_digits.
    cbn [String.length Nat.eqb substring Nat.sub].
    rewrite Hval. cbn [bind].
    rewrite format_0d_4 by lia. reflexivity.
Qed.

(** The date option written YY-MM-DD is accepted and normalised to
    the text [process_record] compares dates with, so that, with the
    today filter off, a structurally accepted record with a valid
    calendar date is decoded exactly when its date bytes are that day of
    the year 2000+YY, and is skipped at the date filter otherwise. *)
Theorem short_date_selects_day (self : options) (today : Z * Z * Z)
    (rec : list byte) (read_type yy mm dd : Z) :
  0 <= yy < 100 -> 0 <= mm < 100 -> 0 <= dd < 100 ->
  normalize_date_string (short_date yy mm dd) = Ok (iso_date (2000 + yy, mm, dd))
  /\ validate_date_string (short_date yy mm dd) = true
  /\ (filter_today self = false ->
      date_filter self = Some (iso_date (2000 + yy, mm, dd)) ->
      structurally_accepted rec read_type -> calendar_ok_rec rec ->
      examine_record self today rec read_type
      = Ok (if Z.eqb (byte_at rec 11) yy && Z.eqb (byte_at rec 10) mm
               && Z.eqb (byte_at rec 9) dd
            then Decode (type_byte rec) (declared_size rec)
                   (iso_date (record_date rec)) (record_time rec)
            else Skipped NotTheDay)).
Proof.
  intros Hy Hm Hd.
  destruct (short_date_normalizes yy mm dd Hy Hm Hd) as [Hv Hn].
  split; [exact Hn |]. split; [exact Hv |].
  intros Hft Hdf Hacc Hcal.
  rewrite (examine_record_accepted self today rec read_type Hacc).
  pose proof Hcal as Hcal'. unfold calendar_ok_rec in Hcal'.
  apply datetime_valid_calendar in Hcal'. rewrite Hcal'.
  unfold filter_stage. rewrite Hft, Hdf. unfold record_date.
  fold (record_time rec).
  change (format_0d 4 (2000 + byte_at rec 11) ++ "-"
          ++ format_0d 2 (byte_at rec 10) ++ "-"
          ++ format_0d 2 (byte_at rec 9))%string
    with (iso_date (2000 + byte_at rec 11, byte_at rec 10, byte_at rec 9)).
  destruct Hcal as (_ & _ & _ & Hyy & Hmm & Hdd).
  pose proof (byte_at_range rec 11). pose proof (byte_at_range rec 10).
  pose proof (byte_at_range rec 9).
  assert (Hday : byte_at rec 9 < 100).
  { unfold days_in_month in Hdd.
    repeat match type of Hdd with
           | context [if ?c then _ else _] => destruct c
           end; lia. }
  f_equal.
  destruct (String.eqb_spec
              (iso_date (2000 + byte_at rec 11, byte_at rec 10, byte_at rec 9))
              (iso_date (2000 + yy, mm, dd))) as [E | E].
  - apply iso_date_inj in E; try lia. destruct E as (-> & -> & ->).
    now rewrite !Z.eqb_refl.
  - destruct (Z.eqb_spec (byte_at rec 11) yy) as [Ey | Ey];
      [| reflexivity].
    destruct (Z.eqb_spec (byte_at rec 10) mm) as [Em | Em];
      [| reflexivity].
    destruct (Z.eqb_spec (byte_at rec 9) dd) as [Ed | Ed];
      [| reflexivity].
    exfalso. apply E. now rewrite Ey, Em, Ed.
Qed.

Lemma short_date_selects_day_witness :
  examine_record (with_filters plain_options false (Some "2024-03-15"%string))
    sample_day (held sample_record) 2
  = Ok (Decode 0x88 68 "2024-03-15" "14:30:00").
Proof.
  exact (proj2 (proj2 (short_date_selects_day
                         (with_filters plain_options false
                            (Some "2024-03-15"%string))
                         sample_day (held sample_record) 2 24 3 15
                         ltac:(lia) ltac:(lia) ltac:(lia)))
           eq_refl eq_refl sample_record_accepted sample_record_calendar).
Defined.

(* ================================================================== *)
(** ** The candidates of a stream that fits the window *)
(* ================================================================== *)

Lemma claimed_length_min (w : list byte) : 12 <= claimed_length w.
Proof. unfold claimed_length. lia. Qed.

Lemma candidates_in_cons (b : byte) (w : list byte) (pos : Z) :
  candidates_in (b :: w) pos 0
  = if starts_with_marker (b :: w) then
      if len (b :: w) <? claimed_length (b :: w) then []
      else
        (pos, holding (firstn (Z.to_nat (Z.min (claimed_length (b :: w)) 70))
                              (b :: w)))
        :: candidates_in w (pos + 1) (Z.to_nat (claimed_length (b :: w)) - 1)
    else candidates_in w (pos + 1) 0.
Proof. reflexivity. Qed.

(** Too few bytes for a header hold no candidate. *)
Lemma candidates_in_short (w : list byte) :
  forall pos, len w < 12 -> candidates_in w pos 0 = [].
Proof.
  induction w as [| b w IH]; intros pos Hlen; [reflexivity |].
  rewrite candidates_in_cons.
  destruct (starts_with_marker (b :: w)).
  - pose proof (claimed_length_min (b :: w)).
    destruct (Z.ltb_spec (len (b :: w)) (claimed_length (b :: w)));
      [reflexivity | lia].
  - apply IH. unfold len in *. cbn [length] in Hlen. lia.
Qed.

(** Skipping the bytes of a candidate. *)
Lemma candidates_in_skip (w : list byte) :
  forall pos k,
    (k <= length w)%nat ->
    candidates_in w pos k = candidates_in (skipn k w) (pos + Z.of_nat k) 0.
Proof.
  induction w as [| b w IH]; intros pos k Hk.
  - cbn [length] in Hk. replace k with 0%nat by lia.
    cbn [skipn candidates_in]. reflexivity.
  - destruct k as [| k].
    + cbn [skipn]. now rewrite Z.add_0_r.
    + cbn [candidates_in skipn]. cbn [length] in Hk.
      rewrite IH by lia. f_equal. lia.
Qed.

(** The marker search of the scanner passes over bytes that start no
    candidate, and stops on a marker or less than three bytes before the
    end. *)
Lemma find_marker_cons (b0 b1 b2 : byte) (w : list byte) (i : Z) :
  find_marker (b0 :: b1 :: b2 :: w) i
  = if is_marker b0 b1 b2 then i else find_marker (b1 :: b2 :: w) (i + 1).
Proof. reflexivity. Qed.

Lemma find_marker_candidates (w : list byte) :
  forall pos,
    let i := find_marker w pos in
    candidates_in w pos 0
    = candidates_in (skipn (Z.to_nat (i - pos)) w) i 0 /\
    (i - pos + 2 < len w ->
     starts_with_marker (skipn (Z.to_nat (i - pos)) w) = true).
Proof.
  induction w as [| b0 w IH]; intros pos; cbv zeta.
  - cbn [find_marker]. rewrite Z.sub_diag. cbn. split; [reflexivity |].
    unfold len. cbn. lia.
  - destruct w as [| b1 [| b2 w']].
    + cbn [find_marker]. rewrite Z.sub_diag. cbn [Z.to_nat skipn].
      split; [reflexivity |]. unfold len. cbn. lia.
    + cbn [find_marker]. rewrite Z.sub_diag. cbn [Z.to_nat skipn].
      split; [reflexivity |]. unfold len. cbn. lia.
    + rewrite find_marker_cons.
      destruct (is_marker b0 b1 b2) eqn:Hm.
      * rewrite Z.sub_diag. cbn [Z.to_nat skipn].
        split; [reflexivity |]. intros _. exact Hm.
      * specialize (IH (pos + 1)). cbv zeta in IH.
        pose proof (find_marker_range (b1 :: b2 :: w') (pos + 1)) as Hr.
        set (i := find_marker (b1 :: b2 :: w') (pos + 1)) in *.
        replace (Z.to_nat (i - pos)) with (S (Z.to_nat (i - (pos + 1))))
          by lia.
        cbn [skipn]. destruct IH as [IH1 IH2]. split.
        -- rewrite candidates_in_cons.
           change (starts_with_marker (b0 :: b1 :: b2 :: w'))
             with (is_marker b0 b1 b2).
           rewrite Hm. exact IH1.
        -- intros Hlen. apply IH2. unfold len in *. cbn [length] in *. lia.
Qed.

Lemma store_candidate_holding (lr src : list byte) (copy_len : Z) :
  len lr = 70 -> len src = copy_len -> copy_len <= 70 ->
  store_candidate lr src copy_len = holding src.
Proof.
  intros Hlr Hsrc Hle. pose proof (len_nonneg src) as H0.
  unfold store_candidate, holding.
  assert (Hlr2 : len (src ++ skipn (Z.to_nat copy_len) lr) = 70).
  { rewrite len_app, len_skipn by lia. lia. }
  rewrite Hlr2.
  assert (Hn : length src = Z.to_nat copy_len) by (unfold len in Hsrc; lia).
  destruct (Z.ltb_spec copy_len 70) as [Hlt | Hge].
  - rewrite firstn_app, firstn_all2 by lia.
    rewrite Hn, Nat.sub_diag, firstn_O, app_nil_r.
    f_equal. f_equal. lia.
  - rewrite skipn_all2 by (unfold len in Hlr; lia).
    f_equal. replace (70 - length src)%nat with 0%nat by lia. reflexivity.
Qed.

(** One probe of a window that holds the whole stream. *)
Lemma probe_window_whole (window_size0 : Z) (f : list byte) (p : Z) :
  0 < window_size0 -> len f <= window_size0 -> 0 <= p <= len f ->
  let i := find_marker (skipn (Z.to_nat p) f) p in
  let advance := claimed_length (skipn (Z.to_nat i) f) in
  (exists s', probe_window (loaded window_size0 f p) = Some (Exhausted s') /\
              (len f < p + 3 \/ (i + 2 < len f /\ len f < i + advance))) \/
  (p + 3 <= len f /\ len f <= i + 2 /\
   probe_window (loaded window_size0 f p)
   = Some (NoMarker (loaded window_size0 f i))) \/
  (i + 2 < len f /\ i + advance <= len f /\
   probe_window (loaded window_size0 f p)
   = Some (Candidate (loaded window_size0 f p) i advance)).
Proof.
  intros Hsize Hfit Hp. cbv zeta.
  pose proof (find_marker_range (skipn (Z.to_nat p) f) p) as Hr.
  rewrite len_skipn in Hr by lia.
  set (i := find_marker (skipn (Z.to_nat p) f) p) in *.
  unfold probe_window. cbn [scan_idx loaded].
  destruct (Z.lt_ge_cases (len f) (p + 3)) as [Hshort | Hlong].
  { left.
    destruct (ensure_bytes_loaded_end window_size0 f p (p + 3) Hsize Hfit Hp
                Hshort) as (s' & ->).
    eexists. split; [reflexivity | now left]. }
  rewrite ensure_bytes_loaded by lia.
  cbn [scan_idx window loaded]. fold i.
  unfold window_len. cbn [window loaded].
  destruct (Z.leb_spec (len f) (i + 2)) as [Hnone | Hmark].
  { right; left. unfold set_scan_idx, loaded. cbn. auto. }
  assert (Hsize_at : claimed_length (skipn (Z.to_nat i) f)
                     = advance_of
                         (Z.lor (window_at (loaded window_size0 f p) (i + 4))
                            (Z.shiftl
                               (window_at (loaded window_size0 f p) (i + 5))
                               8))).
  { unfold claimed_length, window_at. cbn [window loaded].
    rewrite !nth_skipn.
    replace (Z.to_nat i + 4)%nat with (Z.to_nat (i + 4)) by lia.
    replace (Z.to_nat i + 5)%nat with (Z.to_nat (i + 5)) by lia.
    pose proof (ord_range (nth (Z.to_nat (i + 4)) f Byte.x00)).
    pose proof (ord_range (nth (Z.to_nat (i + 5)) f Byte.x00)).
    rewrite lor_shiftl_8 by lia.
    now rewrite (proj1 (advance_of_max _)). }
  pose proof (claimed_length_min (skipn (Z.to_nat i) f)) as Hmin.
  unfold MIN_RECORD_BYTES.
  destruct (Z.lt_ge_cases (len f) (i + 12)) as [Hhdr | Hhdr].
  { left.
    destruct (ensure_bytes_loaded_end window_size0 f p (i + 12) Hsize Hfit Hp
                Hhdr) as (s' & ->).
    eexists. split; [reflexivity |]. right. lia. }
  rewrite ensure_bytes_loaded by lia.
  rewrite <- Hsize_at.
  destruct (Z.lt_ge_cases (len f) (i + claimed_length (skipn (Z.to_nat i) f)))
    as [Hcut | Hall].
  { left.
    destruct (ensure_bytes_loaded_end window_size0 f p
                (i + claimed_length (skipn (Z.to_nat i) f)) Hsize Hfit Hp
                Hcut) as (s' & ->).
    eexists. split; [reflexivity |]. right. lia. }
  right; right. rewrite ensure_bytes_loaded by lia. auto.
Qed.

Lemma skipn_skipn_Z {A : Type} (a b : Z) (l : list A) :
  0 <= a -> 0 <= b ->
  skipn (Z.to_nat a) (skipn (Z.to_nat b) l) = skipn (Z.to_nat (b + a)) l.
Proof.
  intros Ha Hb. rewrite skipn_skipn. f_equal. lia.
Qed.

(** Nothing is found where the search stops for good. *)
Lemma candidates_in_cut (f : list byte) (p : Z) :
  0 <= p <= len f ->
  let i := find_marker (skipn (Z.to_nat p) f) p in
  (len f < p + 3 \/
   (i + 2 < len f /\ len f < i + claimed_length (skipn (Z.to_nat i) f))) ->
  candidates_in (skipn (Z.to_nat p) f) p 0 = [].
Proof.
  intros Hp i Hcut.
  destruct Hcut as [Hshort | [Hmark Hcut]].
  - apply candidates_in_short. rewrite len_skipn by lia. lia.
  - pose proof (find_marker_range (skipn (Z.to_nat p) f) p) as Hr.
    destruct (find_marker_candidates (skipn (Z.to_nat p) f) p) as [H1 H2].
    cbv zeta in H1, H2. fold i in H1, H2, Hr.
    rewrite len_skipn in H2, Hr by lia.
    rewrite skipn_skipn_Z in H1, H2 by lia.
    replace (p + (i - p)) with i in H1, H2 by lia.
    rewrite H1. specialize (H2 ltac:(lia)).
    assert (Hlen : len (skipn (Z.to_nat i) f) = len f - i)
      by (rewrite len_skipn; lia).
    revert H2 Hcut Hlen.
    destruct (skipn (Z.to_nat i) f) as [| b w]; [discriminate |].
    intros H2 Hcut Hlen.
    rewrite candidates_in_cons, H2.
    destruct (Z.ltb_spec (len (b :: w)) (claimed_length (b :: w)));
      [reflexivity | lia].
Qed.

(** Where the search goes on from. *)
Lemma candidates_in_find (f : list byte) (p : Z) :
  0 <= p <= len f ->
  let i := find_marker (skipn (Z.to_nat p) f) p in
  p <= i <= len f /\
  candidates_in (skipn (Z.to_nat p) f) p 0
  = candidates_in (skipn (Z.to_nat i) f) i 0.
Proof.
  intros Hp i.
  pose proof (find_marker_range (skipn (Z.to_nat p) f) p) as Hr.
  destruct (find_marker_candidates (skipn (Z.to_nat p) f) p) as [H1 _].
  cbv zeta in H1. fold i in H1, Hr.
  rewrite len_skipn in Hr by lia.
  rewrite skipn_skipn_Z in H1 by lia.
  replace (p + (i - p)) with i in H1 by lia.
  split; [lia | exact H1].
Qed.

(** The candidate the search stops on, and where the search resumes. *)
Lemma candidates_in_taken (f : list byte) (p : Z) :
  0 <= p <= len f ->
  let i := find_marker (skipn (Z.to_nat p) f) p in
  let advance := claimed_length (skipn (Z.to_nat i) f) in
  i + 2 < len f -> i + advance <= len f ->
  candidates_in (skipn (Z.to_nat p) f) p 0
  = (i, holding (firstn (Z.to_nat (Z.min advance 70)) (skipn (Z.to_nat i) f)))
    :: candidates_in (skipn (Z.to_nat (i + advance)) f) (i + advance) 0.
Proof.
  intros Hp i advance Hmark Hall.
  destruct (candidates_in_find f p Hp) as [Hi H1]. fold i in Hi, H1.
  destruct (find_marker_candidates (skipn (Z.to_nat p) f) p) as [_ H2].
  cbv zeta in H2. fold i in H2.
  rewrite len_skipn in H2 by lia. rewrite skipn_skipn_Z in H2 by lia.
  replace (p + (i - p)) with i in H2 by lia.
  specialize (H2 ltac:(lia)).
  rewrite H1. unfold advance in *.
  pose proof (claimed_length_min (skipn (Z.to_nat i) f)) as Hmin.
  assert (Hskip : skipn (Z.to_nat (i + claimed_length (skipn (Z.to_nat i) f))) f
                  = skipn (Z.to_nat (claimed_length (skipn (Z.to_nat i) f)))
                          (skipn (Z.to_nat i) f))
    by (rewrite skipn_skipn_Z by lia; reflexivity).
  rewrite Hskip.
  assert (Hlen : len (skipn (Z.to_nat i) f) = len f - i)
    by (rewrite len_skipn; lia).
  revert H2 Hall Hmin Hlen.
  destruct (skipn (Z.to_nat i) f) as [| b w]; [discriminate |].
  intros H2 Hall Hmin Hlen.
  rewrite candidates_in_cons, H2.
  destruct (Z.ltb_spec (len (b :: w)) (claimed_length (b :: w))); [lia |].
  f_equal.
  rewrite candidates_in_skip
    by (unfold len in *; cbn [length] in *; lia).
  assert (E : skipn (Z.to_nat (claimed_length (b :: w))) (b :: w)
              = skipn (Z.to_nat (claimed_length (b :: w)) - 1) w).
  { replace (Z.to_nat (claimed_length (b :: w)))
      with (S (Z.to_nat (claimed_length (b :: w)) - 1)) at 1 by lia.
    reflexivity. }
  rewrite E. f_equal. lia.
Qed.

Lemma len_holding (src : list byte) : len src <= 70 -> len (holding src) = 70.
Proof.
  intros H. unfold holding, len in *. rewrite length_app, repeat_length. lia.
Qed.

Lemma accept_candidate_whole (st : scan_state (list (list byte * Z)))
    (window_size0 : Z) (f : list byte) (p i advance : Z) :
  match last_record st with
  | Some lr => len lr = RECORD_BUFFER_SIZE
  | None => True
  end ->
  0 <= i -> 12 <= advance -> i + advance <= len f ->
  exists st',
    accept_candidate _ log_candidate st (loaded window_size0 f p) i advance
    = Continue st' /\
    sc st' = loaded window_size0 f (i + advance) /\
    last_record st'
    = Some (holding (firstn (Z.to_nat (Z.min advance 70))
                            (skipn (Z.to_nat i) f))) /\
    found st'
    = found st
      ++ [(i, holding (firstn (Z.to_nat (Z.min advance 70))
                              (skipn (Z.to_nat i) f)))].
Proof.
  unfold RECORD_BUFFER_SIZE. intros Hlast Hi Hadv Hall.
  assert (Hsrc : len (firstn (Z.to_nat (Z.min advance 70))
                        (skipn (Z.to_nat i) f)) = Z.min advance 70).
  { rewrite len_firstn by lia. rewrite len_skipn by lia. lia. }
  unfold accept_candidate, RECORD_BUFFER_SIZE.
  cbn [window_start_pos window loaded Z.add].
  destruct (last_record st) as [lr |].
  - assert (Hstore : store_candidate lr
                       (firstn (Z.to_nat (Z.min advance (len lr)))
                          (skipn (Z.to_nat i) f)) (Z.min advance (len lr))
                     = holding (firstn (Z.to_nat (Z.min advance 70))
                                  (skipn (Z.to_nat i) f))).
    { rewrite Hlast. apply store_candidate_holding; [exact Hlast | | lia].
      exact Hsrc. }
    rewrite Hstore.
    destruct (0 <=? last_record_pos st); unfold log_candidate;
      eexists; (split; [reflexivity |]); cbn; auto.
  - match goal with
    | |- context [store_candidate ?a ?b ?c] =>
        assert (Hstore : store_candidate a b c
                         = holding (firstn (Z.to_nat (Z.min advance 70))
                                      (skipn (Z.to_nat i) f)))
    end.
    { change (len (repeat Byte.x00 (Z.to_nat 70))) with 70.
      apply store_candidate_holding; [reflexivity | exact Hsrc | lia]. }
    rewrite Hstore. eexists. split; [reflexivity |]. cbn. auto.
Qed.

(** The first probe of a stream of less than three bytes finds the file
    exhausted. *)
Lemma probe_window_tiny (window_size0 : Z) (f : list byte) :
  0 < window_size0 -> len f < 3 ->
  exists s',
    probe_window (sc (initial_state (list (list byte * Z)) window_size0 f []))
    = Some (Exhausted s').
Proof.
  intros Hsize Hlen.
  destruct (initial_state_wf (list (list byte * Z)) window_size0 f [] Hsize)
    as (Hwf & Hun).
  set (s0 := sc (initial_state (list (list byte * Z)) window_size0 f [])) in *.
  unfold probe_window.
  destruct (ensure_bytes_spec (scan_idx s0 + 3) s0 Hwf)
    as (b & s' & He & Hwf' & Hun' & Hidx & Hb).
  rewrite He. destruct b; [| eauto].
  exfalso. specialize (Hb eq_refl).
  destruct Hwf' as (H1 & _). unfold unscanned in *.
  pose proof (len_nonneg (f_rest s')).
  change (scan_idx s0) with 0 in *. lia.
Qed.

Lemma greedy_loaded_step (window_size0 : Z) (f : list byte) (p : Z)
    (st : scan_state (list (list byte * Z)))
    (c : control (list (list byte * Z))) :
  0 < window_size0 -> len f <= window_size0 -> 0 <= p <= len f ->
  match last_record st with
  | Some lr => len lr = RECORD_BUFFER_SIZE
  | None => True
  end ->
  found st ++ candidates_in (skipn (Z.to_nat p) f) p 0 = candidates f ->
  match probe_window (loaded window_size0 f p) with
  | None => None
  | Some (Exhausted s) => Some (Break (with_scanner _ st s))
  | Some (NoMarker s) => Some (Continue (with_scanner _ st s))
  | Some (Candidate s i advance) =>
      Some (accept_candidate _ log_candidate st s i advance)
  end = Some c ->
  match c with
  | Continue st' => greedy_inv window_size0 f st'
  | Break st' => found st' = candidates f
  | Abort _ _ => False
  end.
Proof.
  intros Hsize Hfit Hp Hlast Hfound Hstep.
  destruct (probe_window_whole window_size0 f p Hsize Hfit Hp)
    as [(s' & Hprobe & Hcut) | [(Hlong & Hnone & Hprobe) |
                                (Hmark & Hall & Hprobe)]];
    rewrite Hprobe in Hstep; injection Hstep as <-.
  - cbn [found with_scanner]. rewrite <- Hfound.
    rewrite (candidates_in_cut f p Hp Hcut). now rewrite app_nil_r.
  - destruct (candidates_in_find f p Hp) as [Hi H1].
    split; [exact Hlast |]. right.
    exists (find_marker (skipn (Z.to_nat p) f) p).
    split; [lia |]. split; [reflexivity |].
    cbn [found with_scanner]. now rewrite <- H1.
  - destruct (candidates_in_find f p Hp) as [Hi _].
    pose proof (candidates_in_taken f p Hp Hmark Hall) as Htaken.
    cbv zeta in Htaken.
    set (i := find_marker (skipn (Z.to_nat p) f) p) in *.
    set (advance := claimed_length (skipn (Z.to_nat i) f)) in *.
    assert (Hmin : 12 <= advance) by apply claimed_length_min.
    assert (Hi0 : 0 <= i) by lia.
    destruct (accept_candidate_whole st window_size0 f p i advance Hlast
                Hi0 Hmin Hall) as (st' & -> & Hsc & Hlr & Hfd).
    split.
    + rewrite Hlr. apply len_holding.
      rewrite len_firstn by lia. rewrite len_skipn by lia. lia.
    + right. exists (i + advance).
      split; [lia |]. split; [exact Hsc |].
      rewrite Hfd, <- app_assoc. cbn [app].
      rewrite <- Htaken. exact Hfound.
Qed.

Lemma greedy_step (window_size0 : Z) (f : list byte)
    (st : scan_state (list (list byte * Z)))
    (c : control (list (list byte * Z))) :
  0 < window_size0 -> len f <= window_size0 ->
  greedy_inv window_size0 f st ->
  scan_step _ log_candidate st = Some c ->
  match c with
  | Continue st' => greedy_inv window_size0 f st'
  | Break st' => found st' = candidates f
  | Abort _ _ => False
  end.
Proof.
  intros Hsize Hfit (Hlast & Hinv) Hstep. unfold scan_step in Hstep.
  pose proof (len_nonneg f) as H0.
  destruct Hinv as [(Hsc & Hfd) | (p & Hp & Hsc & Hfd)].
  - rewrite Hsc in Hstep.
    destruct (Z.lt_ge_cases (len f) 3) as [Hshort | Hlong].
    + destruct (probe_window_tiny window_size0 f Hsize Hshort) as (s' & Hpr).
      rewrite Hpr in Hstep. injection Hstep as <-.
      cbn [found with_scanner]. rewrite Hfd. symmetry.
      apply candidates_in_short. lia.
    + rewrite probe_window_first in Hstep by lia.
      apply (greedy_loaded_step window_size0 f 0 st c Hsize Hfit);
        [lia | exact Hlast | now rewrite Hfd | exact Hstep].
  - rewrite Hsc in Hstep.
    exact (greedy_loaded_step window_size0 f p st c Hsize Hfit Hp Hlast
             Hfd Hstep).
Qed.

Lemma greedy_from (window_size0 : Z) (f : list byte)
    (tr : scan_state (list (list byte * Z))) :
  0 < window_size0 -> len f <= window_size0 ->
  process_records_from _ log_candidate window_size0 f [] = Some (tr, None) ->
  found tr = candidates f.
Proof.
  intros Hsize Hfit Hrun. unfold process_records_from in Hrun.
  destruct (scan_loop _ log_candidate (S (length f))
              (initial_state (list (list byte * Z)) window_size0 f []))
    as [[st e] |] eqn:Hloop; [| discriminate].
  assert (Hfound : found st = candidates f).
  { refine (scan_loop_invariant _ log_candidate (greedy_inv window_size0 f)
              (fun r => found (fst r) = candidates f) _
              (S (length f)) _ (st, e) _ Hloop).
    - intros st0 c Hinv Hstep.
      pose proof (greedy_step window_size0 f st0 c Hsize Hfit Hinv Hstep) as H.
      destruct c; [exact H | exact H | contradiction].
    - split; [exact I |]. left. split; reflexivity. }
  destruct e as [e |]; [discriminate |].
  unfold flush, log_candidate in Hrun.
  destruct (last_record st); injection Hrun as <-; exact Hfound.
Qed.






(** On a stream that fits the scan window the candidates the scanner
    finds are those of one pass over the bytes: every marker outside a
    candidate already taken starts one, which takes the length it claims
    (12 bytes at least) and is held in a 70-byte buffer, and the search
    ends at the first marker whose claimed length runs past the end. *)
Theorem scanner_finds_candidates (f : list byte) :
  len f <= SCAN_CHUNK_SIZE * 2 ->
  exists tr,
    scan_trace f = Some (tr, None) /\
    found tr = candidates f /\
    record_count tr = len (candidates f) /\
    client tr = one_behind (candidates f).
Proof.
  intros Hfit.
  destruct (scan_trace_one_behind f) as (tr & Htrace & Hcount & Hlog).
  exists tr. split; [exact Htrace |].
  rewrite scan_trace_unfold in Htrace.
  pose proof (greedy_from (SCAN_CHUNK_SIZE * 2) f tr eq_refl Hfit Htrace)
    as Hfound.
  rewrite <- Hfound. auto.
Qed.

Lemma scanner_finds_candidates_witness :
  exists tr,
    scan_trace sample_record = Some (tr, None) /\
    found tr = candidates sample_record /\
    record_count tr = len (candidates sample_record) /\
    client tr = one_behind (candidates sample_record).
Proof.
  apply (scanner_finds_candidates sample_record).
  vm_compute. discriminate.
Defined.

(* ================================================================== *)
(** ** The two passes can disagree *)
(* ================================================================== *)

Lemma no_byte_86 (l : list byte) :
  forallb (fun b => negb (ord b =? 86)) l = true ->
  Forall (fun b => ord b <> 86) l.
Proof.
  intros H. apply Forall_forall. intros b Hb.
  rewrite forallb_forall in H. specialize (H b Hb).
  apply negb_true_iff in H. now apply Z.eqb_neq.
Qed.

Lemma candidates_in_taken_all (w : list byte) :
  forall pos k, (length w <= k)%nat -> candidates_in w pos k = [].
Proof.
  induction w as [| b w IH]; intros pos k Hk; [reflexivity |].
  destruct k as [| k]; [cbn [length] in Hk; lia |].
  cbn [candidates_in]. apply IH. cbn [length] in Hk. lia.
Qed.

Lemma holding_whole_record (w : list byte) :
  len w = 68 -> holding (firstn (Z.to_nat (Z.min 68 70)) w) = held w.
Proof.
  intros H. assert (Hn : length w = 68%nat) by (unfold len in H; lia).
  rewrite firstn_all2 by (rewrite Hn; vm_compute; lia).
  unfold holding, held. rewrite Hn. reflexivity.
Qed.

(** The candidates of a stream that is the byte [V] and then one whole
    68-byte record: the record, at offset 1. *)
Lemma candidates_after_V (r : list byte) :
  framed_record r -> candidates (Byte.x56 :: r) = [(1, held r)].
Proof.
  intros Hr. pose proof (framed_record_len r Hr) as Hlen.
  destruct Hr as (ty & body & -> & Hbody).
  unfold candidates. etransitivity; [apply candidates_in_cons |].
  change (starts_with_marker
            (Byte.x56 :: [Byte.x56; Byte.x49; Byte.x42; ty; Byte.x44;
                          Byte.x00] ++ body)) with false.
  cbv iota. cbn [app] in *.
  etransitivity; [apply candidates_in_cons |].
  change (starts_with_marker
            (Byte.x56 :: Byte.x49 :: Byte.x42 :: ty :: Byte.x44 :: Byte.x00
               :: body)) with true.
  change (claimed_length
            (Byte.x56 :: Byte.x49 :: Byte.x42 :: ty :: Byte.x44 :: Byte.x00
               :: body)) with 68.
  cbv iota.
  match goal with
  | |- (if ?c then _ else _) = _ =>
      assert (Hc : c = false)
        by (apply Z.ltb_ge, Z.eq_le_incl; symmetry; exact Hlen);
      rewrite Hc
  end.
  f_equal.
  - f_equal. exact (holding_whole_record _ Hlen).
  - apply candidates_in_taken_all. cbn [length]. unfold byte in *. lia.
Qed.

(** The first pass does not start over on the byte that breaks a
    partial match: a marker that directly follows the byte [V], or the
    bytes [V], [I], is not seen, and with it the type byte [0x8A].  The
    second pass does see it: when the byte [V] is followed by a whole
    68-byte extended record, that record is the one candidate of the
    file, and [process_vif_file] writes the header lines of ZC mode, with
    the label [f_zc], before what [process_record] makes of the extended
    record. *)
Theorem detect_kb_mode_overlap (tail : list byte) :
  (8 <= length tail)%nat ->
  Forall (fun b => ord b <> 86) tail ->
  detect_kb_mode ([Byte.x56; Byte.x49; Byte.x42; Byte.x8a] ++ tail)
  = Some true /\
  detect_kb_mode
    ([Byte.x56] ++ [Byte.x56; Byte.x49; Byte.x42; Byte.x8a] ++ tail)
  = Some false /\
  detect_kb_mode
    ([Byte.x56; Byte.x49] ++ [Byte.x56; Byte.x49; Byte.x42; Byte.x8a] ++ tail)
  = Some false /\
  (framed_record ([Byte.x56; Byte.x49; Byte.x42; Byte.x8a] ++ tail) ->
   forall (self : options) (today : Z * Z * Z),
   exists run,
     process_vif_file self today
       ([Byte.x56] ++ [Byte.x56; Byte.x49; Byte.x42; Byte.x8a] ++ tail)
     = Some run /\
     is_kb_mode run = false /\
     candidates
       ([Byte.x56] ++ [Byte.x56; Byte.x49; Byte.x42; Byte.x8a] ++ tail)
     = [(1, held ([Byte.x56; Byte.x49; Byte.x42; Byte.x8a] ++ tail))] /\
     type_byte (held ([Byte.x56; Byte.x49; Byte.x42; Byte.x8a] ++ tail))
     = 0x8A /\
     final run
     = after_lines (header_lines self false)
         (fst (process_record self today
                 (held ([Byte.x56; Byte.x49; Byte.x42; Byte.x8a] ++ tail))
                 2 new_reader)) /\
     raised run
     = snd (process_record self today
              (held ([Byte.x56; Byte.x49; Byte.x42; Byte.x8a] ++ tail))
              2 new_reader)).
Proof.
  intros Hlen Htail.
  assert (Hthree :
    detect_kb_mode ([Byte.x56; Byte.x49; Byte.x42; Byte.x8a] ++ tail)
    = Some true /\
    detect_kb_mode
      ([Byte.x56] ++ [Byte.x56; Byte.x49; Byte.x42; Byte.x8a] ++ tail)
    = Some false /\
    detect_kb_mode
      ([Byte.x56; Byte.x49] ++ [Byte.x56; Byte.x49; Byte.x42; Byte.x8a]
       ++ tail)
    = Some false).
  {
  assert (Hno : forall fuel buf,
               (length tail + 3 < fuel)%nat ->
               detect_kb_loop fuel
                 (Byte.x49 :: Byte.x42 :: Byte.x8a :: tail) 0 buf
               = Some false).
    { intros fuel buf Hfuel. apply detect_kb_loop_no_marker.
      - repeat constructor; try (cbn; lia). exact Htail.
      - cbn [length]. lia. }
    split; [| split].
    - unfold detect_kb_mode. cbn [app length].
      rewrite detect_kb_loop_cons.
      change ((0 =? 0) && (ord Byte.x56 =? 86)) with true. cbv iota.
      rewrite detect_kb_loop_cons.
      change ((1 =? 0) && (ord Byte.x49 =? 86)) with false.
      change ((1 =? 1) && (ord Byte.x49 =? 73)) with true. cbv iota.
      apply detect_kb_loop_extended; [exact Hlen | reflexivity].
    - unfold detect_kb_mode. cbn [app length].
      rewrite detect_kb_loop_cons.
      change ((0 =? 0) && (ord Byte.x56 =? 86)) with true. cbv iota.
      rewrite detect_kb_loop_cons.
      change ((1 =? 0) && (ord Byte.x56 =? 86)) with false.
      change ((1 =? 1) && (ord Byte.x56 =? 73)) with false.
      change ((1 =? 2) && (ord Byte.x56 =? 66)) with false. cbv iota.
      apply Hno. lia.
    - unfold detect_kb_mode. cbn [app length].
      rewrite detect_kb_loop_cons.
      change ((0 =? 0) && (ord Byte.x56 =? 86)) with true. cbv iota.
      rewrite detect_kb_loop_cons.
      change ((1 =? 0) && (ord Byte.x49 =? 86)) with false.
      change ((1 =? 1) && (ord Byte.x49 =? 73)) with true. cbv iota.
      rewrite detect_kb_loop_cons.
      change ((2 =? 0) && (ord Byte.x56 =? 86)) with false.
      change ((2 =? 1) && (ord Byte.x56 =? 73)) with false.
      change ((2 =? 2) && (ord Byte.x56 =? 66)) with false. cbv iota.
      apply Hno. lia. }
  destruct Hthree as (H1 & H2 & H3).
  split; [exact H1 |]. split; [exact H2 |]. split; [exact H3 |].
  intros Hframed self today.
  set (r := [Byte.x56; Byte.x49; Byte.x42; Byte.x8a] ++ tail) in *.
  pose proof (candidates_after_V r Hframed) as Hcands.
  destruct (process_vif_file_spec self today ([Byte.x56] ++ r))
    as (run & st & Hrun & Hkb & Hreader & Hfinal).
  rewrite H2 in Hkb. injection Hkb as Hkb. rewrite <- Hkb in Hfinal.
  destruct (scan_trace_one_behind ([Byte.x56] ++ r))
    as (tr & Htrace & _ & Hlog).
  assert (Hfound : found tr = candidates ([Byte.x56] ++ r)).
  { rewrite scan_trace_unfold in Htrace.
    apply (greedy_from (SCAN_CHUNK_SIZE * 2) _ tr eq_refl); [| exact Htrace].
    pose proof (framed_record_len r Hframed) as H68.
    unfold len in *. cbn [app length]. unfold SCAN_CHUNK_SIZE. lia. }
  change ([Byte.x56] ++ r) with (Byte.x56 :: r) in *.
  rewrite Hfound, Hcands in Hlog. cbn [one_behind] in Hlog.
  destruct (run_reader_replay self today (Byte.x56 :: r) tr Htrace)
    as (st' & raised' & Hreader' & Hreplay).
  rewrite Hreader in Hreader'. injection Hreader' as <- <-.
  rewrite Hlog in Hreplay. cbn [replay] in Hreplay.
  exists run. split; [exact Hrun |]. split; [now symmetry |].
  split; [exact Hcands |].
  split.
  { destruct Hframed as (ty & body & Hr & _). unfold r in Hr.
    injection Hr as <- ->. reflexivity. }
  destruct (process_record self today (held r) 2 new_reader) as [rd [e |]];
    cbn [fst snd]; injection Hreplay as Hc He; rewrite Hfinal, Hc;
    split; [reflexivity | now symmetry | reflexivity | now symmetry].
Qed.

Lemma detect_kb_mode_overlap_witness :
  (8 <= length (skipn 4 kb_record))%nat /\
  Forall (fun b => ord b <> 86) (skipn 4 kb_record) /\
  framed_record
    ([Byte.x56; Byte.x49; Byte.x42; Byte.x8a] ++ skipn 4 kb_record) /\
  detect_kb_mode
    ([Byte.x56] ++ [Byte.x56; Byte.x49; Byte.x42; Byte.x8a]
     ++ skipn 4 kb_record)
  = Some false /\
  exists run,
    process_vif_file plain_options sample_day
      ([Byte.x56] ++ [Byte.x56; Byte.x49; Byte.x42; Byte.x8a]
       ++ skipn 4 kb_record)
    = Some run /\
    is_kb_mode run = false /\
    candidates
      ([Byte.x56] ++ [Byte.x56; Byte.x49; Byte.x42; Byte.x8a]
       ++ skipn 4 kb_record)
    = [(1, held ([Byte.x56; Byte.x49; Byte.x42; Byte.x8a]
                 ++ skipn 4 kb_record))] /\
    type_byte (held ([Byte.x56; Byte.x49; Byte.x42; Byte.x8a]
                     ++ skipn 4 kb_record))
    = 0x8A /\
    final run
    = after_lines (header_lines plain_options false)
        (fst (process_record plain_options sample_day
                (held ([Byte.x56; Byte.x49; Byte.x42; Byte.x8a]
                       ++ skipn 4 kb_record))
                2 new_reader)) /\
    raised run
    = snd (process_record plain_options sample_day
             (held ([Byte.x56; Byte.x49; Byte.x42; Byte.x8a]
                    ++ skipn 4 kb_record))
             2 new_reader).
Proof.
  assert (Hlen : (8 <= length (skipn 4 kb_record))%nat)
    by (vm_compute; lia).
  assert (Hno : Forall (fun b => ord b <> 86) (skipn 4 kb_record))
    by (apply no_byte_86; vm_compute; reflexivity).
  assert (Hfr : framed_record
                  ([Byte.x56; Byte.x49; Byte.x42; Byte.x8a]
                   ++ skipn 4 kb_record)) by exact kb_record_framed.
  split; [exact Hlen |]. split; [exact Hno |]. split; [exact Hfr |].
  pose proof (detect_kb_mode_overlap (skipn 4 kb_record) Hlen Hno)
    as (_ & H2 & _ & H4).
  split; [exact H2 |].
  exact (H4 Hfr plain_options sample_day).
Defined.

(* ================================================================== *)
(** ** The command line *)
(* ================================================================== *)

(** [process_record] does not read [print_header]. *)
Lemma process_record_header_free (ph pn ft lf : bool) (df : option string)
    (today : Z * Z * Z) :
  process_record {| print_header := ph; print_number := pn;
                    filter_today := ft; long_format := lf;
                    date_filter := df |} today
  = process_record {| print_header := false; print_number := pn;
                      filter_today := ft; long_format := lf;
                      date_filter := df |} today.
Proof. reflexivity. Qed.

Lemma run_reader_header_free (ph pn ft lf : bool) (df : option string)
    (today : Z * Z * Z) (f : list byte) :
  run_reader {| print_header := ph; print_number := pn; filter_today := ft;
                long_format := lf; date_filter := df |} today f
  = run_reader {| print_header := false; print_number := pn;
                  filter_today := ft; long_format := lf;
                  date_filter := df |} today f.
Proof.
  unfold run_reader. now rewrite process_record_header_free.
Qed.

Lemma process_files_output (files_on_disk : string -> option (list byte))
    (today : Z * Z * Z) (oh on ot ol : bool) (df : option string)
    (files : list string) :
  forall first stdout stdout',
    process_files files_on_disk today oh on ot ol df files first stdout
    = Some (Returned 0, stdout') ->
    let self := {| print_header := false; print_number := on;
                   filter_today := ot; long_format := ol;
                   date_filter := df |} in
    stdout'
    = stdout
      ++ map Text
           (run_header self (oh && first) (present files_on_disk files)
            ++ concat (map (rows_of self today) (present files_on_disk files))).
Proof.
  induction files as [| fn files IH]; intros first stdout stdout' Hrun self.
  - cbn in Hrun. injection Hrun as <-. cbn. now rewrite app_nil_r.
  - cbn [process_files] in Hrun. unfold present. cbn [flat_map].
    fold (present files_on_disk files).
    destruct (files_on_disk fn) as [f |]; [| cbn [app]; exact (IH _ _ _ Hrun)].
    destruct (process_vif_file_spec
                {| print_header := oh && first; print_number := on;
                   filter_today := ot; long_format := ol;
                   date_filter := df |} today f)
      as (r & st & Hr & Hkb & Hst & Hfin).
    rewrite Hr in Hrun. cbv zeta in Hrun.
    destruct (raised r) as [e |] eqn:He; [discriminate |].
    specialize (IH false _ _ Hrun). cbv zeta in IH. fold self in IH.
    rewrite IH. rewrite andb_false_r.
    rewrite run_reader_header_free in Hst. fold self in Hst.
    assert (Hrows : rows_of self today f = out (client st))
      by (unfold rows_of; now rewrite Hst).
    assert (Hhead : run_header self (oh && first)
                      (f :: present files_on_disk files)
                    = header_lines
                        {| print_header := oh && first; print_number := on;
                           filter_today := ot; long_format := ol;
                           date_filter := df |} (is_kb_mode r)).
    { unfold run_header, header_lines. cbn [print_header]. rewrite Hkb.
      reflexivity. }
    assert (Hrest : run_header self false (present files_on_disk files) = []).
    { unfold run_header. now destruct (present files_on_disk files). }
    cbn [app map concat]. rewrite Hrows, Hhead, Hrest, Hfin.
    cbn [out after_lines app].
    rewrite <- app_assoc, <- map_app, <- app_assoc. reflexivity.
Qed.

Lemma process_files_returns (files_on_disk : string -> option (list byte))
    (today : Z * Z * Z) (oh on ot ol : bool) (df : option string)
    (files : list string) :
  forall first stdout,
    exists r,
      process_files files_on_disk today oh on ot ol df files first stdout
      = Some r.
Proof.
  induction files as [| fn files IH]; intros first stdout; [cbn; eauto |].
  cbn [process_files].
  destruct (files_on_disk fn) as [f |]; [| apply IH].
  destruct (process_vif_file_spec
              {| print_header := oh && first; print_number := on;
                 filter_today := ot; long_format := ol;
                 date_filter := df |} today f) as (r & st & Hr & _).
  rewrite Hr. cbv zeta. destruct (raised r); [eauto | apply IH].
Qed.

(** [main] always ends.  When it returns status 0 without having
    been asked for its version, what it has written is: the two header
    lines, if asked for, once, built for the first file that exists and
    with the KB label decided by the first pass over that file alone; then
    the rows of each file that exists, in order.  The counter column is
    on unless [-N] is given without [-n], and the date filter is the
    normalised date option. *)
Theorem main_output (files_on_disk : string -> option (list byte))
    (today : Z * Z * Z) (args : cli_args) :
  (exists r, main files_on_disk today args = Some r) /\
  (forall stdout,
     args_version args = false ->
     main files_on_disk today args = Some (Returned 0, stdout) ->
     exists date_filter,
       filter_of_day (args_day args) date_filter /\
       stdout
       = map Text
           (run_header (reader_options args date_filter) (args_header args)
              (present files_on_disk (args_files args))
            ++ concat (map (rows_of (reader_options args date_filter) today)
                           (present files_on_disk (args_files args))))).
Proof.
  split.
  - unfold main. destruct (args_version args); [eauto |].
    destruct (args_files args) as [| fn files] eqn:Hfiles; [eauto |].
    cbv zeta. destruct (args_day args) as [day |].
    + destruct (validate_date_string day); cbn [negb]; [| eauto].
      destruct (normalize_date_string day) as [d | e]; [| eauto].
      apply process_files_returns.
    + apply process_files_returns.
  - intros stdout Hversion Hmain. unfold main in Hmain. rewrite Hversion in Hmain.
    destruct (args_files args) as [| fn files] eqn:Hfiles; [discriminate |].
    cbv zeta in Hmain.
    assert (Hnum : (if args_n args then true
                    else if args_N args then false else true)
                   = (if args_n args then true else negb (args_N args)))
      by (destruct (args_n args), (args_N args); reflexivity).
    rewrite Hnum in Hmain.
    destruct (args_day args) as [day |].
    + destruct (validate_date_string day) eqn:Hvalid; cbn [negb] in Hmain;
        [| discriminate].
      destruct (normalize_date_string day) as [d | e] eqn:Hnorm;
        [| discriminate].
      exists (Some d). split; [cbn; eauto |].
      apply process_files_output in Hmain. cbv zeta in Hmain.
      rewrite andb_true_r in Hmain. exact Hmain.
    + exists None. split; [reflexivity |].
      apply process_files_output in Hmain. cbv zeta in Hmain.
      rewrite andb_true_r in Hmain. exact Hmain.
Qed.

(* ================================================================== *)
(** ** Statuses, formatters and rows *)
(* ================================================================== *)

(** The validity status of a 16-bit float field, by ranges of the raw
    value, and as a function of the integer the field decodes to. *)
Theorem status_by_raw_range (value_u16 : Z) :
  0 <= value_u16 < 65536 ->
  sv_is_value_valid value_u16 = status_by_range value_u16 /\
  sv_is_value_valid value_u16
  = (let! n := sv_from_float16 (_to_i16 value_u16) in
     Ok (status_of_decoded n)).
Proof.
  intros Hu. split;
    [now apply status_by_range_eq | now apply sv_is_value_valid_decoded].
Qed.

Lemma status_by_raw_range_witness :
  sv_is_value_valid 40000 = status_by_range 40000 /\
  sv_is_value_valid 40000
  = (let! n := sv_from_float16 (_to_i16 40000) in Ok (status_of_decoded n)).
Proof. apply (status_by_raw_range 40000). lia. Defined.

(** The two field formatters print what exact decimal arithmetic
    gives. *)
Theorem field_formatters_exact (self : options) :
  (forall value_i16, -32768 <= value_i16 < 32768 ->
     format_int16 self value_i16 = int16_exact self value_i16) /\
  (forall value_u16, 0 <= value_u16 < 65536 ->
     format_float16 self value_u16 = float16_exact self value_u16).
Proof.
  split; intros v Hv;
    [now apply format_int16_is_exact | now apply format_float16_is_exact].
Qed.

(** [parse_direction] on a buffer that holds the axis block. *)
Theorem parse_direction_exact (self : options) (rec : list byte) (off : Z)
    (is_extended : bool) (status : Z) :
  0 <= off -> off + 13 < len rec ->
  parse_direction self rec off is_extended status
  = direction_exact self rec off is_extended status.
Proof. apply parse_direction_is_exact. Qed.

Lemma parse_direction_exact_witness :
  parse_direction plain_options (held sample_record) 14 false 0
  = direction_exact plain_options (held sample_record) 14 false 0.
Proof.
  apply (parse_direction_exact plain_options (held sample_record) 14 false 0);
    [lia | reflexivity].
Defined.

(** What a call of [process_record] that returns has written. *)
Lemma process_record_written (self : options) (today : Z * Z * Z)
    (rec : list byte) (read_type : Z) (rd rd' : reader) :
  len rec = RECORD_BUFFER_SIZE ->
  process_record self today rec read_type rd = (rd', None) ->
  rd' = skip_record rd \/
  exists fields,
    row_exact self rec = Ok fields /\
    rd' = write_line (count_record rd) (csv_line fields).
Proof.
  intros Hlen Hrun.
  destruct (examine_record_cases self today rec read_type Hlen)
    as [(Hrt & Hsz & Hex) | [[why Hex] | (Hrt & Hsz & Hty & Hex)]];
    unfold process_record in Hrun; rewrite Hex in Hrun.
  - discriminate.
  - left. congruence.
  - right. rewrite decode_record_is_exact in Hrun by exact Hlen.
    fold (row_exact self rec) in Hrun.
    destruct (row_exact self rec) as [fields | e]; cbn [bind] in Hrun;
      [| discriminate].
    exists fields. split; [reflexivity | congruence].
Qed.

(** A record whose float fields are all at or above [0x0800], and
    whose KB metrics, in an extended record, are below [0xA800], is
    processed without an exception. *)
Theorem process_record_clean (self : options) (today : Z * Z * Z)
    (rec : list byte) (read_type : Z) (rd : reader) :
  len rec = RECORD_BUFFER_SIZE -> 0 <= read_type -> clean_fields rec ->
  snd (process_record self today rec read_type rd) = None.
Proof.
  intros Hlen Hrt Hclean.
  destruct (examine_record_cases self today rec read_type Hlen)
    as [(Hneg & _) | [[why Hex] | (_ & Hsz & Hty & Hex)]]; [lia | |];
    unfold process_record; rewrite Hex; [reflexivity |].
  rewrite decode_record_is_exact by exact Hlen.
  fold (row_exact self rec).
  destruct (row_exact_clean self rec Hlen Hclean) as [fields ->].
  reflexivity.
Qed.

Lemma sample_record_clean : clean_fields (held sample_record).
Proof.
  split.
  - intros off Hin. unfold float_field_offsets in Hin. cbn [In] in Hin.
    repeat (destruct Hin as [<- | Hin]; [vm_compute; discriminate |]).
    contradiction.
  - intros Hty. vm_compute in Hty. discriminate.
Qed.

Lemma process_record_clean_witness :
  snd (process_record plain_options sample_day (held sample_record) 2
         new_reader) = None.
Proof.
  apply (process_record_clean plain_options sample_day (held sample_record) 2
           new_reader); [reflexivity | lia | exact sample_record_clean].
Defined.

(** The lines of the output can be read back: the two header lines
    and every row are quoted fields, none of which holds a quote, and all
    of them have the same number of fields, 42 with the counter column
    and 41 without. *)
Theorem rows_match_header (self : options) (today : Z * Z * Z)
    (rec : list byte) (read_type : Z) (rd rd' : reader) (kb : bool) :
  len rec = RECORD_BUFFER_SIZE ->
  process_record self today rec read_type rd = (rd', None) ->
  (exists names units,
     read_csv_line (line_of (header_names self kb)) = Some names /\
     read_csv_line (line_of (header_units self)) = Some units /\
     length names = column_count self /\
     length units = column_count self) /\
  (out rd' = out rd \/
   exists fields,
     out rd' = out rd ++ [csv_line fields] /\
     read_csv_line (csv_line fields) = Some fields /\
     length fields = column_count self).
Proof.
  intros Hlen Hrun. split.
  - destruct (header_names_columns self kb) as (names & Hn & Ln).
    destruct (header_units_columns self) as (units & Hu & Lu).
    exists names, units. auto.
  - destruct (process_record_written self today rec read_type rd rd' Hlen Hrun)
      as [-> | (fields & Hrow & ->)]; [left; reflexivity |].
    right. exists fields. split; [reflexivity |].
    unfold row_exact in Hrow.
    destruct (plain_row_fields_exact self rec _ _ _ _ fields
                (no_quote_iso_date _) (no_quote_record_time _) Hrow)
      as [Hplain Hcount].
    split; [| exact Hcount].
    apply read_csv_line_round_trip; [| exact Hplain].
    intros ->. unfold column_count in Hcount.
    destruct (print_number self); discriminate.
Qed.

Lemma rows_match_header_witness :
  (exists names units,
     read_csv_line (line_of (header_names plain_options false)) = Some names /\
     read_csv_line (line_of (header_units plain_options)) = Some units /\
     length names = column_count plain_options /\
     length units = column_count plain_options) /\
  (out (fst (process_record plain_options sample_day (held sample_record) 2
               new_reader)) = out new_reader \/
   exists fields,
     out (fst (process_record plain_options sample_day (held sample_record) 2
                 new_reader))
     = out new_reader ++ [csv_line fields] /\
     read_csv_line (csv_line fields) = Some fields /\
     length fields = column_count plain_options).
Proof.
  apply (rows_match_header plain_options sample_day (held sample_record) 2
           new_reader _ false); [reflexivity |].
  vm_compute. reflexivity.
Defined.
